(** * MD_MAXPanel: coordinate mapping and rasterisation

    A shallow embedding of [src/MD_MAXPanel.cpp] together with the
    properties the specification states about it.  The source file holds two
    revisions of the class; the embedding follows the second, rotation-aware
    one ([getXMax], [getYMax], [Y2Row], [X2Col], [getPoint], [setPoint],
    [drawHLine], [drawVLine], [drawLine], [drawCirclePoints], [drawCircle]).
    The drawing routines of the first revision are the same text.

    C integers are modelled as [Z].  Every operation is computed exactly and
    the wrap-around is written out wherever the program stores the result
    into a fixed-width variable or passes it as a fixed-width argument:
    [uint8_t], [uint16_t] and [int16_t] have their width, and [int] has the
    width [INT_BITS] of the platform.

    Methods that change the object are computations in the monad [M], which
    threads the panel object (driver included) and may run out of the
    iteration budget handed to a loop. *)

From Stdlib Require Import ZArith Lia List Bool.
From stdpp Require Import base decidable numbers list gmap sets.

Local Open Scope Z_scope.
#[local] Set Warnings "-clear-no-such-hyp".

(** ** Fixed-width integers *)

Module CInt.

(** Value stored when [z] is assigned to an unsigned [w]-bit variable. *)
Definition uwrap (w z : Z) : Z := z mod 2 ^ w.

(** Value stored when [z] is assigned to a signed [w]-bit variable
    (two's complement, the conversion GCC implements). *)
Definition swrap (w z : Z) : Z := (z + 2 ^ (w - 1)) mod 2 ^ w - 2 ^ (w - 1).

Definition u8 : Z → Z := uwrap 8.
Definition u16 : Z → Z := uwrap 16.
Definition s16 : Z → Z := swrap 16.

Definition is_u8 (z : Z) : Prop := 0 ≤ z ≤ 255.
Definition is_u16 (z : Z) : Prop := 0 ≤ z ≤ 65535.
Definition is_s16 (z : Z) : Prop := -32768 ≤ z ≤ 32767.

End CInt.
Import CInt.

(** ** The device driver (external collaborator)

    The MD_MAX72XX library is not part of the repository; the panel class
    only calls its point-level and control-level operations. *)

Module MD_MAX72XX.

(** Modelled from the spec: the 8x8 block size of one device, which the
    source takes from the driver's header as [ROW_SIZE] and [COL_SIZE]. *)
Definition ROW_SIZE : Z := 8.
Definition COL_SIZE : Z := 8.

(** Modelled from the spec: the driver object behind [_D].  It keeps the
    on/off state of every LED of a chain of [maxDevices] devices, addressed
    by (row, column) with the column running along the whole chain, and the
    buffered-update switch set through [control(UPDATE, _)]. *)
Record t : Type := mk {
  maxDevices : Z;
  lit : gset (Z * Z);
  updateOn : bool
}.

(** Modelled from the spec: an address is on the chain when its row is one
    of the eight rows of a device and its column falls on one of the
    [maxDevices] devices. *)
Definition valid (d : t) (r c : Z) : bool :=
  (0 <=? r) && (r <? ROW_SIZE) && (0 <=? c) && (c / COL_SIZE <? maxDevices d).

(** Modelled from the spec: [getPoint(row, col)], the state of one LED;
    off when the address is not on the chain. *)
Definition getPoint (d : t) (r c : Z) : bool :=
  valid d r c && bool_decide ((r, c) ∈ lit d).

(** Modelled from the spec: [setPoint(row, col, state)] switches one LED
    and reports success; an address off the chain changes nothing. *)
Definition setPoint (d : t) (r c : Z) (state : bool) : bool * t :=
  if valid d r c
  then (true,
        mk (maxDevices d)
           (if state then lit d ∪ {[ (r, c) ]} else lit d ∖ {[ (r, c) ]})
           (updateOn d))
  else (false, d).

(** Modelled from the spec: [control(UPDATE, ON|OFF)], the redraw-buffering
    toggle. *)
Definition control_UPDATE (d : t) (on : bool) : t :=
  mk (maxDevices d) (lit d) on.

(** Modelled from the spec: a freshly cleared chain of [n] devices. *)
Definition blank (n : Z) : t := mk n ∅ true.

End MD_MAX72XX.

(** ** The panel object *)

Import MD_MAX72XX(ROW_SIZE, COL_SIZE).

(** The fields of the class that the modelled methods read or write
    ([_charSpacing] and [_killOnDestruct] play no part in them). *)
Record MD_MAXPanel : Type := mkPanel {
  _xDevices : Z;          (* uint8_t: devices in the width of the panel *)
  _yDevices : Z;          (* uint8_t: devices in the height of the panel *)
  _rotatedDisplay : bool; (* the panel is mounted rotated by 90 degrees *)
  _updateEnabled : bool;  (* the auto-update flag *)
  _D : MD_MAX72XX.t       (* the driver object *)
}.

(** One invocation of the panel's [setPoint], as issued by the program. *)
Record PointCall : Type := mkCall { call_x : Z; call_y : Z; call_state : bool }.

(** The panel together with the record of the [setPoint] invocations made
    so far (most recent first).  The record is an observer only: no
    function reads it. *)
Record World : Type := mkWorld { panel : MD_MAXPanel; calls : list PointCall }.

(** Stateful, possibly non-terminating computations: [None] means that the
    iteration budget given to a loop ran out. *)
Definition M (A : Type) : Type := World → option (A * World).

Definition ret {A} (a : A) : M A := λ w, Some (a, w).
Definition bind {A B} (m : M A) (k : A → M B) : M B :=
  λ w, match m w with
       | Some (a, w') => k a w'
       | None => None
       end.
Definition out_of_fuel {A} : M A := λ _, None.

#[global] Instance M_bind : MBind M := λ A B k m, bind m k.

Definition get_panel : M MD_MAXPanel := λ w, Some (panel w, w).
Definition put_panel (p : MD_MAXPanel) : M unit :=
  λ w, Some (tt, mkWorld p (calls w)).
Definition record_call (c : PointCall) : M unit :=
  λ w, Some (tt, mkWorld (panel w) (c :: calls w)).

Definition with_D (p : MD_MAXPanel) (d : MD_MAX72XX.t) : MD_MAXPanel :=
  mkPanel (_xDevices p) (_yDevices p) (_rotatedDisplay p) (_updateEnabled p) d.

(** [_D->control(MD_MAX72XX::UPDATE, on ? ON : OFF)] *)
Definition D_control_UPDATE (on : bool) : M unit :=
  p ← get_panel;
  put_panel (with_D p (MD_MAX72XX.control_UPDATE (_D p) on)).

(** [update(bool state)] of the header: stores the flag and forwards it. *)
Definition update (state : bool) : M unit :=
  p ← get_panel;
  put_panel (mkPanel (_xDevices p) (_yDevices p) (_rotatedDisplay p) state (_D p)) ;;
  D_control_UPDATE state.

(** ** Panel geometry

    [uint16_t m = (_xDevices * COL_SIZE) - 1]: with no devices the value
    wraps to 65535. *)

Definition getXMax (p : MD_MAXPanel) : Z :=
  u16 (if _rotatedDisplay p
       then _yDevices p * ROW_SIZE - 1
       else _xDevices p * COL_SIZE - 1).

Definition getYMax (p : MD_MAXPanel) : Z :=
  u16 (if _rotatedDisplay p
       then _xDevices p * COL_SIZE - 1
       else _yDevices p * ROW_SIZE - 1).

(** ** Address translation

    Both functions compute in [uint16_t]; the rotated branch first
    overwrites its parameter with [x = getXMax() - x]. *)

Definition Y2Row (p : MD_MAXPanel) (x y : Z) : Z :=
  if _rotatedDisplay p
  then let x := u16 (getXMax p - x) in
       u16 (ROW_SIZE - (x mod ROW_SIZE) - 1)
  else u16 (ROW_SIZE - (y mod ROW_SIZE) - 1).

Definition X2Col (p : MD_MAXPanel) (x y : Z) : Z :=
  if _rotatedDisplay p
  then let x := u16 (getXMax p - x) in
       u16 ((x / ROW_SIZE) * (_xDevices p * COL_SIZE)
            + (_xDevices p * COL_SIZE) - 1
            - (y mod (_xDevices p * COL_SIZE)))
  else u16 ((y / ROW_SIZE) * (_xDevices p * COL_SIZE)
            + (_xDevices p * COL_SIZE) - 1
            - (x mod (_xDevices p * COL_SIZE))).

(** ** Point access

    The driver takes the row as [uint8_t] and the column as [uint16_t]. *)

Definition getPoint (p : MD_MAXPanel) (x y : Z) : bool :=
  if (x >? getXMax p) || (y >? getYMax p)
  then false
  else MD_MAX72XX.getPoint (_D p) (u8 (Y2Row p x y)) (X2Col p x y).

Definition setPoint (x y : Z) (state : bool) : M bool :=
  record_call (mkCall x y state) ;;
  p ← get_panel;
  if (x >? getXMax p) || (y >? getYMax p)
  then ret false
  else let '(r, d) := MD_MAX72XX.setPoint (_D p) (u8 (Y2Row p x y)) (X2Col p x y) state in
       put_panel (with_D p d) ;; ret r.

(** ** Rasteriser

    [b &= f(...)] always calls [f] and then conjoins its result onto [b]. *)

(** The [for (uint16_t i = x1; i <= x2; i++)] loop of [drawHLine]. *)
Fixpoint drawHLine_loop (fuel : nat) (y x2 : Z) (state : bool) (i : Z) (b : bool)
  : M bool :=
  match fuel with
  | O => out_of_fuel
  | S fuel' =>
      if i <=? x2
      then r ← setPoint i y state;
           drawHLine_loop fuel' y x2 state (u16 (i + 1)) (b && r)
      else ret b
  end.

(** [drawHLine]: redraw off, swap so that [x1 <= x2], plot, redraw as the
    auto-update flag says. *)
Definition drawHLine (fuel : nat) (y x1 x2 : Z) (state : bool) : M bool :=
  D_control_UPDATE false ;;
  let '(x1, x2) := if x1 >? x2 then (x2, x1) else (x1, x2) in
  b ← drawHLine_loop fuel y x2 state x1 true;
  p ← get_panel;
  update (_updateEnabled p) ;;
  ret b.

(** The [for (uint8_t i = y1; i <= y2; i++)] loop of [drawVLine]. *)
Fixpoint drawVLine_loop (fuel : nat) (x y2 : Z) (state : bool) (i : Z) (b : bool)
  : M bool :=
  match fuel with
  | O => out_of_fuel
  | S fuel' =>
      if i <=? y2
      then r ← setPoint x i state;
           drawVLine_loop fuel' x y2 state (u8 (i + 1)) (b && r)
      else ret b
  end.

(** [drawVLine]: as [drawHLine], but the swap goes through a [uint8_t]
    temporary and the counter is a [uint8_t]. *)
Definition drawVLine (fuel : nat) (x y1 y2 : Z) (state : bool) : M bool :=
  D_control_UPDATE false ;;
  let '(y1, y2) := if y1 >? y2 then (y2, u8 y1) else (y1, y2) in
  b ← drawVLine_loop fuel x y2 state (u8 y1) true;
  p ← get_panel;
  update (_updateEnabled p) ;;
  ret b.

(** The [for (;;)] loop of [drawLine]; [dx], [dy], [sx], [sy] and [err] are
    [int16_t], the running point is [uint16_t].  The second test of the body
    reads [e2], the error term from before the first one. *)
Fixpoint drawLine_loop (fuel : nat) (x2 y2 dx dy sx sy : Z) (state : bool)
    (x1 y1 err : Z) (b : bool) : M bool :=
  match fuel with
  | O => out_of_fuel
  | S fuel' =>
      r ← setPoint x1 y1 state;
      let b := b && r in
      if (x1 =? x2) && (y1 =? y2)
      then ret b
      else
        let e2 := err in
        let '(err, x1) :=
          if e2 >? - dx then (s16 (err - dy), u16 (x1 + sx)) else (err, x1) in
        let '(err, y1) :=
          if e2 <? dy then (s16 (err + dx), u16 (y1 + sy)) else (err, y1) in
        drawLine_loop fuel' x2 y2 dx dy sx sy state x1 y1 err b
  end.

(** [drawLine]: the end points are swapped when [x1 > x2]; the division by
    two truncates towards zero. *)
Definition drawLine (fuel : nat) (x1 y1 x2 y2 : Z) (state : bool) : M bool :=
  D_control_UPDATE false ;;
  let '(x1, y1, x2, y2) :=
    if x1 >? x2 then (x2, y2, x1, y1) else (x1, y1, x2, y2) in
  let dx := s16 (x2 - x1) in
  let sx := 1 in
  let dy := s16 (y2 - y1) in
  let dy := if dy <? 0 then s16 (- dy) else dy in
  let sy := if y1 <? y2 then 1 else -1 in
  let err := s16 (Z.quot (if dx >? dy then dx else - dy) 2) in
  b ← drawLine_loop fuel x2 y2 dx dy sx sy state x1 y1 err true;
  p ← get_panel;
  update (_updateEnabled p) ;;
  ret b.

(** [drawCirclePoints]: the eight symmetric points, in source order. *)
Definition drawCirclePoints (xc yc x y : Z) (state : bool) : M bool :=
  let b := true in
  r ← setPoint (u16 (xc + x)) (u16 (yc + y)) state; let b := b && r in
  r ← setPoint (u16 (xc - x)) (u16 (yc + y)) state; let b := b && r in
  r ← setPoint (u16 (xc + x)) (u16 (yc - y)) state; let b := b && r in
  r ← setPoint (u16 (xc - x)) (u16 (yc - y)) state; let b := b && r in
  r ← setPoint (u16 (xc + y)) (u16 (yc + x)) state; let b := b && r in
  r ← setPoint (u16 (xc - y)) (u16 (yc + x)) state; let b := b && r in
  r ← setPoint (u16 (xc + y)) (u16 (yc - x)) state; let b := b && r in
  r ← setPoint (u16 (xc - y)) (u16 (yc - x)) state; let b := b && r in
  ret b.

Section Circle.

(** Width of the platform's [int] (16 on AVR boards, 32 on ARM and ESP
    boards): [drawCircle] keeps [x], [y] and [pk] in plain [int]. *)
Variable INT_BITS : Z.

Definition cint : Z → Z := swrap INT_BITS.

(** The [while (x < y)] loop of [drawCircle]. *)
Fixpoint drawCircle_loop (fuel : nat) (xc yc : Z) (state : bool)
    (x y pk : Z) (b : bool) : M bool :=
  match fuel with
  | O => out_of_fuel
  | S fuel' =>
      if x <? y
      then
        if pk <=? 0
        then
          let pk := cint (pk + 4 * x + 6) in
          let x := cint (x + 1) in
          r ← drawCirclePoints xc yc (u16 x) (u16 y) state;
          drawCircle_loop fuel' xc yc state x y pk (b && r)
        else
          let pk := cint (pk + 4 * (x - y) + 10) in
          let x := cint (x + 1) in
          let y := cint (y - 1) in
          r ← drawCirclePoints xc yc (u16 x) (u16 y) state;
          drawCircle_loop fuel' xc yc state x y pk (b && r)
      else ret b
  end.

(** [drawCircle]: the accumulator starts as [bool b = false]; [x] and [y]
    are converted to [uint16_t] on their way into [drawCirclePoints]. *)
Definition drawCircle (fuel : nat) (xc yc r : Z) (state : bool) : M bool :=
  let x := 0 in
  let y := cint r in
  let pk := cint (3 - 2 * r) in
  let b := false in
  D_control_UPDATE false ;;
  r' ← drawCirclePoints xc yc (u16 x) (u16 y) state;
  let b := b && r' in
  b ← drawCircle_loop fuel xc yc state x y pk b;
  p ← get_panel;
  update (_updateEnabled p) ;;
  ret b.

End Circle.

(** ** Shapes composed of lines

    Each routine brackets its line calls with its own redraw-off and
    redraw-restore, and conjoins their results. *)

Definition drawRectangle (fuel : nat) (x1 y1 x2 y2 : Z) (state : bool) : M bool :=
  let b := true in
  D_control_UPDATE false ;;
  r ← drawHLine fuel y1 x1 x2 state; let b := b && r in
  r ← drawHLine fuel y2 x1 x2 state; let b := b && r in
  r ← drawVLine fuel x1 y1 y2 state; let b := b && r in
  r ← drawVLine fuel x2 y1 y2 state; let b := b && r in
  p ← get_panel;
  update (_updateEnabled p) ;;
  ret b.

Definition drawQuadrilateral (fuel : nat) (x1 y1 x2 y2 x3 y3 x4 y4 : Z)
    (state : bool) : M bool :=
  let b := true in
  D_control_UPDATE false ;;
  r ← drawLine fuel x1 y1 x2 y2 state; let b := b && r in
  r ← drawLine fuel x2 y2 x3 y3 state; let b := b && r in
  r ← drawLine fuel x3 y3 x4 y4 state; let b := b && r in
  r ← drawLine fuel x4 y4 x1 y1 state; let b := b && r in
  p ← get_panel;
  update (_updateEnabled p) ;;
  ret b.

Definition drawTriangle (fuel : nat) (x1 y1 x2 y2 x3 y3 : Z) (state : bool)
  : M bool :=
  let b := true in
  D_control_UPDATE false ;;
  r ← drawLine fuel x1 y1 x2 y2 state; let b := b && r in
  r ← drawLine fuel x2 y2 x3 y3 state; let b := b && r in
  r ← drawLine fuel x3 y3 x1 y1 state; let b := b && r in
  p ← get_panel;
  update (_updateEnabled p) ;;
  ret b.

(** ** Clearing an area (header)

    [clear(x1, y1, x2, y2)] is
    [for (uint8_t i=x1; i<=x2; i++) drawVLine(i, y1, y2, false);]: the
    columns are not swapped, and the counter is a [uint8_t]. *)

Fixpoint clear_loop (fuel : nat) (y1 x2 y2 : Z) (i : Z) : M unit :=
  match fuel with
  | O => out_of_fuel
  | S fuel' =>
      if i <=? x2
      then drawVLine fuel i y1 y2 false ;;
           clear_loop fuel' y1 x2 y2 (u8 (i + 1))
      else ret tt
  end.

Definition clear (fuel : nat) (x1 y1 x2 y2 : Z) : M unit :=
  clear_loop fuel y1 x2 y2 (u8 x1).

(** ** The drawing sketch: moving the head

    [nextPixel] of the LED-a-Sketch example reads the two axes, remaps each
    reading to a step of -1, 0 or 1, moves the head by it unless that would
    leave the panel, and lights the LED under the head.  The readings of
    [analogRead] are inputs of the model. *)

Module Sketch.

Definition RANGE : Z := 1024.
Definition LTHRESHOLD : Z := u16 (RANGE / 3).
Definition HTHRESHOLD : Z := u16 ((2 * RANGE) / 3).

Section NextPixel.

(** Width of the platform's [int], as for [drawCircle]. *)
Variable INT_BITS : Z.

(** An [int16_t] on its way into a comparison with a [uint16_t]: where
    [int] has 16 bits it is converted to [unsigned int], where [int] is
    wider both operands become [int]. *)
Definition against_u16 (d : Z) : Z := if INT_BITS <=? 16 then u16 d else d.

(** [if (dx <= LTHRESHOLD) dx = -1; else if (dx >= HTHRESHOLD) dx = 1;
    else dx = 0;] on [int16_t dx = analogRead(pin)]. *)
Definition remap (reading : Z) : Z :=
  let dx := s16 reading in
  if against_u16 dx <=? LTHRESHOLD then -1
  else if against_u16 dx >=? HTHRESHOLD then 1
  else 0.

(** [nextPixel(x, y)]: the references [x] and [y] are returned. *)
Definition nextPixel (xreading yreading : Z) (x y : Z) : M (Z * Z) :=
  let dx := remap xreading in
  let dy := remap yreading in
  p ← get_panel;
  let x := if (negb (x =? 0) && (dx <? 0)) || ((x <? getXMax p) && (dx >? 0))
           then u16 (x + dx) else x in
  let y := if (negb (y =? 0) && (dy <? 0)) || ((y <? getYMax p) && (dy >? 0))
           then u16 (y + dy) else y in
  setPoint x y true ;;
  ret (x, y).

End NextPixel.

End Sketch.

(** ** The scoreboard class (example)

    [scoreboard.h] keeps the displayed fields in a singly linked list and
    up to three clocks in an array.  The list is modelled by the list of
    its nodes, head first.  A [field_t*] is modelled by the number of nodes
    that were allocated before its node: [fieldCreate] only ever inserts at
    the head and nothing is freed before the destructor, so the node with
    that number sits that far from the end of the list for the whole life
    of the object.  [nullptr] is [None].  The readings of [millis()] are
    inputs of the model. *)

Definition s8 : Z → Z := swrap 8.
Definition u32 : Z → Z := uwrap 32.

Module cScoreboard.

Inductive fieldType_t : Type := NUMBER | MMMSS | MMSS | SS.

Record field_t : Type := mkField {
  id : Z;               (* uint8_t *)
  type : fieldType_t;
  x : Z;                (* uint8_t *)
  y : Z;                (* uint8_t *)
  value : Z;            (* uint32_t *)
  leadZero : bool;
  size : Z              (* uint8_t *)
}.

Record clock_t : Type := mkClock {
  f : option nat;       (* field_t* *)
  timeLimit : Z;        (* uint32_t *)
  timeLast : Z;         (* uint32_t *)
  timeToGo : Z;         (* uint32_t *)
  countUp : bool;
  stopped : bool
}.

Definition MAX_CLOCKS : Z := 3.
Definition CLOCK_PERIOD : Z := 1000.

(** The object; [_mp] is only used by [update]. *)
Record t : Type := mk {
  _changed : bool;
  _fieldList : list field_t;
  _clock : list clock_t
}.

(** [*p] and [*p = fd] for a node pointer [p]. *)
Definition load (l : list field_t) (p : nat) : option field_t :=
  if (p <? length l)%nat then l !! (length l - 1 - p)%nat else None.

Definition store (l : list field_t) (p : nat) (fd : field_t) : list field_t :=
  if (p <? length l)%nat then <[(length l - 1 - p)%nat := fd]> l else l.

(** The constructor: an empty list, and no clock slot in use.  The other
    members of a slot are left uninitialised; [c0] stands for them. *)
Definition new (c0 : clock_t) : t :=
  mk false []
     (replicate (Z.to_nat MAX_CLOCKS)
        (mkClock None (timeLimit c0) (timeLast c0) (timeToGo c0)
                 (countUp c0) (stopped c0))).

(** [findField]: the first node from the head with the id. *)
Fixpoint findField_from (l : list field_t) (i : Z) : option nat :=
  match l with
  | [] => None
  | fd :: rest => if id fd =? i then Some (length rest) else findField_from rest i
  end.

Definition findField (sb : t) (i : Z) : option nat :=
  findField_from (_fieldList sb) i.

(** [fieldCreate]: the node is allocated and linked in only when the id is
    not in the list; the function returns the outer [f], which is never
    assigned.  [mem] tells whether [new] finds memory. *)
Definition fieldCreate (mem : bool) (sb : t) (i x0 y0 : Z) (ty : fieldType_t)
    (sz : Z) (lz : bool) : bool * t :=
  let f_outer : option nat := None in
  let sb' :=
    match findField sb i with
    | None =>
        let f_inner := if mem then Some (length (_fieldList sb)) else None in
        match f_inner with
        | Some _ =>
            mk true (mkField i ty x0 y0 0 lz sz :: _fieldList sb) (_clock sb)
        | None => sb
        end
    | Some _ => sb
    end in
  (bool_decide (f_outer ≠ None), sb').

(** The shape shared by the setters: look the field up, change it through
    the pointer, flag the change. *)
Definition with_field (sb : t) (i : Z) (g : field_t → field_t) : bool * t :=
  match findField sb i with
  | Some p =>
      match load (_fieldList sb) p with
      | Some fd => (true, mk true (store (_fieldList sb) p (g fd)) (_clock sb))
      | None => (true, mk true (_fieldList sb) (_clock sb))
      end
  | None => (false, sb)
  end.

Definition fieldSetLeadZero (sb : t) (i : Z) (state : bool) : bool * t :=
  with_field sb i
    (λ fd, mkField (id fd) (type fd) (x fd) (y fd) (value fd) state (size fd)).

Definition fieldSetSize (sb : t) (i : Z) (sz : Z) : bool * t :=
  with_field sb i
    (λ fd, mkField (id fd) (type fd) (x fd) (y fd) (value fd) (leadZero fd) sz).

Definition set_value (fd : field_t) (v : Z) : field_t :=
  mkField (id fd) (type fd) (x fd) (y fd) v (leadZero fd) (size fd).

(** [fieldValueAdd]: [delta] is an [int8_t]; [abs(delta) > f->value] and
    [f->value += delta] are computed in [uint32_t]. *)
Definition fieldValueAdd (sb : t) (i : Z) (delta : Z) : t :=
  snd (with_field sb i
         (λ fd, if (delta <? 0) && (Z.abs delta >? value fd)
                then set_value fd 0
                else set_value fd (u32 (value fd + delta)))).

Definition fieldSetValue (sb : t) (i : Z) (v : Z) : t :=
  snd (with_field sb i (λ fd, set_value fd v)).

Definition fieldGetValue (sb : t) (i : Z) : Z :=
  let v := 0 in
  match findField sb i with
  | Some p => match load (_fieldList sb) p with
              | Some fd => value fd
              | None => v
              end
  | None => v
  end.

(** [findClock]: the first slot in use whose field has the id, or -1. *)
Fixpoint findClock_from (l : list field_t) (cs : list clock_t) (idx : Z) (i : Z) : Z :=
  match cs with
  | [] => idx
  | c :: rest =>
      match f c with
      | Some p =>
          match load l p with
          | Some fd => if id fd =? i then idx
                       else findClock_from l rest (idx + 1) i
          | None => findClock_from l rest (idx + 1) i
          end
      | None => findClock_from l rest (idx + 1) i
      end
  end.

Definition findClock (sb : t) (i : Z) : Z :=
  let idx := findClock_from (_fieldList sb) (_clock sb) 0 i in
  if idx >=? MAX_CLOCKS then -1 else idx.

Definition with_clock (sb : t) (idx : Z) (g : clock_t → clock_t) : t :=
  mk (_changed sb) (_fieldList sb)
     (alter g (Z.to_nat idx) (_clock sb)).

Definition get_clock (sb : t) (idx : Z) : option clock_t :=
  _clock sb !! Z.to_nat idx.

(** [clockReset]: the value goes back to its start, the period starts
    afresh, and the clock stops unless [maintainRunMode]. *)
Definition clockReset (now : Z) (sb : t) (fieldId : Z) (maintainRunMode : bool) : t :=
  let idx := findClock sb fieldId in
  if idx =? -1 then sb
  else
    match get_clock sb idx with
    | None => sb
    | Some c =>
        let l := match f c with
                 | Some p =>
                     match load (_fieldList sb) p with
                     | Some fd =>
                         store (_fieldList sb) p
                           (set_value fd (if countUp c then 0 else timeLimit c))
                     | None => _fieldList sb
                     end
                 | None => _fieldList sb
                 end in
        let c' := if maintainRunMode
                  then mkClock (f c) (timeLimit c) now CLOCK_PERIOD (countUp c) (stopped c)
                  else mkClock (f c) (timeLimit c) (timeLast c) CLOCK_PERIOD (countUp c) true in
        mk true l (<[Z.to_nat idx := c']> (_clock sb))
    end.

(** The first empty slot, or [MAX_CLOCKS]. *)
Fixpoint empty_slot (cs : list clock_t) (idx : Z) : Z :=
  match cs with
  | [] => idx
  | c :: rest => match f c with
                 | None => idx
                 | Some _ => empty_slot rest (idx + 1)
                 end
  end.

Definition clockCreate (now : Z) (sb : t) (fieldId limit : Z) (up : bool) : bool * t :=
  let idx := empty_slot (_clock sb) 0 in
  if idx >=? MAX_CLOCKS then (false, sb)
  else
    match findField sb fieldId with
    | None => (false, sb)
    | Some p =>
        let sb1 := with_clock sb idx
                     (λ c, mkClock (Some p) limit (timeLast c) (timeToGo c) up true) in
        (true, clockReset now sb1 fieldId false)
    end.

Definition clockStart (now : Z) (sb : t) (fieldId : Z) : t :=
  let idx := findClock sb fieldId in
  if idx =? -1 then sb
  else with_clock sb idx
         (λ c, mkClock (f c) (timeLimit c) now (timeToGo c) (countUp c) false).

Definition clockStop (now : Z) (sb : t) (fieldId : Z) : t :=
  let idx := findClock sb fieldId in
  if idx =? -1 then sb
  else with_clock sb idx
         (λ c, mkClock (f c) (timeLimit c) (timeLast c)
                 (u32 (timeToGo c - u32 (now - timeLast c))) (countUp c) true).

Definition clockToggle (now : Z) (sb : t) (fieldId : Z) : t :=
  let idx := findClock sb fieldId in
  if idx =? -1 then sb
  else match get_clock sb idx with
       | Some c => if stopped c then clockStart now sb fieldId
                   else clockStop now sb fieldId
       | None => sb
       end.

Definition isClockStopped (sb : t) (fieldId : Z) : bool :=
  let idx := findClock sb fieldId in
  if idx =? -1 then false
  else match get_clock sb idx with
       | Some c => stopped c
       | None => false
       end.

(** One round of the loop of [processClocks], for slot [i]. *)
Definition processClock (now : Z) (sb : t) (i : nat) : t :=
  match _clock sb !! i with
  | Some c =>
      match f c with
      | Some p =>
          if negb (stopped c) && (u32 (now - timeLast c) >=? timeToGo c)
          then
            match load (_fieldList sb) p with
            | Some fd =>
                let v := u32 (value fd + (if countUp c then 1 else -1)) in
                let stop := (countUp c && (v =? timeLimit c))
                            || (negb (countUp c) && (v =? 0)) in
                let togo := u32 (CLOCK_PERIOD + u32 (u32 (timeLast c - now) + timeToGo c)) in
                mk true (store (_fieldList sb) p (set_value fd v))
                   (<[i := mkClock (f c) (timeLimit c) now togo (countUp c) stop]>
                      (_clock sb))
            | None => sb
            end
          else sb
      | None => sb
      end
  | None => sb
  end.

Definition processClocks (now : Z) (sb : t) : t :=
  foldl (processClock now) sb (seq 0 (Z.to_nat MAX_CLOCKS)).

(** *** Formatting

    A [char*] is modelled by the characters from the pointer to the end of
    the array it points into; a write outside the array is a fault. *)

Inductive run (A : Type) : Type :=
  | Returns (a : A)
  | Faults
  | OutOfFuel.
Arguments Returns {A} a.
Arguments Faults {A}.
Arguments OutOfFuel {A}.

Definition poke (sz : list Z) (i c : Z) : run (list Z) :=
  if (0 <=? i) && (i <? Z.of_nat (length sz))
  then Returns (<[Z.to_nat i := c]> sz) else Faults.

Definition memset (sz : list Z) (c n : Z) : run (list Z) :=
  if n <=? Z.of_nat (length sz)
  then Returns (replicate (Z.to_nat n) c ++ drop (Z.to_nat n) sz) else Faults.

Definition then_ {A B} (r : run A) (k : A → run B) : run B :=
  match r with
  | Returns a => k a
  | Faults => Faults
  | OutOfFuel => OutOfFuel
  end.

(** The [do ... while (n != 0 && idx >= 0)] loop of [formatNum]; [idx] is
    an [int8_t]. *)
Fixpoint formatNum_loop (fuel : nat) (sz : list Z) (idx n : Z) : run (list Z) :=
  match fuel with
  | O => OutOfFuel
  | S fuel' =>
      then_ (poke sz idx (n mod 10 + 48)) (λ sz,
        let idx := s8 (idx - 1) in
        let n := n / 10 in
        if negb (n =? 0) && (idx >=? 0)
        then formatNum_loop fuel' sz idx n
        else Returns sz)
  end.

Definition formatNum (fuel : nat) (sz : list Z) (n sz_size : Z) (lz : bool)
  : run (list Z) :=
  let idx := s8 (sz_size - 1) in
  then_ (memset sz (if lz then 48 else 32) sz_size) (λ sz,
  then_ (poke sz sz_size 0) (λ sz,
  formatNum_loop fuel sz idx n)).

(** [formatTime]: the second call works on [&sz[m+1]]. *)
Definition formatTime (fuel : nat) (sz : list Z) (n m : Z) (lz : bool)
  : run (list Z) :=
  then_ (formatNum fuel sz (n / 60) m lz) (λ sz,
  then_ (poke sz m 58) (λ sz,
  if m + 1 <=? Z.of_nat (length sz)
  then
    then_ (formatNum fuel (drop (Z.to_nat (m + 1)) sz) (n mod 60) 2 true) (λ tl,
    poke (take (Z.to_nat (m + 1)) sz ++ tl) (m + 3) 0)
  else Faults)).

End cScoreboard.

(** ** The scoreboard sketch: the keys

    [processUI] of the simple scoreboard reads the five switches in turn
    and acts on each that reports a key.  The switch library is not part of
    the repository: the states read from the switches are inputs of the
    model, and of its key states only those that the sketch tells apart are
    named; every other one is [KEY_OTHER]. *)

Module Scoreboard.

Definition CLK_CTL_PIN : Z := 2.
Definition SCORE1_ADD_PIN : Z := 5.
Definition SCORE1_DELRST_PIN : Z := 6.
Definition SCORE2_ADD_PIN : Z := 7.
Definition SCORE2_DELRST_PIN : Z := 8.

Definition SW_PIN : list Z :=
  [CLK_CTL_PIN; SCORE1_ADD_PIN; SCORE1_DELRST_PIN; SCORE2_ADD_PIN; SCORE2_DELRST_PIN].

Definition FLD_CLOCK : Z := 1.
Definition FLD_SCORE1 : Z := 2.
Definition FLD_SCORE2 : Z := 3.
Definition MAX_TIME : Z := 999 * 60 + 99.
Definition MAX_SCORE : Z := 999.

Inductive keyResult_t : Type := KEY_NULL | KEY_PRESS | KEY_LONGPRESS | KEY_OTHER.

(** [fieldValueAdd(fld, 1); if (fieldGetValue(fld) > MAX_SCORE)
    fieldSetValue(fld, 0);] *)
Definition score_up (sb : cScoreboard.t) (fld : Z) : cScoreboard.t :=
  let sb := cScoreboard.fieldValueAdd sb fld 1 in
  if cScoreboard.fieldGetValue sb fld >? MAX_SCORE
  then cScoreboard.fieldSetValue sb fld 0
  else sb.

(** The [switch (SW_PIN[i])] of [processUI]. *)
Definition switch_SW_PIN (now : Z) (pin : Z) (state : keyResult_t)
    (sb : cScoreboard.t) : cScoreboard.t :=
  if pin =? CLK_CTL_PIN then
    match state with
    | KEY_PRESS => cScoreboard.clockToggle now sb FLD_CLOCK
    | KEY_LONGPRESS => cScoreboard.clockReset now sb FLD_CLOCK false
    | _ => sb
    end
  else if pin =? SCORE1_ADD_PIN then
    match state with
    | KEY_PRESS => score_up sb FLD_SCORE1
    | _ => sb
    end
  else if pin =? SCORE1_DELRST_PIN then
    match state with
    | KEY_PRESS => cScoreboard.fieldValueAdd sb FLD_SCORE1 (-1)
    | KEY_LONGPRESS => cScoreboard.fieldSetValue sb FLD_SCORE1 0
    | _ => sb
    end
  else if pin =? SCORE2_ADD_PIN then
    match state with
    | KEY_PRESS => score_up sb FLD_SCORE2
    | _ => sb
    end
  else if pin =? SCORE2_DELRST_PIN then
    match state with
    | KEY_PRESS => cScoreboard.fieldValueAdd sb FLD_SCORE2 (-1)
    | KEY_LONGPRESS => cScoreboard.fieldSetValue sb FLD_SCORE2 0
    | _ => sb
    end
  else sb.

(** [processUI]: [reads] holds what [sw[i]->read()] returns for each
    switch, and [now] what [millis()] returns while the keys are acted
    on. *)
Definition processUI (now : Z) (reads : list keyResult_t) (sb : cScoreboard.t)
  : cScoreboard.t :=
  foldl (λ sb '(pin, state),
           match state with
           | KEY_NULL => sb
           | _ => switch_SW_PIN now pin state sb
           end)
        sb (zip SW_PIN reads).

End Scoreboard.

(** ** The basketball scoreboard sketch: the timeout bars

    [showTimeout] draws, for each team, one bar of three LEDs per timeout
    that can be taken, lit when the timeout has been taken.  The loops run
    over the two teams and the [MAX_TIMEOUT] bars. *)

Module Basketball.

Definition MAX_TIMEOUT : Z := 2.

(** A [for] loop over the values of [l]. *)
Fixpoint for_each (l : list Z) (body : Z → M unit) : M unit :=
  match l with
  | [] => ret tt
  | i :: rest => body i ;; for_each rest body
  end.

(** [showTimeout]: [curTimeout] is the global array of the two counts. *)
Definition showTimeout (fuel : nat) (curTimeout : list Z) : M unit :=
  let startX := [4; 20] in
  let len := 3 in
  for_each (seqZ 0 2) (λ t,
    for_each (seqZ 0 MAX_TIMEOUT) (λ i,
      drawHLine fuel 15
        (u16 (startX !!! Z.to_nat t + len * i + i))
        (u16 (startX !!! Z.to_nat t + len * (i + 1) + i - 1))
        (curTimeout !!! Z.to_nat t >=? i + 1) ;;
      ret tt)).

(** [case TOUT1_ADD_PIN] and [case TOUT2_ADD_PIN] of [processUI] on a key
    press, for team [t]: the count is a [uint8_t]. *)
Definition timeout_key (fuel : nat) (t : nat) (curTimeout : list Z) : M (list Z) :=
  let c := u8 (curTimeout !!! t + 1) in
  let c := if c >? MAX_TIMEOUT then 0 else c in
  let curTimeout := <[t := c]> curTimeout in
  showTimeout fuel curTimeout ;;
  ret curTimeout.

End Basketball.


(** * Vocabulary of the specification *)

(** ** Panels and coordinates *)

(** The invariant of the data model: both device counts are at least one
    (and, being [uint8_t], at most 255).  With no device in the width
    [X2Col] would divide by zero, so the properties of the routines that
    reach it are stated for panels that satisfy the invariant. *)
Definition panel_wf (p : MD_MAXPanel) : Prop :=
  1 ≤ _xDevices p ≤ 255 ∧ 1 ≤ _yDevices p ≤ 255.

(** The driver object drives at least the devices of the panel. *)
Definition chain_fits (p : MD_MAXPanel) : Prop :=
  _xDevices p * _yDevices p ≤ MD_MAX72XX.maxDevices (_D p).

(** The column index of every device of the panel fits [uint16_t]. *)
Definition columns_fit (p : MD_MAXPanel) : Prop :=
  8 * _xDevices p * _yDevices p ≤ 65536.

(** A coordinate accepted by the bounds check of [setPoint]/[getPoint]. *)
Definition in_range (p : MD_MAXPanel) (x y : Z) : Prop :=
  0 ≤ x ≤ getXMax p ∧ 0 ≤ y ≤ getYMax p.

Definition in_rangeb (p : MD_MAXPanel) (x y : Z) : bool :=
  (0 <=? x) && (x <=? getXMax p) && (0 <=? y) && (y <=? getYMax p).

(** The device address computed for a panel coordinate. *)
Definition address (p : MD_MAXPanel) (x y : Z) : Z * Z :=
  (u8 (Y2Row p x y), X2Col p x y).

(** Geometry (device counts, rotation, chain length) is never modified by
    drawing. *)
Definition same_geometry (p q : MD_MAXPanel) : Prop :=
  _xDevices q = _xDevices p ∧ _yDevices q = _yDevices p ∧
  _rotatedDisplay q = _rotatedDisplay p ∧
  MD_MAX72XX.maxDevices (_D q) = MD_MAX72XX.maxDevices (_D p).

(** Panels that show the same picture. *)
Definition same_display (p q : MD_MAXPanel) : Prop :=
  same_geometry p q ∧ MD_MAX72XX.lit (_D q) = MD_MAX72XX.lit (_D p).

(** ** [setPoint] as a function, and runs of it *)

(** What one [setPoint] does to the panel object, as a function. *)
Definition setPoint_result (p : MD_MAXPanel) (x y : Z) (state : bool) : bool :=
  if (x >? getXMax p) || (y >? getYMax p) then false
  else fst (MD_MAX72XX.setPoint (_D p) (u8 (Y2Row p x y)) (X2Col p x y) state).

Definition setPoint_panel (p : MD_MAXPanel) (x y : Z) (state : bool) : MD_MAXPanel :=
  if (x >? getXMax p) || (y >? getYMax p) then p
  else with_D p (snd (MD_MAX72XX.setPoint (_D p) (u8 (Y2Row p x y)) (X2Col p x y) state)).

(** The panel after [setPoint] was invoked on each point of [pts] in turn,
    and the conjunction [b &= ...] accumulated on the way. *)
Fixpoint run_points (pts : list (Z * Z)) (state b : bool) (p : MD_MAXPanel)
  : bool * MD_MAXPanel :=
  match pts with
  | [] => (b, p)
  | (x, y) :: rest =>
      run_points rest state (b && setPoint_result p x y state)
                 (setPoint_panel p x y state)
  end.

Definition calls_of (pts : list (Z * Z)) (state : bool) : list PointCall :=
  map (λ pt, mkCall pt.1 pt.2 state) pts.

(** The world after such a run: the invocations are recorded, most recent
    first. *)
Definition plotted (pts : list (Z * Z)) (state b : bool) (w : World) : bool * World :=
  ((run_points pts state b (panel w)).1,
   mkWorld (run_points pts state b (panel w)).2
           (rev (calls_of pts state) ++ calls w)).

(** The LED addressed by one [setPoint], if the invocation is accepted. *)
Definition hit (p : MD_MAXPanel) (pt : Z * Z) : gset (Z * Z) :=
  if negb ((pt.1 >? getXMax p) || (pt.2 >? getYMax p))
     && MD_MAX72XX.valid (_D p) (u8 (Y2Row p pt.1 pt.2)) (X2Col p pt.1 pt.2)
  then {[ address p pt.1 pt.2 ]} else ∅.

(** The panel with the LEDs of [S] switched to [state]. *)
Definition paint (p : MD_MAXPanel) (S : gset (Z * Z)) (state : bool) : MD_MAXPanel :=
  with_D p (MD_MAX72XX.mk (MD_MAX72XX.maxDevices (_D p))
              (if state then MD_MAX72XX.lit (_D p) ∪ S
               else MD_MAX72XX.lit (_D p) ∖ S)
              (MD_MAX72XX.updateOn (_D p))).

(** ** The update bracket around every drawing operation *)

Definition suspend (w : World) : World :=
  mkWorld (with_D (panel w) (MD_MAX72XX.control_UPDATE (_D (panel w)) false))
          (calls w).

Definition resume (w : World) : World :=
  let p := panel w in
  mkWorld (mkPanel (_xDevices p) (_yDevices p) (_rotatedDisplay p)
             (_updateEnabled p)
             (MD_MAX72XX.control_UPDATE (_D p) (_updateEnabled p)))
          (calls w).

(** ** The points of each shape *)

(** The points of the row [y] between columns [x1] and [x2], left to right. *)
Definition hline_points (y x1 x2 : Z) : list (Z * Z) :=
  map (λ i, (i, y)) (seqZ (Z.min x1 x2) (Z.max x1 x2 - Z.min x1 x2 + 1)).

(** The points of the column [x] between rows [y1] and [y2], bottom up. *)
Definition vline_points (x y1 y2 : Z) : list (Z * Z) :=
  map (λ i, (x, i)) (seqZ (Z.min y1 y2) (Z.max y1 y2 - Z.min y1 y2 + 1)).

(** The midpoint circle algorithm as the specification words it, over
    unbounded integers: the offsets [(x, y)] visited after the starting
    offset, for at most [n] steps. *)
Fixpoint midpoint_steps (n : nat) (x y pk : Z) : list (Z * Z) :=
  match n with
  | O => []
  | S n' =>
      if x <? y
      then if pk <=? 0
           then (x + 1, y) :: midpoint_steps n' (x + 1) y (pk + 4 * x + 6)
           else (x + 1, y - 1)
                  :: midpoint_steps n' (x + 1) (y - 1) (pk + 4 * (x - y) + 10)
      else []
  end.

(** All offsets for radius [r]: start at [x = 0], [y = r], [pk = 3 - 2r];
    [x] gains one per step, so [r] steps reach [x >= y]. *)
Definition midpoint_offsets (r : Z) : list (Z * Z) :=
  (0, r) :: midpoint_steps (Z.to_nat r) 0 r (3 - 2 * r).

(** The eight symmetric points of one offset: [(xc±x, yc±y)] and
    [(xc±y, yc±x)]. *)
Definition eight_points (xc yc : Z) (o : Z * Z) : list (Z * Z) :=
  let '(x, y) := o in
  [ (xc + x, yc + y); (xc - x, yc + y); (xc + x, yc - y); (xc - x, yc - y);
    (xc + y, yc + x); (xc - y, yc + x); (xc + y, yc - x); (xc - y, yc - x) ].

Definition midpoint_circle (xc yc r : Z) : list (Z * Z) :=
  flat_map (eight_points xc yc) (midpoint_offsets r).

(** A point as it reaches [setPoint]: both coordinates are [uint16_t]. *)
Definition as_u16 (pt : Z * Z) : Z * Z := (u16 pt.1, u16 pt.2).

(** Bresenham's walk over unbounded integers, told by the distance still to
    go: [rx] and [ry] count the columns and rows between the running point
    and the end point [(x2, y2)], [sy] is the row direction, and [err] is
    the running error term. *)
Fixpoint line_walk (n : nat) (x2 y2 dx dy sy rx ry err : Z) : list (Z * Z) :=
  match n with
  | O => []
  | S n' =>
      (x2 - rx, y2 - sy * ry) ::
      if (rx =? 0) && (ry =? 0) then []
      else
        let '(err1, rx') := if err >? - dx then (err - dy, rx - 1) else (err, rx) in
        let '(err2, ry') := if err <? dy then (err1 + dx, ry - 1) else (err1, ry) in
        line_walk n' x2 y2 dx dy sy rx' ry' err2
  end.

(** The initial error term: half of the larger delta, signed. *)
Definition line_err0 (dx dy : Z) : Z := Z.quot (if dx >? dy then dx else - dy) 2.

(** The points of [drawLine(x1, y1, x2, y2)]: the walk from the end point
    with the smaller column to the other one. *)
Definition line_points (x1 y1 x2 y2 : Z) : list (Z * Z) :=
  let '(x1, y1, x2, y2) :=
    if x1 >? x2 then (x2, y2, x1, y1) else (x1, y1, x2, y2) in
  let dx := x2 - x1 in
  let dy := Z.abs (y2 - y1) in
  let sy := if y1 <? y2 then 1 else -1 in
  line_walk (S (Z.to_nat (dx + dy))) x2 y2 dx dy sy dx dy (line_err0 dx dy).

(** ** Loop invariants *)

(** The loop state of [drawCircle] stays where [int] arithmetic is exact. *)
Definition circle_inv (r x y pk : Z) : Prop :=
  0 ≤ x ∧ 0 ≤ y ≤ r ∧ - (4 * r) ≤ pk ≤ 4 * r + 8 ∧ (x < y → pk ≤ 4 * r + 2).

(** The loop state of [drawLine]: the error term equals its closed form and
    stays inside a window one delta wide. *)
Definition line_inv (dx dy rx ry err : Z) : Prop :=
  0 ≤ rx ≤ dx ∧ 0 ≤ ry ≤ dy ∧
  err = line_err0 dx dy + rx * dy - ry * dx ∧
  (dy < dx → 0 ≤ err < dx) ∧
  (dx ≤ dy → 0 < dy → - dy < err ≤ 0).

(** ** Concrete panels *)

(** The 4x5-device panel of the scoreboard example, unrotated and blank:
    [getXMax() = 31], [getYMax() = 39]. *)
Definition panel_4x5 : MD_MAXPanel := mkPanel 4 5 false true (MD_MAX72XX.blank 20).
Definition world_4x5 : World := mkWorld panel_4x5 [].

(** The scoreboard panel as the example mounts it: rotated, so that
    [getXMax() = 39] and [getYMax() = 31]. *)
Definition panel_4x5_rotated : MD_MAXPanel :=
  mkPanel 4 5 true true (MD_MAX72XX.blank 20).

(** A one-device-wide, forty-device-high panel: [getYMax() = 319]. *)
Definition panel_1x40 : MD_MAXPanel := mkPanel 1 40 false true (MD_MAX72XX.blank 40).
Definition world_1x40 : World := mkWorld panel_1x40 [].

(** Every recorded invocation named an in-range point, which is lit. *)
Definition all_calls_lit (w : World) : bool :=
  forallb (λ c, in_rangeb (panel w) (call_x c) (call_y c)
                && getPoint (panel w) (call_x c) (call_y c)) (calls w).

(** ** Vocabulary of the further properties *)

(** The panel with the driver's redraw switch put back in step with the
    auto-update flag, as [update(_updateEnabled)] leaves it. *)
Definition settle (p : MD_MAXPanel) : MD_MAXPanel :=
  mkPanel (_xDevices p) (_yDevices p) (_rotatedDisplay p) (_updateEnabled p)
    (MD_MAX72XX.control_UPDATE (_D p) (_updateEnabled p)).

(** The outcome of a drawing operation that invokes [setPoint] on the
    points [pts]: the conjunction of the results, the LEDs of the accepted
    points switched to [state], the redraw switch settled, and the
    invocations recorded. *)
Definition shape_outcome (pts : list (Z * Z)) (state : bool) (w : World)
  : bool * World :=
  (forallb (λ pt, setPoint_result (panel w) pt.1 pt.2 state) pts,
   mkWorld (settle (paint (panel w) (⋃ (hit (panel w) <$> pts)) state))
           (rev (calls_of pts state) ++ calls w)).

(** An operation draws [pts] when that is its outcome in every world. *)
Definition draws (op : M bool) (pts : list (Z * Z)) (state : bool) : Prop :=
  ∀ w, op w = Some (shape_outcome pts state w).

(** The points of the shapes. *)
Definition rectangle_points (x1 y1 x2 y2 : Z) : list (Z * Z) :=
  hline_points y1 x1 x2 ++ hline_points y2 x1 x2
  ++ vline_points x1 y1 y2 ++ vline_points x2 y1 y2.

Definition triangle_points (x1 y1 x2 y2 x3 y3 : Z) : list (Z * Z) :=
  line_points x1 y1 x2 y2 ++ line_points x2 y2 x3 y3 ++ line_points x3 y3 x1 y1.

Definition quadrilateral_points (x1 y1 x2 y2 x3 y3 x4 y4 : Z) : list (Z * Z) :=
  line_points x1 y1 x2 y2 ++ line_points x2 y2 x3 y3
  ++ line_points x3 y3 x4 y4 ++ line_points x4 y4 x1 y1.

(** The points [clear(x1, y1, x2, y2)] switches off: the columns from [x1]
    up to [x2], none when [x1 > x2]. *)
Definition clear_points (x1 y1 x2 y2 : Z) : list (Z * Z) :=
  flat_map (λ i, vline_points i y1 y2) (seqZ x1 (x2 - x1 + 1)).

(** The panel [p] with the rotation flag set to [rot]. *)
Definition mounted (p : MD_MAXPanel) (rot : bool) : MD_MAXPanel :=
  mkPanel (_xDevices p) (_yDevices p) rot (_updateEnabled p) (_D p).

(** An offset within half a pixel row of the circle of radius [r]. *)
Definition near_circle (r : Z) (o : Z * Z) : Prop :=
  0 ≤ o.1 ∧ 0 ≤ o.2 ≤ r ∧ Z.abs (o.1 * o.1 + o.2 * o.2 - r * r) ≤ o.2.

(** The decision parameter is twice the circle equation at the running
    offset, shifted; the choice it makes keeps the equation within [y]. *)
Definition midpoint_inv (r x y pk : Z) : Prop :=
  0 ≤ x ∧ 0 ≤ y ≤ r ∧
  pk = 2 * (x * x + y * y - r * r) + 4 * x - 2 * y + 3 ∧
  - y ≤ x * x + y * y - r * r ≤ y ∧
  (x < y → x * x + y * y - r * r = y → x + 2 ≤ y).

(** What the timeout bars show at column [x] of their row: [Some lit] on
    a bar, [None] off the bars. *)
Definition timeout_bar (c0 c1 : Z) (x : Z) : option bool :=
  if bool_decide (4 ≤ x ≤ 6) then Some (c0 >=? 1)
  else if bool_decide (8 ≤ x ≤ 10) then Some (c0 >=? 2)
  else if bool_decide (20 ≤ x ≤ 22) then Some (c1 >=? 1)
  else if bool_decide (24 ≤ x ≤ 26) then Some (c1 >=? 2)
  else None.

(** The first field of the list with the id [i], as a value. *)
Fixpoint first_with (l : list cScoreboard.field_t) (i : Z)
  : option cScoreboard.field_t :=
  match l with
  | [] => None
  | fd :: rest => if cScoreboard.id fd =? i then Some fd else first_with rest i
  end.

(** The list with [g] applied to its first field with the id [i]. *)
Fixpoint change_first (l : list cScoreboard.field_t) (i : Z)
    (g : cScoreboard.field_t → cScoreboard.field_t) : list cScoreboard.field_t :=
  match l with
  | [] => []
  | fd :: rest =>
      if cScoreboard.id fd =? i then g fd :: rest
      else fd :: change_first rest i g
  end.

(** The ids of the fields, head first. *)
Definition field_ids (sb : cScoreboard.t) : list Z :=
  map cScoreboard.id (cScoreboard._fieldList sb).

(** Every field value is a [uint32_t]. *)
Definition values_u32 (sb : cScoreboard.t) : Prop :=
  Forall (λ fd, 0 ≤ cScoreboard.value fd < 2 ^ 32) (cScoreboard._fieldList sb).

(** A slot that [processClocks] passes over: not in use, or stopped. *)
Definition idle (c : cScoreboard.clock_t) : Prop :=
  cScoreboard.f c = None ∨ cScoreboard.stopped c = true.

(** The last [k] decimal digits of [n] as characters, most significant
    first. *)
Fixpoint decimal (k : nat) (n : Z) : list Z :=
  match k with
  | O => []
  | S k' => decimal k' (n / 10) ++ [n mod 10 + 48]
  end.

(** [k] is the number of decimal digits of [n] that a field of [width]
    characters shows: all of them, or as many as fit. *)
Definition digits_shown (k : nat) (n width : Z) : Prop :=
  1 ≤ Z.of_nat k ≤ width ∧
  (k = 1%nat ∨ 10 ^ (Z.of_nat k - 1) ≤ n) ∧
  (Z.of_nat k = width ∨ n < 10 ^ Z.of_nat k).

(** A score between 0 and 999. *)
Definition score_ok (sb : cScoreboard.t) (fld : Z) : Prop :=
  0 ≤ cScoreboard.fieldGetValue sb fld ≤ Scoreboard.MAX_SCORE.

(** The scoreboard object of the simple scoreboard after the three
    [fieldCreate] calls of its [setup]. *)
Definition board_of_the_sketch : cScoreboard.t :=
  let sb := cScoreboard.new (cScoreboard.mkClock None 0 0 0 false false) in
  let sb := (cScoreboard.fieldCreate true sb Scoreboard.FLD_CLOCK 1 28
               cScoreboard.MMMSS 6 false).2 in
  let sb := (cScoreboard.fieldCreate true sb Scoreboard.FLD_SCORE1 4 11
               cScoreboard.NUMBER 2 true).2 in
  (cScoreboard.fieldCreate true sb Scoreboard.FLD_SCORE2 25 11
     cScoreboard.NUMBER 2 true).2.

(** The same object once [setup] has created the clock, and the clock key
    has been pressed at time 0. *)
Definition board_running : cScoreboard.t :=
  cScoreboard.clockToggle 0
    (cScoreboard.clockCreate 0 board_of_the_sketch Scoreboard.FLD_CLOCK
       Scoreboard.MAX_TIME true).2
    Scoreboard.FLD_CLOCK.

(** * Properties *)

(** ** Fixed-width conversions *)

Lemma u16_id z : is_u16 z → u16 z = z.
Proof. unfold is_u16, u16, uwrap. intros H. apply Z.mod_small. lia. Qed.

Lemma u8_id z : is_u8 z → u8 z = z.
Proof. unfold is_u8, u8, uwrap. intros H. apply Z.mod_small. lia. Qed.

Lemma s16_id z : is_s16 z → s16 z = z.
Proof.
  unfold is_s16, s16, swrap. intros H.
  change (2 ^ (16 - 1)) with 32768. change (2 ^ 16) with 65536.
  rewrite Z.mod_small; lia.
Qed.

Lemma u16_range z : is_u16 (u16 z).
Proof.
  unfold is_u16, u16, uwrap. change (2 ^ 16) with 65536.
  pose proof (Z.mod_pos_bound z 65536). lia.
Qed.

Lemma u8_range z : is_u8 (u8 z).
Proof.
  unfold is_u8, u8, uwrap. change (2 ^ 8) with 256.
  pose proof (Z.mod_pos_bound z 256). lia.
Qed.

Lemma u16_le z : 0 ≤ z → u16 z ≤ z.
Proof. intros H. unfold u16, uwrap. apply Z.mod_le; lia. Qed.

Lemma s16_s16_add a b : s16 (s16 a + b) = s16 (a + b).
Proof.
  unfold s16, swrap. change (2 ^ (16 - 1)) with 32768. change (2 ^ 16) with 65536.
  f_equal.
  replace ((a + 32768) mod 65536 - 32768 + b + 32768)
    with ((a + 32768) mod 65536 + b) by lia.
  replace (a + b + 32768) with ((a + 32768) + b) by lia.
  by rewrite Zplus_mod_idemp_l.
Qed.

Lemma cint_id INT_BITS z :
  1 ≤ INT_BITS → - 2 ^ (INT_BITS - 1) ≤ z < 2 ^ (INT_BITS - 1) →
  cint INT_BITS z = z.
Proof.
  intros Hw Hz. unfold cint, swrap.
  replace (2 ^ INT_BITS) with (2 * 2 ^ (INT_BITS - 1)).
  - rewrite Z.mod_small; lia.
  - rewrite <- Z.pow_succ_r by lia. f_equal. lia.
Qed.

(** ** Sequencing in [M] *)

(** A computation that returns hands its result and world to its
    continuation; one that runs out of budget stops the whole sequence. *)
Lemma M_bind_Some {A B} (m : M A) (k : A → M B) w a w' :
  m w = Some (a, w') → (m ≫= k) w = k a w'.
Proof. intros H. unfold mbind, M_bind, bind. by rewrite H. Qed.

Lemma M_bind_None {A B} (m : M A) (k : A → M B) w :
  m w = None → (m ≫= k) w = None.
Proof. intros H. unfold mbind, M_bind, bind. by rewrite H. Qed.

Lemma D_control_UPDATE_run on w :
  D_control_UPDATE on w
  = Some (tt, mkWorld (with_D (panel w) (MD_MAX72XX.control_UPDATE (_D (panel w)) on))
                      (calls w)).
Proof. reflexivity. Qed.

Lemma bracket_run (body : M bool) w b w1 :
  body (suspend w) = Some (b, w1) →
  (D_control_UPDATE false ;;
   b ← body; p ← get_panel; update (_updateEnabled p) ;; ret b) w
  = Some (b, resume w1).
Proof.
  intros Hbody.
  rewrite (M_bind_Some _ _ w tt (suspend w)) by reflexivity.
  rewrite (M_bind_Some _ _ _ b w1) by assumption.
  reflexivity.
Qed.

Lemma bracket_None (body : M bool) w :
  body (suspend w) = None →
  (D_control_UPDATE false ;;
   b ← body; p ← get_panel; update (_updateEnabled p) ;; ret b) w
  = None.
Proof.
  intros Hbody.
  rewrite (M_bind_Some _ _ w tt (suspend w)) by reflexivity.
  by apply M_bind_None.
Qed.

(** ** Panel geometry *)

Lemma in_rangeb_spec p x y : in_rangeb p x y = true ↔ in_range p x y.
Proof. unfold in_rangeb, in_range. rewrite !andb_true_iff, !Z.leb_le. tauto. Qed.

Lemma getXMax_wf p :
  panel_wf p →
  getXMax p = (if _rotatedDisplay p then _yDevices p else _xDevices p) * 8 - 1.
Proof.
  intros [Hx Hy]. unfold getXMax, ROW_SIZE, COL_SIZE.
  destruct (_rotatedDisplay p); apply u16_id; unfold is_u16; lia.
Qed.

Lemma getYMax_wf p :
  panel_wf p →
  getYMax p = (if _rotatedDisplay p then _xDevices p else _yDevices p) * 8 - 1.
Proof.
  intros [Hx Hy]. unfold getYMax, ROW_SIZE, COL_SIZE.
  destruct (_rotatedDisplay p); apply u16_id; unfold is_u16; lia.
Qed.

(** Claim C5.  On a panel with at least one device in each direction,
    [getXMax()] is [xDevices*8 - 1] and [getYMax()] is [yDevices*8 - 1] when
    the rotation flag is clear, and the two values are swapped when it is
    set. *)
Theorem getXMax_getYMax_by_rotation (p : MD_MAXPanel) :
  panel_wf p →
  (_rotatedDisplay p = false →
     getXMax p = _xDevices p * 8 - 1 ∧ getYMax p = _yDevices p * 8 - 1) ∧
  (_rotatedDisplay p = true →
     getXMax p = _yDevices p * 8 - 1 ∧ getYMax p = _xDevices p * 8 - 1).
Proof.
  intros Hwf. pose proof (getXMax_wf p Hwf) as HX. pose proof (getYMax_wf p Hwf) as HY.
  split; intros Hr; rewrite Hr in HX, HY; auto.
Qed.

Lemma same_geometry_refl p : same_geometry p p.
Proof. repeat split. Qed.

Lemma same_geometry_trans p q r :
  same_geometry p q → same_geometry q r → same_geometry p r.
Proof. unfold same_geometry. intuition congruence. Qed.

Lemma same_geometry_XMax p q : same_geometry p q → getXMax q = getXMax p.
Proof. intros (Hx & Hy & Hr & _). unfold getXMax. by rewrite Hx, Hy, Hr. Qed.

Lemma same_geometry_YMax p q : same_geometry p q → getYMax q = getYMax p.
Proof. intros (Hx & Hy & Hr & _). unfold getYMax. by rewrite Hx, Hy, Hr. Qed.

Lemma same_geometry_Y2Row p q x y : same_geometry p q → Y2Row q x y = Y2Row p x y.
Proof.
  intros Hg. pose proof (same_geometry_XMax p q Hg) as HX.
  destruct Hg as (Hx & Hy & Hr & _). unfold Y2Row. by rewrite HX, Hr.
Qed.

Lemma same_geometry_X2Col p q x y : same_geometry p q → X2Col q x y = X2Col p x y.
Proof.
  intros Hg. pose proof (same_geometry_XMax p q Hg) as HX.
  destruct Hg as (Hx & Hy & Hr & _). unfold X2Col. by rewrite HX, Hr, Hx.
Qed.

Lemma same_geometry_address p q x y : same_geometry p q → address q x y = address p x y.
Proof.
  intros Hg. unfold address.
  by rewrite (same_geometry_Y2Row p q), (same_geometry_X2Col p q).
Qed.

Lemma same_geometry_wf p q : same_geometry p q → panel_wf p → panel_wf q.
Proof. intros (Hx & Hy & _). unfold panel_wf. by rewrite Hx, Hy. Qed.

Lemma same_geometry_fits p q : same_geometry p q → chain_fits p → chain_fits q.
Proof. intros (Hx & Hy & _ & Hm). unfold chain_fits. by rewrite Hx, Hy, Hm. Qed.

Lemma same_geometry_in_range p q x y :
  same_geometry p q → in_range p x y → in_range q x y.
Proof.
  intros Hg. unfold in_range.
  by rewrite (same_geometry_XMax p q Hg), (same_geometry_YMax p q Hg).
Qed.

Create HintDb geometry.
#[local] Hint Resolve same_geometry_wf same_geometry_fits same_geometry_in_range
  : geometry.

Lemma same_display_getPoint p q x y :
  same_display p q → getPoint q x y = getPoint p x y.
Proof.
  intros [Hg Hl]. unfold getPoint, MD_MAX72XX.getPoint, MD_MAX72XX.valid.
  rewrite (same_geometry_XMax p q Hg), (same_geometry_YMax p q Hg),
    (same_geometry_Y2Row p q x y Hg), (same_geometry_X2Col p q x y Hg), Hl.
  by destruct Hg as (_ & _ & _ & ->).
Qed.

Lemma suspend_display w : same_display (panel w) (panel (suspend w)).
Proof. repeat split. Qed.

Lemma resume_display w : same_display (panel w) (panel (resume w)).
Proof. repeat split. Qed.

(** ** Address translation *)

Lemma Y2Row_bounds p x y :
  panel_wf p → in_range p x y → 0 ≤ Y2Row p x y ≤ 7.
Proof.
  intros Hwf [Hx Hy]. unfold Y2Row, ROW_SIZE.
  destruct (_rotatedDisplay p).
  - set (x' := u16 (getXMax p - x)).
    pose proof (Z.mod_pos_bound x' 8 ltac:(lia)).
    rewrite u16_id; unfold is_u16; lia.
  - pose proof (Z.mod_pos_bound y 8 ltac:(lia)).
    rewrite u16_id; unfold is_u16; lia.
Qed.

Lemma fold_col_bounds a b W H :
  0 < W → 0 < H → 0 ≤ a ≤ 8 * H - 1 → 0 ≤ b →
  0 ≤ a / 8 * W + W - 1 - b mod W ≤ W * H - 1.
Proof.
  intros HW HH Ha Hb.
  pose proof (Z.mod_pos_bound b W HW).
  assert (0 ≤ a / 8 ≤ H - 1).
  { split; [apply Z.div_pos; lia|].
    enough (a / 8 < H) by lia. apply Z.div_lt_upper_bound; lia. }
  nia.
Qed.

Lemma X2Col_bounds p x y :
  panel_wf p → in_range p x y →
  0 ≤ X2Col p x y ≤ 8 * _xDevices p * _yDevices p - 1.
Proof.
  intros Hwf [Hx Hy]. pose proof Hwf as [HxD HyD].
  rewrite (getXMax_wf p Hwf) in Hx. rewrite (getYMax_wf p Hwf) in Hy.
  unfold X2Col, ROW_SIZE, COL_SIZE. rewrite (getXMax_wf p Hwf).
  destruct (_rotatedDisplay p); cbv iota in Hx, Hy |- *.
  - rewrite (u16_id (_ - x)) by (unfold is_u16; lia).
    set (W := _xDevices p * 8). set (m := _yDevices p * 8 - 1 - x).
    pose proof (fold_col_bounds m y W (_yDevices p)
                  ltac:(lia) ltac:(lia) ltac:(lia) ltac:(lia)) as Hb.
    pose proof (u16_range (m / 8 * W + W - 1 - y mod W)) as Hr.
    pose proof (u16_le _ (proj1 Hb)). unfold is_u16 in Hr. lia.
  - set (W := _xDevices p * 8).
    pose proof (fold_col_bounds y x W (_yDevices p)
                  ltac:(lia) ltac:(lia) ltac:(lia) ltac:(lia)) as Hb.
    pose proof (u16_range (y / 8 * W + W - 1 - x mod W)) as Hr.
    pose proof (u16_le _ (proj1 Hb)). unfold is_u16 in Hr. lia.
Qed.

Lemma address_valid p x y :
  panel_wf p → chain_fits p → in_range p x y →
  MD_MAX72XX.valid (_D p) (u8 (Y2Row p x y)) (X2Col p x y) = true.
Proof.
  intros Hwf Hfit Hin.
  pose proof (Y2Row_bounds p x y Hwf Hin) as Hr.
  pose proof (X2Col_bounds p x y Hwf Hin) as Hc.
  unfold MD_MAX72XX.valid, ROW_SIZE, COL_SIZE, chain_fits in *.
  rewrite u8_id by (unfold is_u8; lia).
  rewrite !andb_true_iff, !Z.leb_le, !Z.ltb_lt.
  repeat split; try lia.
  apply Z.div_lt_upper_bound; lia.
Qed.

(** Claim C10.  For an in-range coordinate and either value of the
    rotation flag, [Y2Row] lies in [0, 7] and [X2Col] lies in
    [0, 8*xDevices*yDevices - 1]; hence the address handed to a driver of
    that many devices is one it accepts. *)
Theorem translated_address_in_bounds (p : MD_MAXPanel) (x y : Z) :
  panel_wf p → in_range p x y →
  0 ≤ Y2Row p x y ≤ 7 ∧
  0 ≤ X2Col p x y ≤ 8 * _xDevices p * _yDevices p - 1 ∧
  (chain_fits p →
   MD_MAX72XX.valid (_D p) (u8 (Y2Row p x y)) (X2Col p x y) = true).
Proof.
  intros Hwf Hin. split; [by apply Y2Row_bounds|].
  split; [by apply X2Col_bounds|].
  intros Hfit. apply address_valid; assumption.
Qed.

Lemma fold_unique W a b a' b' :
  0 ≤ b < W → 0 ≤ b' < W →
  a * W + W - 1 - b = a' * W + W - 1 - b' → a = a' ∧ b = b'.
Proof.
  intros Hb Hb' Heq.
  assert (a = a') as ->.
  { destruct (Z.lt_trichotomy a a') as [Hlt|[Heq'|Hgt]]; [|done|].
    - assert ((a + 1) * W ≤ a' * W) by (apply Z.mul_le_mono_nonneg_r; lia). lia.
    - assert ((a' + 1) * W ≤ a * W) by (apply Z.mul_le_mono_nonneg_r; lia). lia. }
  lia.
Qed.

Lemma div_mod_unique_8 a a' :
  a / 8 = a' / 8 → a mod 8 = a' mod 8 → a = a'.
Proof.
  intros Hd Hm.
  pose proof (Z.div_mod a 8 ltac:(lia)). pose proof (Z.div_mod a' 8 ltac:(lia)).
  lia.
Qed.

Lemma address_inj p x y x' y' :
  panel_wf p → columns_fit p → in_range p x y → in_range p x' y' →
  address p x y = address p x' y' → x = x' ∧ y = y'.
Proof.
  intros Hwf Hcol Hin Hin' Heq.
  pose proof (Y2Row_bounds p x y Hwf Hin) as Hr.
  pose proof (Y2Row_bounds p x' y' Hwf Hin') as Hr'.
  pose proof (X2Col_bounds p x y Hwf Hin) as Hc.
  pose proof (X2Col_bounds p x' y' Hwf Hin') as Hc'.
  unfold address in Heq. inversion Heq as [[Hrow Hcol']]. clear Heq.
  rewrite !u8_id in Hrow by (unfold is_u8; lia).
  clear Hr Hr' Hc Hc'.
  destruct Hin as [Hx Hy], Hin' as [Hx' Hy']. pose proof Hwf as [HxD HyD].
  rewrite (getXMax_wf p Hwf) in Hx, Hx'. rewrite (getYMax_wf p Hwf) in Hy, Hy'.
  unfold columns_fit in Hcol.
  unfold Y2Row, X2Col, ROW_SIZE, COL_SIZE in *. rewrite (getXMax_wf p Hwf) in *.
  destruct (_rotatedDisplay p); cbv iota in *.
  - rewrite !(u16_id (_ - x)), !(u16_id (_ - x')) in * by (unfold is_u16; lia).
    set (m := _yDevices p * 8 - 1 - x) in *.
    set (m' := _yDevices p * 8 - 1 - x') in *.
    pose proof (Z.mod_pos_bound m 8 ltac:(lia)).
    pose proof (Z.mod_pos_bound m' 8 ltac:(lia)).
    rewrite !u16_id in Hrow by (unfold is_u16; lia).
    rewrite !(Z.mod_small y), !(Z.mod_small y') in Hcol' by lia.
    pose proof (fold_col_bounds m y (_xDevices p * 8) (_yDevices p)
                  ltac:(lia) ltac:(lia) ltac:(lia) ltac:(lia)) as Hb.
    pose proof (fold_col_bounds m' y' (_xDevices p * 8) (_yDevices p)
                  ltac:(lia) ltac:(lia) ltac:(lia) ltac:(lia)) as Hb'.
    rewrite (Z.mod_small y) in Hb by lia.
    rewrite (Z.mod_small y') in Hb' by lia.
    rewrite !u16_id in Hcol' by (unfold is_u16; lia).
    apply fold_unique in Hcol' as [Hd ->]; [|lia|lia].
    assert (m = m') by (apply div_mod_unique_8; lia).
    subst m m'. lia.
  - pose proof (Z.mod_pos_bound y 8 ltac:(lia)).
    pose proof (Z.mod_pos_bound y' 8 ltac:(lia)).
    rewrite !u16_id in Hrow by (unfold is_u16; lia).
    pose proof (fold_col_bounds y x (_xDevices p * 8) (_yDevices p)
                  ltac:(lia) ltac:(lia) ltac:(lia) ltac:(lia)) as Hb.
    pose proof (fold_col_bounds y' x' (_xDevices p * 8) (_yDevices p)
                  ltac:(lia) ltac:(lia) ltac:(lia) ltac:(lia)) as Hb'.
    rewrite (Z.mod_small x) in Hb by lia.
    rewrite (Z.mod_small x') in Hb' by lia.
    rewrite !(Z.mod_small x), !(Z.mod_small x') in Hcol' by lia.
    rewrite !u16_id in Hcol' by (unfold is_u16; lia).
    apply fold_unique in Hcol' as [Hd ->]; [|lia|lia].
    split; [done|]. apply div_mod_unique_8; lia.
Qed.

(** ** Point access *)

Lemma setPoint_run x y state w :
  setPoint x y state w =
  Some (setPoint_result (panel w) x y state,
        mkWorld (setPoint_panel (panel w) x y state) (mkCall x y state :: calls w)).
Proof.
  unfold setPoint, setPoint_result, setPoint_panel.
  unfold mbind, M_bind, bind, record_call, get_panel; cbn.
  destruct ((x >? getXMax (panel w)) || (y >? getYMax (panel w))); [reflexivity|].
  destruct (MD_MAX72XX.setPoint _ _ _ _); reflexivity.
Qed.

Lemma out_of_range_test p x y :
  x > getXMax p ∨ y > getYMax p →
  (x >? getXMax p) || (y >? getYMax p) = true.
Proof. intros [H|H]; apply orb_true_iff; [left|right]; apply Z.gtb_lt; lia. Qed.

Lemma in_range_test p x y :
  in_range p x y → (x >? getXMax p) || (y >? getYMax p) = false.
Proof.
  intros [Hx Hy]. apply orb_false_iff.
  split; apply not_true_is_false; rewrite Z.gtb_lt; lia.
Qed.

(** Claim C3.  When [x > getXMax()] or [y > getYMax()], [setPoint] returns
    [false] and [getPoint] returns [false]; the panel object, driver
    included, is the same after the call as before it (only the invocation
    is recorded). *)
Theorem out_of_range_point_access (p : MD_MAXPanel) (cs : list PointCall)
    (x y : Z) (state : bool) :
  x > getXMax p ∨ y > getYMax p →
  setPoint x y state (mkWorld p cs)
    = Some (false, mkWorld p (mkCall x y state :: cs)) ∧
  getPoint p x y = false.
Proof.
  intros Hout. apply out_of_range_test in Hout.
  rewrite setPoint_run. unfold setPoint_result, setPoint_panel, getPoint; cbn.
  rewrite Hout. auto.
Qed.

Lemma setPoint_in_range p x y state :
  panel_wf p → chain_fits p → in_range p x y →
  setPoint_result p x y state = true ∧
  setPoint_panel p x y state =
    with_D p (MD_MAX72XX.mk (MD_MAX72XX.maxDevices (_D p))
                (if state then MD_MAX72XX.lit (_D p) ∪ {[ address p x y ]}
                 else MD_MAX72XX.lit (_D p) ∖ {[ address p x y ]})
                (MD_MAX72XX.updateOn (_D p))).
Proof.
  intros Hwf Hfit Hin.
  unfold setPoint_result, setPoint_panel, MD_MAX72XX.setPoint.
  rewrite (in_range_test p x y Hin), (address_valid p x y Hwf Hfit Hin).
  auto.
Qed.

Lemma setPoint_panel_geometry p x y state :
  same_geometry p (setPoint_panel p x y state).
Proof.
  unfold setPoint_panel, MD_MAX72XX.setPoint.
  destruct (_ || _); [apply same_geometry_refl|].
  destruct (MD_MAX72XX.valid _ _ _); repeat split.
Qed.

Lemma same_geometry_setPoint_result p q x y state :
  same_geometry p q → setPoint_result q x y state = setPoint_result p x y state.
Proof.
  intros Hg. unfold setPoint_result, MD_MAX72XX.setPoint, MD_MAX72XX.valid.
  rewrite (same_geometry_XMax p q Hg), (same_geometry_YMax p q Hg),
    (same_geometry_Y2Row p q x y Hg), (same_geometry_X2Col p q x y Hg).
  destruct Hg as (_ & _ & _ & ->).
  destruct (_ || _); [reflexivity|]. by destruct (_ && _).
Qed.

(** On a well-formed panel [setPoint] succeeds exactly on the coordinates
    that pass its bounds check. *)
Lemma setPoint_result_in_range p x y state :
  panel_wf p → chain_fits p → 0 ≤ x → 0 ≤ y →
  setPoint_result p x y state = in_rangeb p x y.
Proof.
  intros Hwf Hfit Hx Hy.
  destruct (in_rangeb p x y) eqn:Hb.
  - apply in_rangeb_spec in Hb. by apply setPoint_in_range.
  - unfold setPoint_result. rewrite out_of_range_test; [done|].
    destruct (decide (x > getXMax p)) as [?|Hnx]; [by left|].
    destruct (decide (y > getYMax p)) as [?|Hny]; [by right|].
    exfalso. apply not_true_iff_false in Hb. apply Hb.
    apply in_rangeb_spec. unfold in_range. lia.
Qed.

(** Reading a point back, in terms of the LED set of the driver. *)
Lemma getPoint_in_range p x y :
  panel_wf p → chain_fits p → in_range p x y →
  getPoint p x y = bool_decide (address p x y ∈ MD_MAX72XX.lit (_D p)).
Proof.
  intros Hwf Hfit Hin. unfold getPoint, MD_MAX72XX.getPoint.
  by rewrite (in_range_test p x y Hin), (address_valid p x y Hwf Hfit Hin).
Qed.

Lemma getPoint_after_setPoint p x y state :
  panel_wf p → chain_fits p → in_range p x y →
  getPoint (setPoint_panel p x y state) x y = state.
Proof.
  intros Hwf Hfit Hin.
  pose proof (setPoint_panel_geometry p x y state) as Hg.
  rewrite getPoint_in_range; eauto with geometry.
  rewrite (same_geometry_address p _ x y Hg).
  destruct (setPoint_in_range p x y state Hwf Hfit Hin) as [_ ->]. cbn.
  destruct state.
  - apply bool_decide_eq_true. set_solver.
  - apply bool_decide_eq_false.
    intros [_ Hn]%elem_of_difference. apply Hn. by apply elem_of_singleton.
Qed.

(** Claim C4.  For an in-range point, [setPoint(x, y, true)] followed by
    [getPoint(x, y)] gives [true], and a following [setPoint(x, y, false)]
    and [getPoint(x, y)] gives [false]. *)
Theorem setPoint_getPoint_roundtrip (p : MD_MAXPanel) (cs : list PointCall) (x y : Z) :
  panel_wf p → chain_fits p → in_range p x y →
  ∃ w1 w2,
    setPoint x y true (mkWorld p cs) = Some (true, w1) ∧
    getPoint (panel w1) x y = true ∧
    setPoint x y false w1 = Some (true, w2) ∧
    getPoint (panel w2) x y = false.
Proof.
  intros Hwf Hfit Hin.
  set (p1 := setPoint_panel p x y true).
  assert (Hg : same_geometry p p1) by apply setPoint_panel_geometry.
  exists (mkWorld p1 (mkCall x y true :: cs)),
         (mkWorld (setPoint_panel p1 x y false)
                  (mkCall x y false :: mkCall x y true :: cs)).
  rewrite !setPoint_run; cbn. fold p1.
  destruct (setPoint_in_range p x y true Hwf Hfit Hin) as [-> _].
  destruct (setPoint_in_range p1 x y false) as [-> _]; eauto with geometry.
  repeat split.
  - by apply getPoint_after_setPoint.
  - apply getPoint_after_setPoint; eauto with geometry.
Qed.

Lemma setPoint_panel_lit p x y state :
  ∃ S : gset (Z * Z),
    MD_MAX72XX.lit (_D (setPoint_panel p x y state)) =
    if state then MD_MAX72XX.lit (_D p) ∪ S else MD_MAX72XX.lit (_D p) ∖ S.
Proof.
  unfold setPoint_panel, MD_MAX72XX.setPoint.
  destruct (_ || _); [|destruct (MD_MAX72XX.valid _ _ _)]; cbn.
  - exists ∅. destruct state; set_solver.
  - by exists {[ (u8 (Y2Row p x y), X2Col p x y) ]}.
  - exists ∅. destruct state; set_solver.
Qed.

(** One [setPoint] changes the point it names and no other. *)
Lemma getPoint_setPoint_panel p x y x' y' state :
  panel_wf p → chain_fits p → columns_fit p →
  in_range p x y → 0 ≤ x' → 0 ≤ y' →
  getPoint (setPoint_panel p x' y' state) x y
  = if decide ((x', y') = (x, y)) then state else getPoint p x y.
Proof.
  intros Hwf Hfit Hcol Hin Hx' Hy'.
  destruct (decide ((x', y') = (x, y))) as [Heq|Hne].
  { inversion Heq; subst. by apply getPoint_after_setPoint. }
  destruct (in_rangeb p x' y') eqn:Hb.
  - apply in_rangeb_spec in Hb.
    pose proof (setPoint_panel_geometry p x' y' state) as Hg.
    rewrite getPoint_in_range; eauto with geometry.
    rewrite (same_geometry_address p _ x y Hg), (getPoint_in_range p x y) by done.
    destruct (setPoint_in_range p x' y' state Hwf Hfit Hb) as [_ ->]. cbn.
    assert (address p x' y' ≠ address p x y) as Hna.
    { intros Ha. apply Hne. apply address_inj in Ha as [-> ->]; done. }
    apply bool_decide_ext. destruct state; set_solver.
  - unfold setPoint_panel. rewrite out_of_range_test; [done|].
    destruct (decide (x' > getXMax p)) as [?|Hnx]; [by left|].
    destruct (decide (y' > getYMax p)) as [?|Hny]; [by right|].
    exfalso. apply not_true_iff_false in Hb. apply Hb.
    apply in_rangeb_spec. unfold in_range. lia.
Qed.

(** ** Runs of [setPoint] invocations *)

Lemma plotted_nil state b w : plotted [] state b w = (b, w).
Proof. unfold plotted; cbn. by destruct w. Qed.

Lemma plotted_cons x y pts state b w :
  plotted ((x, y) :: pts) state b w =
  plotted pts state (b && setPoint_result (panel w) x y state)
          (mkWorld (setPoint_panel (panel w) x y state)
                   (mkCall x y state :: calls w)).
Proof.
  unfold plotted; cbn. by rewrite <- app_assoc.
Qed.

Lemma plotted_app pts1 pts2 state b w :
  plotted (pts1 ++ pts2) state b w =
  plotted pts2 state (plotted pts1 state b w).1 (plotted pts1 state b w).2.
Proof.
  revert b w. induction pts1 as [|[x y] pts1 IH]; intros b w.
  - by rewrite plotted_nil.
  - cbn [app]. by rewrite !plotted_cons, IH.
Qed.

Lemma run_points_geometry pts state b p :
  same_geometry p (run_points pts state b p).2.
Proof.
  revert b p. induction pts as [|[x y] pts IH]; intros b p; cbn.
  - apply same_geometry_refl.
  - eapply same_geometry_trans; [apply setPoint_panel_geometry | apply IH].
Qed.

Lemma run_points_result_from pts state b p q :
  same_geometry p q →
  (run_points pts state b q).1 =
  b && forallb (λ pt, setPoint_result p pt.1 pt.2 state) pts.
Proof.
  revert b q. induction pts as [|[x y] pts IH]; intros b q Hg; cbn.
  - by rewrite andb_true_r.
  - rewrite IH, <- andb_assoc.
    + by rewrite (same_geometry_setPoint_result p q x y state Hg).
    + eapply same_geometry_trans; [exact Hg | apply setPoint_panel_geometry].
Qed.

Lemma run_points_result pts state b p :
  (run_points pts state b p).1 =
  b && forallb (λ pt, setPoint_result p pt.1 pt.2 state) pts.
Proof. apply run_points_result_from, same_geometry_refl. Qed.

Lemma run_points_panel_flag pts state b1 b2 p :
  (run_points pts state b1 p).2 = (run_points pts state b2 p).2.
Proof.
  revert b1 b2 p. induction pts as [|[x y] pts IH]; intros b1 b2 p; cbn; [done|].
  apply IH.
Qed.

Lemma plotted_flag pts state b w :
  plotted pts state b w
  = (b && (plotted pts state true w).1, (plotted pts state true w).2).
Proof.
  unfold plotted; cbn [fst snd]. f_equal.
  - by rewrite !run_points_result, andb_true_l.
  - f_equal. apply run_points_panel_flag.
Qed.

Lemma run_points_lit pts state b p :
  ∃ S : gset (Z * Z),
    MD_MAX72XX.lit (_D (run_points pts state b p).2) =
    if state then MD_MAX72XX.lit (_D p) ∪ S else MD_MAX72XX.lit (_D p) ∖ S.
Proof.
  revert b p. induction pts as [|[x y] pts IH]; intros b p; cbn.
  - exists ∅. destruct state; set_solver.
  - destruct (IH (b && setPoint_result p x y state) (setPoint_panel p x y state))
      as [S2 ->].
    destruct (setPoint_panel_lit p x y state) as [S1 ->].
    exists (S1 ∪ S2). destruct state; set_solver.
Qed.

(** A point that already shows [state] keeps it through a run that writes
    [state] everywhere. *)
Lemma run_points_keeps pts state b p x y :
  panel_wf p → chain_fits p → in_range p x y →
  getPoint p x y = state →
  getPoint (run_points pts state b p).2 x y = state.
Proof.
  intros Hwf Hfit Hin Hget.
  pose proof (run_points_geometry pts state b p) as Hg.
  rewrite getPoint_in_range in Hget by assumption.
  rewrite getPoint_in_range; eauto with geometry.
  rewrite (same_geometry_address p _ x y Hg).
  destruct (run_points_lit pts state b p) as [S ->].
  subst state. destruct (bool_decide _) eqn:Hd.
  - apply bool_decide_eq_true in Hd. apply bool_decide_eq_true. set_solver.
  - apply bool_decide_eq_false in Hd. apply bool_decide_eq_false. set_solver.
Qed.

(** Every in-range point of a run shows [state] afterwards. *)
Lemma run_points_sets pts state b p x y :
  panel_wf p → chain_fits p → In (x, y) pts → in_range p x y →
  getPoint (run_points pts state b p).2 x y = state.
Proof.
  revert b p. induction pts as [|[x' y'] pts IH]; intros b p Hwf Hfit HIn Hin.
  - destruct HIn.
  - pose proof (setPoint_panel_geometry p x' y' state) as Hg.
    cbn. destruct HIn as [Heq|HIn].
    + inversion Heq; subst x' y'.
      apply run_points_keeps; eauto with geometry.
      by apply getPoint_after_setPoint.
    + apply IH; eauto with geometry.
Qed.

(** A run changes the points it names and no others. *)
Lemma run_points_frame pts state b p x y :
  panel_wf p → chain_fits p → columns_fit p → in_range p x y →
  Forall (λ pt, 0 ≤ pt.1 ∧ 0 ≤ pt.2) pts →
  ¬ In (x, y) pts →
  getPoint (run_points pts state b p).2 x y = getPoint p x y.
Proof.
  revert b p. induction pts as [|[x' y'] pts IH];
    intros b p Hwf Hfit Hcol Hin Hpts Hnot; [done|].
  pose proof (setPoint_panel_geometry p x' y' state) as Hg.
  apply Forall_cons in Hpts as [[Hx' Hy'] Hpts]. cbn in Hx', Hy'.
  cbn [run_points]. rewrite IH.
  - rewrite getPoint_setPoint_panel by done.
    destruct (decide _) as [Heq|]; [|done].
    exfalso. apply Hnot. by left.
  - eauto with geometry.
  - eauto with geometry.
  - destruct Hg as (Hx & Hy & _). unfold columns_fit. by rewrite Hx, Hy.
  - eauto with geometry.
  - done.
  - intros HIn. apply Hnot. by right.
Qed.

Lemma forallb_false_iff {A} (f : A → bool) (l : list A) :
  forallb f l = false ↔ ∃ a, In a l ∧ f a = false.
Proof.
  induction l as [|a l IH]; cbn.
  - split; [discriminate|]. intros (a & [] & _).
  - rewrite andb_false_iff, IH. split.
    + intros [Ha|(a' & Hin & Ha')]; eauto.
    + intros (a' & [->|Hin] & Ha'); eauto.
Qed.

(** The outcome of a run on a well-formed panel: the flag reports whether
    every point passed the bounds check, and every point that did shows
    [state] afterwards. *)
Lemma plotted_outcome pts state w :
  panel_wf (panel w) → chain_fits (panel w) →
  Forall (λ pt, 0 ≤ pt.1 ∧ 0 ≤ pt.2) pts →
  let out := plotted pts state true (suspend w) in
  (out.1 = false ↔ ∃ pt, In pt pts ∧ ¬ in_range (panel w) pt.1 pt.2) ∧
  (∀ x y, In (x, y) pts → in_range (panel w) x y →
          getPoint (panel (resume out.2)) x y = state) ∧
  same_geometry (panel w) (panel (resume out.2)) ∧
  calls (resume out.2) = rev (calls_of pts state) ++ calls w.
Proof.
  intros Hwf Hfit Hpts out.
  pose proof (suspend_display w) as [Hg0 _].
  assert (Hwf0 : panel_wf (panel (suspend w))) by eauto with geometry.
  assert (Hfit0 : chain_fits (panel (suspend w))) by eauto with geometry.
  split; [split|split; [|split]].
  - unfold out, plotted; cbn [fst]. rewrite run_points_result, andb_true_l.
    rewrite forallb_false_iff. intros ([x y] & HIn & Hres). exists (x, y).
    split; [done|]. cbn [fst snd] in *.
    rewrite Forall_forall in Hpts. destruct (Hpts _ ltac:(by apply list_elem_of_In)).
    rewrite setPoint_result_in_range in Hres by assumption.
    intros Hin. apply (same_geometry_in_range _ _ _ _ Hg0), in_rangeb_spec in Hin.
    congruence.
  - unfold out, plotted; cbn [fst]. rewrite run_points_result, andb_true_l.
    rewrite forallb_false_iff. intros ([x y] & HIn & Hout). exists (x, y).
    split; [done|]. cbn [fst snd] in *.
    rewrite Forall_forall in Hpts. destruct (Hpts _ ltac:(by apply list_elem_of_In)).
    rewrite setPoint_result_in_range by assumption.
    apply not_true_is_false. intros Hin. apply Hout.
    apply in_rangeb_spec in Hin.
    unfold in_range in *.
    by rewrite <- (same_geometry_XMax _ _ Hg0), <- (same_geometry_YMax _ _ Hg0).
  - intros x y HIn Hin.
    rewrite (same_display_getPoint _ _ x y (resume_display out.2)).
    unfold out, plotted; cbn [snd panel].
    apply run_points_sets; eauto with geometry.
  - eapply same_geometry_trans; [exact Hg0|].
    eapply same_geometry_trans; [|apply resume_display].
    unfold out, plotted; cbn [snd panel]. apply run_points_geometry.
  - reflexivity.
Qed.

(** The picture after a bracketed run: the named in-range points show
    [state], every other in-range point is as before. *)
Lemma plotted_picture pts state w x y :
  panel_wf (panel w) → chain_fits (panel w) → columns_fit (panel w) →
  Forall (λ pt, 0 ≤ pt.1 ∧ 0 ≤ pt.2) pts →
  in_range (panel w) x y →
  let w' := resume (plotted pts state true (suspend w)).2 in
  (In (x, y) pts → getPoint (panel w') x y = state) ∧
  (¬ In (x, y) pts → getPoint (panel w') x y = getPoint (panel w) x y).
Proof.
  intros Hwf Hfit Hcol Hpts Hin w'.
  destruct (plotted_outcome pts state w Hwf Hfit Hpts) as (_ & Hset & _ & _).
  split; [intros HIn; by apply Hset|].
  intros Hnot. unfold w'.
  rewrite (same_display_getPoint _ _ x y (resume_display _)).
  unfold plotted; cbn [snd panel].
  rewrite run_points_frame; try done.
Qed.

(** *** Runs that name the same points *)

Lemma paint_empty p state : paint p ∅ state = p.
Proof.
  destruct p as [xd yd rot upd [n l u]]. unfold paint, with_D; cbn.
  do 2 f_equal. destruct state; set_solver.
Qed.

Lemma paint_paint p S1 S2 state :
  paint (paint p S1 state) S2 state = paint p (S1 ∪ S2) state.
Proof.
  unfold paint, with_D; cbn. do 2 f_equal. destruct state; set_solver.
Qed.

Lemma paint_geometry p S state : same_geometry p (paint p S state).
Proof. repeat split. Qed.

Lemma setPoint_panel_paint p x y state :
  setPoint_panel p x y state = paint p (hit p (x, y)) state.
Proof.
  unfold setPoint_panel, hit, MD_MAX72XX.setPoint; cbn [fst snd].
  destruct (_ || _); cbn [negb andb]; [by rewrite paint_empty|].
  destruct (MD_MAX72XX.valid _ _ _); cbn [snd]; [reflexivity|].
  rewrite paint_empty. by destruct p.
Qed.

Lemma same_geometry_hit p q pt : same_geometry p q → hit q pt = hit p pt.
Proof.
  intros Hg. unfold hit, MD_MAX72XX.valid.
  rewrite (same_geometry_XMax p q Hg), (same_geometry_YMax p q Hg),
    (same_geometry_Y2Row p q _ _ Hg), (same_geometry_X2Col p q _ _ Hg),
    (same_geometry_address p q _ _ Hg).
  by destruct Hg as (_ & _ & _ & ->).
Qed.

Lemma run_points_paint_from pts state b p q S :
  same_geometry p q →
  (run_points pts state b (paint q S state)).2
  = paint q (S ∪ ⋃ (hit p <$> pts)) state.
Proof.
  revert b S. induction pts as [|[x y] pts IH]; intros b S Hg; cbn.
  - f_equal. set_solver.
  - rewrite setPoint_panel_paint, paint_paint, IH by done.
    rewrite (same_geometry_hit q (paint q S state)) by apply paint_geometry.
    rewrite (same_geometry_hit p q) by done.
    f_equal. set_solver.
Qed.

(** A run switches the LEDs its accepted points address, whatever the
    order. *)
Lemma run_points_paint pts state b p :
  (run_points pts state b p).2 = paint p (⋃ (hit p <$> pts)) state.
Proof.
  rewrite <- (paint_empty p state) at 1.
  rewrite (run_points_paint_from pts state b p p ∅) by apply same_geometry_refl.
  f_equal. set_solver.
Qed.

Lemma forallb_same_elements {A} (f : A → bool) (l1 l2 : list A) :
  (∀ a, In a l1 ↔ In a l2) → forallb f l1 = forallb f l2.
Proof.
  intros H. apply eq_true_iff_eq. rewrite !forallb_forall.
  split; intros Hall a Ha; apply Hall, H, Ha.
Qed.

Lemma run_points_same_elements pts1 pts2 state b p :
  (∀ pt, In pt pts1 ↔ In pt pts2) →
  run_points pts1 state b p = run_points pts2 state b p.
Proof.
  intros H.
  rewrite (surjective_pairing (run_points pts1 state b p)),
    (surjective_pairing (run_points pts2 state b p)).
  f_equal.
  - rewrite !run_points_result. f_equal. by apply forallb_same_elements.
  - rewrite !run_points_paint. f_equal. apply set_eq. intros a.
    rewrite !elem_of_union_list. split; intros (X & HX & Ha); exists X;
      (split; [|done]); apply list_elem_of_fmap in HX as (pt & -> & Hpt);
      apply list_elem_of_fmap; exists pt; (split; [done|]);
      apply list_elem_of_In, H, list_elem_of_In, Hpt.
Qed.

(** ** Horizontal and vertical lines *)

Lemma In_hline_points y x1 x2 x y' :
  In (x, y') (hline_points y x1 x2) ↔ y' = y ∧ Z.min x1 x2 ≤ x ≤ Z.max x1 x2.
Proof.
  unfold hline_points. rewrite in_map_iff. split.
  - intros (i & Heq & Hi). inversion Heq; subst.
    apply list_elem_of_In, elem_of_seqZ in Hi. lia.
  - intros [-> Hx]. exists x. split; [done|].
    apply list_elem_of_In, elem_of_seqZ. lia.
Qed.

Lemma In_vline_points x y1 y2 x' y :
  In (x', y) (vline_points x y1 y2) ↔ x' = x ∧ Z.min y1 y2 ≤ y ≤ Z.max y1 y2.
Proof.
  unfold vline_points. rewrite in_map_iff. split.
  - intros (i & Heq & Hi). inversion Heq; subst.
    apply list_elem_of_In, elem_of_seqZ in Hi. lia.
  - intros [-> Hy]. exists y. split; [done|].
    apply list_elem_of_In, elem_of_seqZ. lia.
Qed.

Lemma length_hline_points y x1 x2 :
  Z.of_nat (length (hline_points y x1 x2)) = Z.max x1 x2 - Z.min x1 x2 + 1.
Proof. unfold hline_points. rewrite length_map, length_seqZ. lia. Qed.

Lemma length_vline_points x y1 y2 :
  Z.of_nat (length (vline_points x y1 y2)) = Z.max y1 y2 - Z.min y1 y2 + 1.
Proof. unfold vline_points. rewrite length_map, length_seqZ. lia. Qed.

Lemma hline_points_nonneg y x1 x2 :
  0 ≤ y → 0 ≤ x1 → 0 ≤ x2 →
  Forall (λ pt, 0 ≤ pt.1 ∧ 0 ≤ pt.2) (hline_points y x1 x2).
Proof.
  intros Hy H1 H2. apply Forall_forall. intros [x y'] Hin.
  apply list_elem_of_In, In_hline_points in Hin. cbn. lia.
Qed.

Lemma vline_points_nonneg x y1 y2 :
  0 ≤ x → 0 ≤ y1 → 0 ≤ y2 →
  Forall (λ pt, 0 ≤ pt.1 ∧ 0 ≤ pt.2) (vline_points x y1 y2).
Proof.
  intros Hx H1 H2. apply Forall_forall. intros [x' y] Hin.
  apply list_elem_of_In, In_vline_points in Hin. cbn. lia.
Qed.

Lemma drawHLine_loop_run (k : nat) : ∀ fuel y x2 state i b w,
  0 ≤ i → x2 ≤ 65534 → Z.of_nat k = x2 + 1 - i → (k < fuel)%nat →
  drawHLine_loop fuel y x2 state i b w
  = Some (plotted (map (λ j, (j, y)) (seqZ i (Z.of_nat k))) state b w).
Proof.
  induction k as [|k IH]; intros fuel y x2 state i b w Hi Hx2 Hk Hfuel;
    (destruct fuel as [|fuel]; [lia|]); cbn [drawHLine_loop].
  - replace (i <=? x2) with false by (symmetry; apply Z.leb_gt; lia).
    by rewrite seqZ_nil, plotted_nil by lia.
  - replace (i <=? x2) with true by (symmetry; apply Z.leb_le; lia).
    rewrite seqZ_cons by lia. cbn [map]. rewrite plotted_cons.
    rewrite (M_bind_Some _ _ _ _ _ (setPoint_run i y state w)).
    rewrite u16_id by (unfold is_u16; lia).
    rewrite (IH fuel) by lia.
    replace (Z.pred (Z.of_nat (S k))) with (Z.of_nat k) by lia.
    reflexivity.
Qed.

Lemma drawHLine_run fuel y x1 x2 state w :
  is_u16 x1 → is_u16 x2 → Z.max x1 x2 ≤ 65534 →
  (Z.to_nat (Z.max x1 x2 - Z.min x1 x2) + 1 < fuel)%nat →
  drawHLine fuel y x1 x2 state w
  = Some ((plotted (hline_points y x1 x2) state true (suspend w)).1,
          resume (plotted (hline_points y x1 x2) state true (suspend w)).2).
Proof.
  intros H1 H2 Hmax Hfuel. unfold is_u16 in *. unfold drawHLine, hline_points.
  destruct (x1 >? x2) eqn:Hswap.
  - apply Z.gtb_lt in Hswap.
    apply bracket_run.
    rewrite (drawHLine_loop_run (Z.to_nat (x1 - x2 + 1))) by lia.
    rewrite Z.min_r, Z.max_l by lia.
    rewrite Z2Nat.id by lia. by destruct (plotted _ _ _ _).
  - rewrite Z.gtb_ltb in Hswap. apply Z.ltb_ge in Hswap.
    apply bracket_run.
    rewrite (drawHLine_loop_run (Z.to_nat (x2 - x1 + 1))) by lia.
    rewrite Z.min_l, Z.max_r by lia.
    rewrite Z2Nat.id by lia. by destruct (plotted _ _ _ _).
Qed.

(** [drawHLine] away from the top of the 16-bit range: it returns, every
    in-range point of the row segment shows [state], and the result is
    [false] exactly when some point of the segment is out of range. *)
Theorem drawHLine_draws_row (fuel : nat) (y x1 x2 : Z) (state : bool) (w : World) :
  panel_wf (panel w) → chain_fits (panel w) →
  is_u16 y → is_u16 x1 → is_u16 x2 → Z.max x1 x2 ≤ 65534 →
  (Z.to_nat (Z.max x1 x2 - Z.min x1 x2) + 1 < fuel)%nat →
  ∃ b w',
    drawHLine fuel y x1 x2 state w = Some (b, w') ∧
    (∀ i, Z.min x1 x2 ≤ i ≤ Z.max x1 x2 → in_range (panel w) i y →
          getPoint (panel w') i y = state) ∧
    (b = false ↔ ∃ i, Z.min x1 x2 ≤ i ≤ Z.max x1 x2 ∧ ¬ in_range (panel w) i y).
Proof.
  intros Hwf Hfit Hy H1 H2 Hmax Hfuel.
  rewrite drawHLine_run by assumption.
  unfold is_u16 in *.
  destruct (plotted_outcome (hline_points y x1 x2) state w Hwf Hfit
              (hline_points_nonneg y x1 x2 ltac:(lia) ltac:(lia) ltac:(lia)))
    as (Hb & Hset & _ & _).
  eexists _, _. split; [reflexivity|]. split.
  - intros i Hi Hin. apply Hset; [|done]. apply In_hline_points. lia.
  - rewrite Hb. split.
    + intros ([x y'] & HIn & Hout). apply In_hline_points in HIn as [-> Hx].
      by exists x.
    + intros (i & Hi & Hout). exists (i, y). split; [|done].
      by apply In_hline_points.
Qed.

(** With the upper end at 65535 the loop condition [i <= x2] can never
    fail: the counter wraps from 65535 to 0. *)
Lemma drawHLine_loop_65535 fuel : ∀ y state i b w,
  is_u16 i → drawHLine_loop fuel y 65535 state i b w = None.
Proof.
  induction fuel as [|fuel IH]; intros y state i b w Hi; cbn [drawHLine_loop].
  - reflexivity.
  - replace (i <=? 65535) with true
      by (symmetry; apply Z.leb_le; unfold is_u16 in Hi; lia).
    rewrite (M_bind_Some _ _ _ _ _ (setPoint_run i y state w)).
    apply IH, u16_range.
Qed.

(** Claim C2, at the input where it fails.  [drawHLine(17, 0, 65535)]
    exhausts every iteration budget: it never returns. *)
Theorem drawHLine_never_returns_at_65535 (fuel : nat) :
  drawHLine fuel 17 0 65535 true world_4x5 = None.
Proof.
  unfold drawHLine.
  change (0 >? 65535) with false. cbv iota.
  apply bracket_None, drawHLine_loop_65535. unfold is_u16. lia.
Qed.

Lemma drawVLine_loop_run (k : nat) : ∀ fuel x y2 state i b w,
  0 ≤ i → y2 ≤ 254 → Z.of_nat k = y2 + 1 - i → (k < fuel)%nat →
  drawVLine_loop fuel x y2 state i b w
  = Some (plotted (map (λ j, (x, j)) (seqZ i (Z.of_nat k))) state b w).
Proof.
  induction k as [|k IH]; intros fuel x y2 state i b w Hi Hy2 Hk Hfuel;
    (destruct fuel as [|fuel]; [lia|]); cbn [drawVLine_loop].
  - replace (i <=? y2) with false by (symmetry; apply Z.leb_gt; lia).
    by rewrite seqZ_nil, plotted_nil by lia.
  - replace (i <=? y2) with true by (symmetry; apply Z.leb_le; lia).
    rewrite seqZ_cons by lia. cbn [map]. rewrite plotted_cons.
    rewrite (M_bind_Some _ _ _ _ _ (setPoint_run x i state w)).
    rewrite u8_id by (unfold is_u8; lia).
    rewrite (IH fuel) by lia.
    replace (Z.pred (Z.of_nat (S k))) with (Z.of_nat k) by lia.
    reflexivity.
Qed.

Lemma drawVLine_run fuel x y1 y2 state w :
  0 ≤ y1 → 0 ≤ y2 → Z.max y1 y2 ≤ 254 →
  (Z.to_nat (Z.max y1 y2 - Z.min y1 y2) + 1 < fuel)%nat →
  drawVLine fuel x y1 y2 state w
  = Some ((plotted (vline_points x y1 y2) state true (suspend w)).1,
          resume (plotted (vline_points x y1 y2) state true (suspend w)).2).
Proof.
  intros H1 H2 Hmax Hfuel. unfold drawVLine, vline_points.
  destruct (y1 >? y2) eqn:Hswap.
  - apply Z.gtb_lt in Hswap.
    apply bracket_run.
    rewrite (u8_id y2) by (unfold is_u8; lia).
    rewrite (u8_id y1) by (unfold is_u8; lia).
    rewrite (drawVLine_loop_run (Z.to_nat (y1 - y2 + 1))) by lia.
    rewrite Z.min_r, Z.max_l by lia.
    rewrite Z2Nat.id by lia. by destruct (plotted _ _ _ _).
  - rewrite Z.gtb_ltb in Hswap. apply Z.ltb_ge in Hswap.
    apply bracket_run.
    rewrite (u8_id y1) by (unfold is_u8; lia).
    rewrite (drawVLine_loop_run (Z.to_nat (y2 - y1 + 1))) by lia.
    rewrite Z.min_l, Z.max_r by lia.
    rewrite Z2Nat.id by lia. by destruct (plotted _ _ _ _).
Qed.

(** The counterpart for [drawVLine], below the top of the 8-bit range. *)
Theorem drawVLine_draws_column (fuel : nat) (x y1 y2 : Z) (state : bool) (w : World) :
  panel_wf (panel w) → chain_fits (panel w) →
  is_u16 x → 0 ≤ y1 → 0 ≤ y2 → Z.max y1 y2 ≤ 254 →
  (Z.to_nat (Z.max y1 y2 - Z.min y1 y2) + 1 < fuel)%nat →
  ∃ b w',
    drawVLine fuel x y1 y2 state w = Some (b, w') ∧
    (∀ i, Z.min y1 y2 ≤ i ≤ Z.max y1 y2 → in_range (panel w) x i →
          getPoint (panel w') x i = state) ∧
    (b = false ↔ ∃ i, Z.min y1 y2 ≤ i ≤ Z.max y1 y2 ∧ ¬ in_range (panel w) x i).
Proof.
  intros Hwf Hfit Hx H1 H2 Hmax Hfuel.
  rewrite drawVLine_run by assumption.
  unfold is_u16 in *.
  destruct (plotted_outcome (vline_points x y1 y2) state w Hwf Hfit
              (vline_points_nonneg x y1 y2 ltac:(lia) ltac:(lia) ltac:(lia)))
    as (Hb & Hset & _ & _).
  eexists _, _. split; [reflexivity|]. split.
  - intros i Hi Hin. apply Hset; [|done]. apply In_vline_points. lia.
  - rewrite Hb. split.
    + intros ([x' y] & HIn & Hout). apply In_vline_points in HIn as [-> Hy].
      by exists y.
    + intros (i & Hi & Hout). exists (x, i). split; [|done].
      by apply In_vline_points.
Qed.

(** Claim C9.  When [max(y1, y2) <= 254], [drawVLine] returns (for every
    iteration budget above the length of the segment) after exactly
    [max(y1,y2) - min(y1,y2) + 1] invocations of [setPoint], one for each
    row of the segment in ascending order. *)
Theorem drawVLine_terminates_with_call_count
    (fuel : nat) (x y1 y2 : Z) (state : bool) (w : World) :
  panel_wf (panel w) →
  is_u16 x → 0 ≤ y1 → 0 ≤ y2 → Z.max y1 y2 ≤ 254 →
  (Z.to_nat (Z.max y1 y2 - Z.min y1 y2) + 1 < fuel)%nat →
  ∃ b w',
    drawVLine fuel x y1 y2 state w = Some (b, w') ∧
    calls w' = rev (calls_of (vline_points x y1 y2) state) ++ calls w ∧
    Z.of_nat (length (calls w')) =
      Z.of_nat (length (calls w)) + (Z.max y1 y2 - Z.min y1 y2 + 1).
Proof.
  intros _ _ H1 H2 Hmax Hfuel.
  rewrite drawVLine_run by assumption.
  eexists _, _. split; [reflexivity|].
  cbn [resume plotted snd calls]. split; [reflexivity|].
  rewrite length_app, length_rev. unfold calls_of. rewrite length_map.
  pose proof (length_vline_points x y1 y2). cbn [suspend calls]. lia.
Qed.

(** With the upper end at 255 or above the 8-bit counter can never exceed
    it. *)
Lemma drawVLine_loop_255 fuel : ∀ x y2 state i b w,
  255 ≤ y2 → is_u8 i → drawVLine_loop fuel x y2 state i b w = None.
Proof.
  induction fuel as [|fuel IH]; intros x y2 state i b w Hy2 Hi; cbn [drawVLine_loop].
  - reflexivity.
  - replace (i <=? y2) with true
      by (symmetry; apply Z.leb_le; unfold is_u8 in Hi; lia).
    rewrite (M_bind_Some _ _ _ _ _ (setPoint_run x i state w)).
    apply IH; [done|apply u8_range].
Qed.

(** Claim C8, at the inputs where it fails.  On a panel 320 rows high,
    [drawVLine(0, 300, 0)] returns [true] after 45 invocations and leaves the
    in-range point (0, 300) unlit, and [drawVLine(0, 0, 300)] never
    returns. *)
Theorem drawVLine_is_limited_to_8_bits :
  in_range panel_1x40 0 300 ∧
  match drawVLine 400 0 300 0 true world_1x40 with
  | Some (b, w') =>
      b = true ∧ length (calls w') = 45%nat ∧
      getPoint (panel w') 0 44 = true ∧ getPoint (panel w') 0 45 = false ∧
      getPoint (panel w') 0 300 = false
  | None => False
  end ∧
  ∀ fuel, drawVLine fuel 0 0 300 true world_1x40 = None.
Proof.
  split; [vm_compute; repeat split; discriminate|].
  split; [vm_compute; repeat split|].
  intros fuel. unfold drawVLine.
  change (0 >? 300) with false. cbv iota.
  apply bracket_None, drawVLine_loop_255; [lia|apply u8_range].
Qed.

(** ** Circles *)

Lemma drawCirclePoints_run xc yc x y state w :
  drawCirclePoints xc yc x y state w
  = Some (plotted (map as_u16 (eight_points xc yc (x, y))) state true w).
Proof.
  unfold drawCirclePoints.
  cbn [eight_points map]. unfold as_u16. cbn [fst snd].
  repeat (rewrite plotted_cons;
          erewrite M_bind_Some by apply setPoint_run; cbv beta).
  rewrite plotted_nil. cbn [panel calls]. reflexivity.
Qed.

Lemma drawCircle_loop_run INT_BITS xc yc state r :
  16 ≤ INT_BITS → 0 ≤ r ≤ 65535 → 4 * r + 8 < 2 ^ (INT_BITS - 1) →
  ∀ (n fuel : nat) x y pk b w,
    circle_inv r x y pk → y - x ≤ Z.of_nat n → (n < fuel)%nat →
    drawCircle_loop INT_BITS fuel xc yc state x y pk b w
    = Some (plotted (map as_u16 (flat_map (eight_points xc yc)
                                          (midpoint_steps n x y pk)))
                    state b w).
Proof.
  intros Hw Hr Hbig.
  induction n as [|n IH]; intros fuel x y pk b w (Hx & Hy & Hpk & Hpk') Hn Hfuel;
    (destruct fuel as [|fuel]; [lia|]); cbn [drawCircle_loop midpoint_steps].
  - replace (x <? y) with false by (symmetry; apply Z.ltb_ge; lia).
    by rewrite plotted_nil.
  - destruct (x <? y) eqn:Hxy; [|by rewrite plotted_nil].
    apply Z.ltb_lt in Hxy.
    destruct (pk <=? 0) eqn:Hp; [apply Z.leb_le in Hp | apply Z.leb_gt in Hp];
      cbn [flat_map]; rewrite map_app, plotted_app;
      rewrite !cint_id by lia;
      rewrite !u16_id by (unfold is_u16; lia);
      erewrite M_bind_Some by apply drawCirclePoints_run;
      (rewrite (IH fuel); [|unfold circle_inv; lia|lia|lia]);
      by rewrite (plotted_flag _ state b w).
Qed.

Lemma as_u16_nonneg pts : Forall (λ pt, 0 ≤ pt.1 ∧ 0 ≤ pt.2) (map as_u16 pts).
Proof.
  apply Forall_forall. intros pt [pt' [<- _]]%list_elem_of_In%in_map_iff.
  unfold as_u16; cbn.
  pose proof (u16_range pt'.1). pose proof (u16_range pt'.2).
  unfold is_u16 in *. lia.
Qed.

(** [drawCircle] on radii for which the [int] arithmetic is exact. *)
Lemma drawCircle_run INT_BITS fuel xc yc r state w :
  16 ≤ INT_BITS → is_u16 r → 4 * r + 8 < 2 ^ (INT_BITS - 1) →
  (Z.to_nat r < fuel)%nat →
  drawCircle INT_BITS fuel xc yc r state w
  = Some (false,
          resume (plotted (map as_u16 (midpoint_circle xc yc r)) state true
                          (suspend w)).2).
Proof.
  intros Hw Hr Hbig Hfuel. unfold is_u16 in Hr. unfold drawCircle.
  assert (Hpow : 2 ^ 15 ≤ 2 ^ (INT_BITS - 1)) by (apply Z.pow_le_mono_r; lia).
  rewrite !cint_id by lia. rewrite !u16_id by (unfold is_u16; lia).
  rewrite (M_bind_Some _ _ w tt (suspend w)) by reflexivity.
  erewrite M_bind_Some by apply drawCirclePoints_run.
  cbv beta zeta. cbn [andb].
  erewrite M_bind_Some;
    [|apply (drawCircle_loop_run INT_BITS xc yc state r Hw Hr Hbig (Z.to_nat r));
      [unfold circle_inv; lia|lia|lia]].
  unfold midpoint_circle, midpoint_offsets. cbn [flat_map].
  rewrite map_app, plotted_app.
  unfold plotted; cbn [fst snd panel calls].
  rewrite run_points_result; cbn [andb].
  rewrite (run_points_panel_flag _ state (run_points _ _ true _).1 false).
  reflexivity.
Qed.

(** Where the platform's [int] holds the decision parameter exactly,
    [drawCircle] performs the midpoint circle algorithm: it returns, and the
    points it hands to [setPoint] are, in order, the eight symmetric points
    of each offset the algorithm visits from [x = 0], [y = r],
    [pk = 3 - 2r].  On a panel whose driver covers it, exactly those points
    take [state] and every other in-range point keeps its value.  For
    [drawCircle(16, 16, 5)] the points are those generated with [pk]
    starting at [-7]. *)
Theorem drawCircle_midpoint_algorithm
    (INT_BITS : Z) (fuel : nat) (xc yc r : Z) (state : bool) (w : World) :
  16 ≤ INT_BITS → is_u16 xc → is_u16 yc → is_u16 r →
  4 * r + 8 < 2 ^ (INT_BITS - 1) →
  panel_wf (panel w) → (Z.to_nat r < fuel)%nat →
  let pts := map as_u16 (midpoint_circle xc yc r) in
  ∃ b w',
    drawCircle INT_BITS fuel xc yc r state w = Some (b, w') ∧
    calls w' = rev (calls_of pts state) ++ calls w ∧
    (chain_fits (panel w) → columns_fit (panel w) →
     ∀ x y, in_range (panel w) x y →
       (In (x, y) pts → getPoint (panel w') x y = state) ∧
       (¬ In (x, y) pts → getPoint (panel w') x y = getPoint (panel w) x y)) ∧
    (xc = 16 → yc = 16 → r = 5 →
     pts = flat_map (eight_points 16 16) ((0, 5) :: midpoint_steps 5 0 5 (-7))).
Proof.
  intros Hw _ _ Hr Hbig Hwf Hfuel pts.
  rewrite drawCircle_run by assumption.
  eexists _, _. split; [reflexivity|]. split; [reflexivity|]. split.
  - intros Hfit Hcol x y Hin.
    apply plotted_picture; try done. apply as_u16_nonneg.
  - intros -> -> ->. reflexivity.
Qed.

Lemma drawCircle_loop_false INT_BITS fuel : ∀ xc yc state x y pk w b' w',
  drawCircle_loop INT_BITS fuel xc yc state x y pk false w = Some (b', w') →
  b' = false.
Proof.
  induction fuel as [|fuel IH]; intros xc yc state x y pk w b' w';
    cbn [drawCircle_loop]; [discriminate|].
  destruct (x <? y); [|intros [= <- _]; reflexivity].
  destruct (pk <=? 0);
    erewrite M_bind_Some by apply drawCirclePoints_run; cbn [andb]; apply IH.
Qed.

(** [drawCircle] starts from [b = false] and only ever conjoins onto it. *)
Lemma drawCircle_result_false INT_BITS fuel xc yc r state w b w' :
  drawCircle INT_BITS fuel xc yc r state w = Some (b, w') → b = false.
Proof.
  unfold drawCircle.
  rewrite (M_bind_Some _ _ w tt (suspend w)) by reflexivity.
  erewrite M_bind_Some by apply drawCirclePoints_run.
  cbv beta zeta. cbn [andb].
  match goal with
  | |- (?m ≫= _) ?w0 = _ → _ => destruct (m w0) as [[b1 w1]|] eqn:Hloop
  end.
  - pose proof (drawCircle_loop_false _ _ _ _ _ _ _ _ _ _ _ Hloop) as ->.
    erewrite M_bind_Some by exact Hloop. intros [= <- _]. reflexivity.
  - rewrite M_bind_None by exact Hloop. discriminate.
Qed.

(** Claim C1, at the input where it fails.  [drawCircle(16, 16, 5)] on the
    blank 4x5 panel issues forty [setPoint] invocations, all on in-range
    points that end up lit, and still returns [false], with a 16-bit as
    with a 32-bit [int]. *)
Theorem drawCircle_reports_false_when_all_writes_succeed :
  match drawCircle 16 6 16 16 5 true world_4x5,
        drawCircle 32 6 16 16 5 true world_4x5 with
  | Some (b16, w16), Some (b32, w32) =>
      b16 = false ∧ b32 = false ∧
      length (calls w16) = 40%nat ∧ all_calls_lit w16 = true ∧
      length (calls w32) = 40%nat ∧ all_calls_lit w32 = true
  | _, _ => False
  end.
Proof. vm_compute. repeat split. Qed.

(** ** Arbitrary lines *)

Lemma line_err0_x_major dx dy :
  0 ≤ dy < dx → 0 ≤ 2 * line_err0 dx dy ≤ dx ∧ dx - 1 ≤ 2 * line_err0 dx dy.
Proof.
  intros H. unfold line_err0.
  replace (dx >? dy) with true by (symmetry; apply Z.gtb_lt; lia).
  rewrite Z.quot_div_nonneg by lia.
  pose proof (Z.div_mod dx 2 ltac:(lia)). pose proof (Z.mod_pos_bound dx 2 ltac:(lia)).
  lia.
Qed.

Lemma line_err0_y_major dx dy :
  0 ≤ dx ≤ dy → - dy ≤ 2 * line_err0 dx dy ≤ 0 ∧ 2 * line_err0 dx dy ≤ 1 - dy.
Proof.
  intros H. unfold line_err0.
  replace (dx >? dy) with false
    by (symmetry; rewrite Z.gtb_ltb; apply Z.ltb_ge; lia).
  rewrite Z.quot_opp_l by lia. rewrite Z.quot_div_nonneg by lia.
  pose proof (Z.div_mod dy 2 ltac:(lia)). pose proof (Z.mod_pos_bound dy 2 ltac:(lia)).
  lia.
Qed.

Lemma line_inv_start dx dy :
  0 ≤ dx → 0 ≤ dy → line_inv dx dy dx dy (line_err0 dx dy).
Proof.
  intros Hdx Hdy. unfold line_inv.
  split; [lia|]. split; [lia|]. split; [lia|]. split.
  - intros Hmaj. pose proof (line_err0_x_major dx dy ltac:(lia)). lia.
  - intros Hmaj Hpos. pose proof (line_err0_y_major dx dy ltac:(lia)). lia.
Qed.

(** At the end column the walk is also at the end row, and conversely. *)
Lemma line_inv_end dx dy rx ry err :
  line_inv dx dy rx ry err → (rx = 0 ∧ dy < dx) ∨ (ry = 0 ∧ dx ≤ dy) →
  rx = 0 ∧ ry = 0.
Proof.
  intros (Hrx & Hry & Herr & Hx & Hy) [[-> Hmaj]|[-> Hmaj]].
  - split; [done|]. specialize (Hx Hmaj).
    pose proof (line_err0_x_major dx dy ltac:(lia)).
    destruct (decide (ry = 0)) as [|Hne]; [done|].
    assert (dx ≤ ry * dx) by nia. lia.
  - split; [|done].
    destruct (decide (dy = 0)) as [->|Hdy]; [lia|].
    specialize (Hy Hmaj ltac:(lia)).
    pose proof (line_err0_y_major dx dy ltac:(lia)).
    destruct (decide (rx = 0)) as [|Hne]; [done|].
    assert (dy ≤ rx * dy) by nia. lia.
Qed.

(** A step is only taken in a direction in which there is still a way to
    go. *)
Lemma line_inv_row_left dx dy rx ry err :
  line_inv dx dy rx ry err → dy < dx → 1 ≤ rx → err < dy → 1 ≤ ry.
Proof.
  intros (Hrx & Hry & Herr & Hx & Hy) Hmaj Hrx1 Hlt.
  pose proof (line_err0_x_major dx dy ltac:(lia)).
  destruct (decide (ry = 0)) as [->|]; [|lia].
  assert (dy ≤ rx * dy) by nia. lia.
Qed.

Lemma line_inv_column_left dx dy rx ry err :
  line_inv dx dy rx ry err → dx ≤ dy → 1 ≤ ry → - dx < err → 1 ≤ rx.
Proof.
  intros (Hrx & Hry & Herr & Hx & Hy) Hmaj Hry1 Hlt.
  pose proof (line_err0_y_major dx dy ltac:(lia)).
  destruct (decide (rx = 0)) as [->|]; [|lia].
  assert (dx ≤ ry * dx) by nia. lia.
Qed.

(** One iteration of the walk, by cases on the two tests of the loop
    body. *)
Lemma line_inv_step dx dy rx ry err :
  dx ≤ 32767 → dy ≤ 32767 →
  line_inv dx dy rx ry err → ¬ (rx = 0 ∧ ry = 0) →
  let rx' := if err >? - dx then rx - 1 else rx in
  let ry' := if err <? dy then ry - 1 else ry in
  let err' := (if err >? - dx then err - dy else err)
              + (if err <? dy then dx else 0) in
  line_inv dx dy rx' ry' err' ∧ rx' + ry' < rx + ry ∧
  (- dx < err → is_s16 (err - dy) ∨ err < dy).
Proof.
  intros Hdx Hdy Hinv Hnz.
  pose proof (line_inv_end dx dy rx ry err Hinv) as Hend.
  pose proof (line_inv_row_left dx dy rx ry err Hinv) as Hrow.
  pose proof (line_inv_column_left dx dy rx ry err Hinv) as Hcol.
  destruct Hinv as (Hrx & Hry & Herr & Hx & Hy).
  destruct (Z.lt_ge_cases dy dx) as [Hmaj|Hmaj].
  - specialize (Hx Hmaj). clear Hy Hcol.
    assert (1 ≤ rx) by (destruct (decide (rx = 0)); [exfalso; apply Hnz, Hend; lia | lia]).
    replace (err >? - dx) with true by (symmetry; apply Z.gtb_lt; lia).
    destruct (err <? dy) eqn:Hlt;
      [apply Z.ltb_lt in Hlt; specialize (Hrow Hmaj ltac:(lia) Hlt)
      |apply Z.ltb_ge in Hlt]; cbv zeta; unfold line_inv, is_s16;
      (split; [|split; [lia|intros _; lia]]);
      (split; [lia|]); (split; [lia|]); (split; [lia|]); split; lia.
  - clear Hx Hrow.
    assert (0 < dy) by (destruct (decide (dy = 0)); [exfalso; apply Hnz; lia | lia]).
    specialize (Hy Hmaj ltac:(lia)).
    assert (1 ≤ ry) by (destruct (decide (ry = 0)); [exfalso; apply Hnz, Hend; lia | lia]).
    replace (err <? dy) with true by (symmetry; apply Z.ltb_lt; lia).
    destruct (err >? - dx) eqn:Hgt;
      [apply Z.gtb_lt in Hgt; specialize (Hcol Hmaj ltac:(lia) Hgt)
      |rewrite Z.gtb_ltb in Hgt; apply Z.ltb_ge in Hgt]; cbv zeta; unfold line_inv;
      (split; [|split; [lia|intros _; lia]]);
      (split; [lia|]); (split; [lia|]); (split; [lia|]); split; lia.
Qed.

Lemma line_inv_s16 dx dy rx ry err :
  dx ≤ 32767 → dy ≤ 32767 → line_inv dx dy rx ry err → is_s16 err.
Proof.
  intros Hdx Hdy (Hrx & Hry & Herr & Hx & Hy). unfold is_s16.
  destruct (Z.lt_ge_cases dy dx) as [Hmaj|Hmaj]; [specialize (Hx Hmaj); lia|].
  destruct (decide (dy = 0)) as [->|Hpos].
  - assert (dx = 0) as -> by lia. assert (rx = 0) as -> by lia.
    assert (ry = 0) as -> by lia.
    change (line_err0 0 0) with 0 in Herr. lia.
  - specialize (Hy Hmaj ltac:(lia)). lia.
Qed.

(** The loop of [drawLine] performs the walk: 16-bit arithmetic loses
    nothing as long as both deltas fit [int16_t]. *)
Lemma drawLine_loop_run x2 y2 dx dy sy state :
  is_u16 x2 → is_u16 y2 → 0 ≤ dx ≤ 32767 → 0 ≤ dy ≤ 32767 →
  sy = 1 ∨ sy = -1 → 0 ≤ x2 - dx → is_u16 (y2 - sy * dy) →
  ∀ (n fuel : nat) rx ry err b w,
    line_inv dx dy rx ry err → rx + ry < Z.of_nat n → (n ≤ fuel)%nat →
    drawLine_loop fuel x2 y2 dx dy 1 sy state (x2 - rx) (y2 - sy * ry) err b w
    = Some (plotted (line_walk n x2 y2 dx dy sy rx ry err) state b w).
Proof.
  intros Hx2 Hy2 Hdx Hdy Hsy Hx0 Hy0. unfold is_u16 in *.
  induction n as [|n IH]; intros fuel rx ry err b w Hinv Hn Hfuel.
  { destruct Hinv as (? & ? & _). lia. }
  destruct fuel as [|fuel]; [lia|]. cbn [drawLine_loop line_walk].
  rewrite (M_bind_Some _ _ _ _ _ (setPoint_run _ _ state w)). cbv beta zeta.
  rewrite plotted_cons.
  assert (Htest : (x2 - rx =? x2) && (y2 - sy * ry =? y2) = (rx =? 0) && (ry =? 0)).
  { f_equal.
    - destruct (rx =? 0) eqn:E; [apply Z.eqb_eq in E; apply Z.eqb_eq; lia|].
      apply Z.eqb_neq in E. apply Z.eqb_neq. lia.
    - destruct (ry =? 0) eqn:E; [apply Z.eqb_eq in E; apply Z.eqb_eq; subst; lia|].
      apply Z.eqb_neq in E. apply Z.eqb_neq. destruct Hsy; subst sy; lia. }
  rewrite Htest.
  destruct ((rx =? 0) && (ry =? 0)) eqn:Hz; [by rewrite plotted_nil|].
  assert (Hnz : ¬ (rx = 0 ∧ ry = 0)).
  { intros [-> ->]. discriminate Hz. }
  destruct (line_inv_step dx dy rx ry err ltac:(lia) ltac:(lia) Hinv Hnz)
    as (Hinv' & Hless & Hwrap).
  pose proof (line_inv_s16 dx dy _ _ _ ltac:(lia) ltac:(lia) Hinv') as Herr'.
  pose proof Hinv as (Hrx & Hry & _). pose proof Hinv' as (Hrx' & Hry' & _).
  destruct (err >? - dx) eqn:Hgt; destruct (err <? dy) eqn:Hlt;
    cbv beta iota zeta in Hinv', Hless, Herr', Hrx', Hry' |- *.
  - rewrite s16_s16_add, s16_id by exact Herr'.
    rewrite !u16_id by (unfold is_u16; destruct Hsy; subst sy; lia).
    replace (x2 - rx + 1) with (x2 - (rx - 1)) by lia.
    replace (y2 - sy * ry + sy) with (y2 - sy * (ry - 1)) by lia.
    apply IH; [done|lia|lia].
  - apply Z.gtb_lt in Hgt. apply Z.ltb_ge in Hlt.
    destruct (Hwrap ltac:(lia)) as [Hs|]; [|lia].
    rewrite s16_id by exact Hs.
    rewrite !u16_id by (unfold is_u16; lia).
    replace (x2 - rx + 1) with (x2 - (rx - 1)) by lia.
    apply IH; [|lia|lia]. by rewrite Z.add_0_r in Hinv'.
  - rewrite s16_id by exact Herr'.
    rewrite !u16_id by (unfold is_u16; destruct Hsy; subst sy; lia).
    replace (y2 - sy * ry + sy) with (y2 - sy * (ry - 1)) by lia.
    apply IH; [done|lia|lia].
  - lia.
Qed.

Lemma drawLine_loop_from_ends fuel x1 y1 x2 y2 state w :
  is_u16 x1 → is_u16 y1 → is_u16 x2 → is_u16 y2 →
  x1 ≤ x2 → x2 - x1 ≤ 32767 → Z.abs (y2 - y1) ≤ 32767 →
  (Z.to_nat (x2 - x1 + Z.abs (y2 - y1)) < fuel)%nat →
  let dx := s16 (x2 - x1) in
  let dy := s16 (y2 - y1) in
  let dy := if dy <? 0 then s16 (- dy) else dy in
  let sy := if y1 <? y2 then 1 else -1 in
  let err := s16 (Z.quot (if dx >? dy then dx else - dy) 2) in
  drawLine_loop fuel x2 y2 dx dy 1 sy state x1 y1 err true w
  = Some (plotted
            (line_walk (S (Z.to_nat (x2 - x1 + Z.abs (y2 - y1)))) x2 y2
               (x2 - x1) (Z.abs (y2 - y1)) (if y1 <? y2 then 1 else -1)
               (x2 - x1) (Z.abs (y2 - y1))
               (line_err0 (x2 - x1) (Z.abs (y2 - y1))))
            state true w).
Proof.
  intros Hx1 Hy1 Hx2 Hy2 Hle Hdx Hdy Hfuel. unfold is_u16 in *. cbv zeta.
  rewrite (s16_id (x2 - x1)) by (unfold is_s16; lia).
  rewrite (s16_id (y2 - y1)) by (unfold is_s16; lia).
  assert ((if y2 - y1 <? 0 then s16 (- (y2 - y1)) else y2 - y1) = Z.abs (y2 - y1))
    as ->.
  { destruct (y2 - y1 <? 0) eqn:E;
      [apply Z.ltb_lt in E; rewrite s16_id by (unfold is_s16; lia)
      |apply Z.ltb_ge in E]; lia. }
  set (dx := x2 - x1) in *. set (dy := Z.abs (y2 - y1)) in *.
  set (sy := if y1 <? y2 then 1 else -1).
  assert (Hsy : sy = 1 ∨ sy = -1) by (unfold sy; destruct (y1 <? y2); auto).
  assert (Hy : y1 = y2 - sy * dy).
  { unfold sy, dy. destruct (y1 <? y2) eqn:E;
      [apply Z.ltb_lt in E | apply Z.ltb_ge in E]; lia. }
  pose proof (line_inv_start dx dy ltac:(lia) ltac:(lia)) as Hinv.
  fold (line_err0 dx dy).
  rewrite (s16_id (line_err0 dx dy))
    by (apply (line_inv_s16 dx dy dx dy); [lia|lia|exact Hinv]).
  replace x1 with (x2 - dx) at 1 by (unfold dx; lia).
  rewrite Hy at 1.
  apply drawLine_loop_run; unfold is_u16; try lia; try done.
Qed.

(** [drawLine] where both deltas fit [int16_t]: it returns, after plotting
    the points of the walk. *)
Lemma drawLine_run fuel x1 y1 x2 y2 state w :
  is_u16 x1 → is_u16 y1 → is_u16 x2 → is_u16 y2 →
  Z.abs (x2 - x1) ≤ 32767 → Z.abs (y2 - y1) ≤ 32767 →
  (Z.to_nat (Z.abs (x2 - x1) + Z.abs (y2 - y1)) < fuel)%nat →
  drawLine fuel x1 y1 x2 y2 state w
  = Some ((plotted (line_points x1 y1 x2 y2) state true (suspend w)).1,
          resume (plotted (line_points x1 y1 x2 y2) state true (suspend w)).2).
Proof.
  intros Hx1 Hy1 Hx2 Hy2 Hdx Hdy Hfuel. unfold drawLine, line_points.
  destruct (x1 >? x2) eqn:Hswap.
  - apply Z.gtb_lt in Hswap. apply bracket_run.
    rewrite drawLine_loop_from_ends; try done; lia.
  - rewrite Z.gtb_ltb in Hswap. apply Z.ltb_ge in Hswap. apply bracket_run.
    rewrite drawLine_loop_from_ends; try done; lia.
Qed.

(** *** Both directions of a line *)

(** With [dx = 0] the walk goes straight along the column. *)
Lemma line_walk_vertical x2 y2 dy sy err :
  err ≤ 0 → ∀ (n : nat) ry, 0 ≤ ry < Z.of_nat n → (0 < ry → err < dy) →
  ∀ x y, In (x, y) (line_walk n x2 y2 0 dy sy 0 ry err)
         ↔ x = x2 ∧ ∃ k, 0 ≤ k ≤ ry ∧ y = y2 - sy * k.
Proof.
  intros Herr. induction n as [|n IH]; intros ry Hry Hlt x y; [lia|].
  cbn [line_walk]. change (0 =? 0) with true. cbn [andb].
  replace (err >? - 0) with false
    by (symmetry; rewrite Z.gtb_ltb; apply Z.ltb_ge; lia).
  destruct (ry =? 0) eqn:Hz.
  - apply Z.eqb_eq in Hz as ->. cbn [In]. split.
    + intros [[= <- <-]|[]]. split; [lia|]. exists 0. lia.
    + intros [-> (k & Hk & ->)]. left. assert (k = 0) as -> by lia. f_equal; lia.
  - apply Z.eqb_neq in Hz.
    replace (err <? dy) with true by (symmetry; apply Z.ltb_lt; lia).
    cbn [In]. rewrite Z.add_0_r, IH by lia. split.
    + intros [[= <- <-]|[-> (k & Hk & ->)]].
      * split; [lia|]. exists ry. lia.
      * split; [done|]. exists k. lia.
    + intros [-> (k & Hk & ->)].
      destruct (decide (k = ry)) as [->|Hne].
      * left. f_equal. lia.
      * right. split; [done|]. exists k. lia.
Qed.

Lemma In_line_points_vertical x y1 y2 x' y' :
  In (x', y') (line_points x y1 x y2)
  ↔ x' = x ∧ Z.min y1 y2 ≤ y' ≤ Z.max y1 y2.
Proof.
  unfold line_points.
  replace (x >? x) with false by (symmetry; rewrite Z.gtb_ltb; apply Z.ltb_irrefl).
  cbv iota zeta. rewrite Z.sub_diag, Z.add_0_l.
  pose proof (line_err0_y_major 0 (Z.abs (y2 - y1)) ltac:(lia)) as Hh.
  rewrite line_walk_vertical by lia.
  destruct (y1 <? y2) eqn:E; [apply Z.ltb_lt in E | apply Z.ltb_ge in E].
  - split.
    + intros [-> (k & Hk & ->)]. lia.
    + intros [-> Hy]. split; [done|]. exists (y2 - y'). lia.
  - split.
    + intros [-> (k & Hk & ->)]. lia.
    + intros [-> Hy]. split; [done|]. exists (y' - y2). lia.
Qed.

(** The two directions name the same points. *)
Lemma line_points_sym x1 y1 x2 y2 pt :
  In pt (line_points x1 y1 x2 y2) ↔ In pt (line_points x2 y2 x1 y1).
Proof.
  destruct (Z.lt_trichotomy x1 x2) as [Hlt|[->|Hgt]].
  - unfold line_points.
    replace (x1 >? x2) with false by (symmetry; rewrite Z.gtb_ltb; apply Z.ltb_ge; lia).
    replace (x2 >? x1) with true by (symmetry; apply Z.gtb_lt; lia).
    reflexivity.
  - destruct pt as [x y]. rewrite !In_line_points_vertical. lia.
  - unfold line_points.
    replace (x1 >? x2) with true by (symmetry; apply Z.gtb_lt; lia).
    replace (x2 >? x1) with false by (symmetry; rewrite Z.gtb_ltb; apply Z.ltb_ge; lia).
    reflexivity.
Qed.

(** [drawLine] is independent of the order of its end points wherever both
    deltas fit [int16_t]: the two calls return the same flag, leave the
    same panel, and invoke [setPoint] on the same set of points. *)
Theorem drawLine_direction_symmetry
    (fuel : nat) (x1 y1 x2 y2 : Z) (state : bool) (w : World) :
  is_u16 x1 → is_u16 y1 → is_u16 x2 → is_u16 y2 →
  Z.abs (x2 - x1) ≤ 32767 → Z.abs (y2 - y1) ≤ 32767 →
  (Z.to_nat (Z.abs (x2 - x1) + Z.abs (y2 - y1)) < fuel)%nat →
  ∃ b w12 w21,
    drawLine fuel x1 y1 x2 y2 state w = Some (b, w12) ∧
    drawLine fuel x2 y2 x1 y1 state w = Some (b, w21) ∧
    panel w12 = panel w21 ∧
    ∀ c, In c (calls w12) ↔ In c (calls w21).
Proof.
  intros Hx1 Hy1 Hx2 Hy2 Hdx Hdy Hfuel.
  rewrite (drawLine_run fuel x1 y1 x2 y2) by done.
  rewrite (drawLine_run fuel x2 y2 x1 y1) by (try done; lia).
  pose proof (run_points_same_elements _ _ state true (panel (suspend w))
                (line_points_sym x1 y1 x2 y2)) as Hrun.
  eexists _, _, _. split; [reflexivity|]. split; [|split].
  - unfold plotted; cbn [fst snd]. by rewrite Hrun.
  - unfold plotted, resume; cbn [fst snd panel]. by rewrite Hrun.
  - intros c. unfold plotted, resume; cbn [fst snd calls].
    rewrite !in_app_iff, <- !in_rev. unfold calls_of. rewrite !in_map_iff.
    split; (intros [(pt & Hc & Hpt)|Hold]; [left|by right]);
      exists pt; (split; [done|]); by apply line_points_sym.
Qed.

(** With [dx = 0], [dy = -32768] and [err = 0] neither branch of the loop
    body fires: the running point never moves. *)
Lemma drawLine_loop_stuck fuel : ∀ x2 y2 sy state x1 y1 b w,
  (x1 =? x2) && (y1 =? y2) = false →
  drawLine_loop fuel x2 y2 0 (-32768) 1 sy state x1 y1 0 b w = None.
Proof.
  induction fuel as [|fuel IH]; intros x2 y2 sy state x1 y1 b w Hne;
    cbn [drawLine_loop]; [reflexivity|].
  rewrite (M_bind_Some _ _ _ _ _ (setPoint_run x1 y1 state w)).
  cbv beta zeta. rewrite Hne.
  change (0 >? - 0) with false. change (0 <? -32768) with false. cbv iota.
  by apply IH.
Qed.

(** Claim C7, at the input where it fails.  Between (0, 0) and (0, 32768)
    [drawLine] never returns, in either direction. *)
Theorem drawLine_never_returns_on_32768_rows (fuel : nat) :
  drawLine fuel 0 0 0 32768 true world_4x5 = None ∧
  drawLine fuel 0 32768 0 0 true world_4x5 = None.
Proof.
  split.
  - change (drawLine fuel 0 0 0 32768 true)
      with (D_control_UPDATE false ;;
            b ← drawLine_loop fuel 0 32768 0 (-32768) 1 1 true 0 0 0 true;
            p ← get_panel; update (_updateEnabled p) ;; ret b).
    by apply bracket_None, drawLine_loop_stuck.
  - change (drawLine fuel 0 32768 0 0 true)
      with (D_control_UPDATE false ;;
            b ← drawLine_loop fuel 0 0 0 (-32768) 1 (-1) true 0 32768 0 true;
            p ← get_panel; update (_updateEnabled p) ;; ret b).
    by apply bracket_None, drawLine_loop_stuck.
Qed.

(** ** Instances on concrete panels *)

Example getXMax_getYMax_4x5 :
  getXMax panel_4x5 = 31 ∧ getYMax panel_4x5 = 39 ∧
  getXMax panel_4x5_rotated = 39 ∧ getYMax panel_4x5_rotated = 31.
Proof. repeat split. Qed.

(** The origin maps to row 7 of column 31: columns are counted from the
    right-hand end of each row of devices, rows from the top of a device. *)
Example address_4x5 :
  address panel_4x5 0 0 = (7, 31) ∧ address panel_4x5 31 0 = (7, 0) ∧
  address panel_4x5 0 8 = (7, 63) ∧ address panel_4x5 31 39 = (0, 128) ∧
  address panel_4x5_rotated 0 0 = (0, 159) ∧
  address panel_4x5_rotated 39 31 = (7, 0).
Proof. repeat split. Qed.

Example midpoint_offsets_5 :
  midpoint_offsets 5 = [(0, 5); (1, 5); (2, 5); (3, 4); (4, 3)].
Proof. reflexivity. Qed.

Example line_points_0_0_7_3 :
  line_points 0 0 7 3
  = [(0, 0); (1, 0); (2, 1); (3, 1); (4, 2); (5, 2); (6, 3); (7, 3)] ∧
  line_points 7 3 0 0 = line_points 0 0 7 3 ∧
  line_points 2 9 4 0
  = [(2, 9); (2, 8); (2, 7); (3, 6); (3, 5); (3, 4); (3, 3); (4, 2); (4, 1); (4, 0)].
Proof. repeat split. Qed.

Lemma panel_4x5_wf : panel_wf panel_4x5.
Proof. unfold panel_wf; cbn; lia. Qed.

Lemma panel_4x5_fits : chain_fits panel_4x5.
Proof. unfold chain_fits; cbn; lia. Qed.

Lemma panel_4x5_columns : columns_fit panel_4x5.
Proof. unfold columns_fit; cbn; lia. Qed.

(** The end-to-end example of the specification: on the unrotated 4x5
    panel [drawHLine(17, 0, 39)] returns [false] and lights the whole row. *)
Lemma drawHLine_scoreboard_example :
  ∃ w', drawHLine 41 17 0 39 true world_4x5 = Some (false, w') ∧
        ∀ i, 0 ≤ i ≤ 31 → getPoint (panel w') i 17 = true.
Proof.
  destruct (drawHLine_draws_row 41 17 0 39 true world_4x5)
    as (b & w' & Hrun & Hset & Hb);
    [apply panel_4x5_wf | apply panel_4x5_fits | unfold is_u16; lia ..| lia | lia |].
  assert (b = false) as ->.
  { apply Hb. exists 39. split; [lia|]. intros [Hx _]. vm_compute in Hx. tauto. }
  exists w'. split; [exact Hrun|].
  intros i Hi. apply Hset; [lia|].
  unfold in_range. change (getXMax (panel world_4x5)) with 31.
  change (getYMax (panel world_4x5)) with 39. lia.
Qed.

(** The circle example of the specification, on the blank 4x5 panel:
    [drawCircle(16, 16, 5)] lights exactly the points the algorithm
    generates from [pk = -7]. *)
Lemma drawCircle_16_16_5_example :
  ∃ w', drawCircle 16 6 16 16 5 true world_4x5 = Some (false, w') ∧
        ∀ x y, in_range panel_4x5 x y →
          (getPoint (panel w') x y = true
           ↔ In (x, y) (flat_map (eight_points 16 16)
                                 ((0, 5) :: midpoint_steps 5 0 5 (-7)))).
Proof.
  rewrite drawCircle_run by (unfold is_u16; cbn; lia).
  eexists. split; [reflexivity|]. intros x y Hin.
  destruct (plotted_picture (map as_u16 (midpoint_circle 16 16 5)) true world_4x5 x y
              panel_4x5_wf panel_4x5_fits panel_4x5_columns
              (as_u16_nonneg _) Hin) as [Hon Hoff].
  change (map as_u16 (midpoint_circle 16 16 5))
    with (flat_map (eight_points 16 16) ((0, 5) :: midpoint_steps 5 0 5 (-7))) in *.
  split; [|exact (Hon)].
  intros Hlit.
  destruct (decide ((x, y) ∈ flat_map (eight_points 16 16)
                                       ((0, 5) :: midpoint_steps 5 0 5 (-7))))
    as [HIn|Hnot]; [by apply list_elem_of_In|].
  rewrite Hoff in Hlit by (by rewrite <- list_elem_of_In).
  unfold getPoint, MD_MAX72XX.getPoint in Hlit; cbn in Hlit.
  destruct (_ || _); [discriminate|].
  rewrite andb_false_r in Hlit. discriminate.
Qed.

(** Claim C6, at an input where it fails.  With a 16-bit [int],
    [int y = r] stores [-25536] for [r = 40000], so [while (x < y)] is never
    entered: whatever the iteration budget, [drawCircle(0, 40000, 40000)] on
    the blank 4x5 panel hands only the eight points of the starting offset
    to [setPoint] and leaves [(1, 0)] dark, although the second offset of
    the algorithm, [(1, 40000)], gives the in-range point [(1, 0)].  With a
    32-bit [int] the same call lights it. *)
Theorem drawCircle_skips_the_loop_with_16_bit_int :
  ∃ w16 w32,
    (∀ fuel, drawCircle 16 (S fuel) 0 40000 40000 true world_4x5
             = Some (false, w16)) ∧
    rev (calls w16)
    = calls_of (map as_u16 (eight_points 0 40000 (0, 40000))) true ∧
    getPoint (panel w16) 1 0 = false ∧
    nth 1 (midpoint_offsets 40000) (0, 0) = (1, 40000) ∧
    In (1, 0) (midpoint_circle 0 40000 40000) ∧
    in_range (panel world_4x5) 1 0 ∧
    drawCircle 32 (Z.to_nat 40001) 0 40000 40000 true world_4x5
    = Some (false, w32) ∧
    getPoint (panel w32) 1 0 = true.
Proof.
  assert (Hoff : nth 1 (midpoint_offsets 40000) (0, 0) = (1, 40000)).
  { vm_compute. reflexivity. }
  assert (HIn : In (1, 0) (midpoint_circle 0 40000 40000)).
  { apply list_elem_of_In, (bool_decide_unpack _). vm_compute. exact I. }
  assert (Hin : in_range (panel world_4x5) 1 0).
  { apply in_rangeb_spec. reflexivity. }
  eexists _, _. split; [intros fuel; vm_compute; reflexivity|].
  split; [vm_compute; reflexivity|]. split; [vm_compute; reflexivity|].
  repeat (split; [assumption|]).
  split; [apply drawCircle_run; unfold is_u16; try lia; reflexivity|].
  apply (plotted_picture _ true world_4x5 1 0 panel_4x5_wf panel_4x5_fits
           panel_4x5_columns (as_u16_nonneg _) Hin).
  apply (in_map as_u16 _ (1, 0)), HIn.
Qed.

Lemma getXMax_getYMax_by_rotation_witness :
  panel_wf panel_4x5_rotated ∧
  (_rotatedDisplay panel_4x5_rotated = false →
     getXMax panel_4x5_rotated = 4 * 8 - 1 ∧ getYMax panel_4x5_rotated = 5 * 8 - 1) ∧
  (_rotatedDisplay panel_4x5_rotated = true →
     getXMax panel_4x5_rotated = 5 * 8 - 1 ∧ getYMax panel_4x5_rotated = 4 * 8 - 1).
Proof.
  assert (H : panel_wf panel_4x5_rotated) by (unfold panel_wf; simpl; lia).
  split; [exact H | exact (getXMax_getYMax_by_rotation panel_4x5_rotated H)].
Defined.

Lemma out_of_range_point_access_witness :
  (39 > getXMax panel_4x5 ∨ 17 > getYMax panel_4x5) ∧
  setPoint 39 17 true (mkWorld panel_4x5 [])
    = Some (false, mkWorld panel_4x5 [mkCall 39 17 true]) ∧
  getPoint panel_4x5 39 17 = false.
Proof.
  assert (H : 39 > getXMax panel_4x5 ∨ 17 > getYMax panel_4x5)
    by (left; vm_compute; reflexivity).
  split; [exact H | exact (out_of_range_point_access panel_4x5 [] 39 17 true H)].
Defined.

Lemma setPoint_getPoint_roundtrip_witness :
  panel_wf panel_4x5 ∧ chain_fits panel_4x5 ∧ in_range panel_4x5 31 17 ∧
  ∃ w1 w2,
    setPoint 31 17 true (mkWorld panel_4x5 []) = Some (true, w1) ∧
    getPoint (panel w1) 31 17 = true ∧
    setPoint 31 17 false w1 = Some (true, w2) ∧
    getPoint (panel w2) 31 17 = false.
Proof.
  assert (Hwf : panel_wf panel_4x5) by (unfold panel_wf; simpl; lia).
  assert (Hfit : chain_fits panel_4x5) by (unfold chain_fits; simpl; lia).
  assert (Hin : in_range panel_4x5 31 17)
    by (apply in_rangeb_spec; vm_compute; reflexivity).
  repeat (split; [assumption|]).
  exact (setPoint_getPoint_roundtrip panel_4x5 [] 31 17 Hwf Hfit Hin).
Defined.

Lemma translated_address_in_bounds_witness :
  panel_wf panel_4x5_rotated ∧ in_range panel_4x5_rotated 39 17 ∧
  0 ≤ Y2Row panel_4x5_rotated 39 17 ≤ 7 ∧
  0 ≤ X2Col panel_4x5_rotated 39 17 ≤ 8 * 4 * 5 - 1 ∧
  (chain_fits panel_4x5_rotated →
   MD_MAX72XX.valid (_D panel_4x5_rotated) (u8 (Y2Row panel_4x5_rotated 39 17))
                    (X2Col panel_4x5_rotated 39 17) = true).
Proof.
  assert (Hwf : panel_wf panel_4x5_rotated) by (unfold panel_wf; simpl; lia).
  assert (Hin : in_range panel_4x5_rotated 39 17)
    by (apply in_rangeb_spec; vm_compute; reflexivity).
  repeat (split; [assumption|]).
  exact (translated_address_in_bounds panel_4x5_rotated 39 17 Hwf Hin).
Defined.

Lemma drawVLine_terminates_with_call_count_witness :
  panel_wf (panel world_4x5) ∧ is_u16 19 ∧ 0 ≤ 0 ∧ 0 ≤ 17 ∧ Z.max 0 17 ≤ 254 ∧
  (Z.to_nat (Z.max 0 17 - Z.min 0 17) + 1 < 20)%nat ∧
  ∃ b w',
    drawVLine 20 19 0 17 true world_4x5 = Some (b, w') ∧
    calls w' = rev (calls_of (vline_points 19 0 17) true) ++ calls world_4x5 ∧
    Z.of_nat (length (calls w')) =
      Z.of_nat (length (calls world_4x5)) + (Z.max 0 17 - Z.min 0 17 + 1).
Proof.
  assert (Hwf : panel_wf (panel world_4x5)) by (unfold panel_wf; simpl; lia).
  assert (Hx : is_u16 19) by (unfold is_u16; lia).
  assert (H1 : 0 ≤ 0) by lia.
  assert (H2 : 0 ≤ 17) by lia.
  assert (Hmax : Z.max 0 17 ≤ 254) by lia.
  assert (Hfuel : (Z.to_nat (Z.max 0 17 - Z.min 0 17) + 1 < 20)%nat) by lia.
  repeat (split; [assumption|]).
  exact (drawVLine_terminates_with_call_count 20 19 0 17 true world_4x5
           Hwf Hx H1 H2 Hmax Hfuel).
Defined.

Lemma drawCircle_midpoint_algorithm_witness :
  16 ≤ 16 ∧ is_u16 16 ∧ is_u16 5 ∧ 4 * 5 + 8 < 2 ^ (16 - 1) ∧
  panel_wf (panel world_4x5) ∧ (Z.to_nat 5 < 6)%nat ∧
  let pts := map as_u16 (midpoint_circle 16 16 5) in
  ∃ b w',
    drawCircle 16 6 16 16 5 true world_4x5 = Some (b, w') ∧
    calls w' = rev (calls_of pts true) ++ calls world_4x5 ∧
    (chain_fits (panel world_4x5) → columns_fit (panel world_4x5) →
     ∀ x y, in_range (panel world_4x5) x y →
       (In (x, y) pts → getPoint (panel w') x y = true) ∧
       (¬ In (x, y) pts →
        getPoint (panel w') x y = getPoint (panel world_4x5) x y)) ∧
    (16 = 16 → 16 = 16 → 5 = 5 →
     pts = flat_map (eight_points 16 16) ((0, 5) :: midpoint_steps 5 0 5 (-7))).
Proof.
  assert (Hw : 16 ≤ 16) by lia.
  assert (Hc : is_u16 16) by (unfold is_u16; lia).
  assert (Hr : is_u16 5) by (unfold is_u16; lia).
  assert (Hbig : 4 * 5 + 8 < 2 ^ (16 - 1)) by (simpl; lia).
  assert (Hwf : panel_wf (panel world_4x5)) by (unfold panel_wf; simpl; lia).
  assert (Hfuel : (Z.to_nat 5 < 6)%nat) by lia.
  repeat (split; [assumption|]).
  exact (drawCircle_midpoint_algorithm 16 6 16 16 5 true world_4x5
           Hw Hc Hc Hr Hbig Hwf Hfuel).
Defined.

(** * Further properties of the code *)

(** ** Shapes: what a whole drawing operation leaves behind *)

Lemma settle_settle p : settle (settle p) = settle p.
Proof. reflexivity. Qed.

Lemma settle_paint p S state :
  settle (paint (settle p) S state) = settle (paint p S state).
Proof. reflexivity. Qed.

Lemma settle_geometry p : same_geometry p (settle p).
Proof. repeat split. Qed.

Lemma settle_suspend w S state :
  settle (paint (panel (suspend w)) S state) = settle (paint (panel w) S state).
Proof. reflexivity. Qed.

Lemma hits_geometry p q pts :
  same_geometry p q → ⋃ (hit q <$> pts) = ⋃ (hit p <$> pts) :> gset (Z * Z).
Proof.
  intros Hg. induction pts as [|pt pts IH]; [done|].
  cbn. by rewrite IH, (same_geometry_hit p q pt Hg).
Qed.

Lemma results_geometry p q pts state :
  same_geometry p q →
  forallb (λ pt, setPoint_result q pt.1 pt.2 state) pts
  = forallb (λ pt, setPoint_result p pt.1 pt.2 state) pts.
Proof.
  intros Hg. induction pts as [|pt pts IH]; [done|].
  cbn. by rewrite IH, (same_geometry_setPoint_result p q _ _ state Hg).
Qed.

(** The bracketed run of the primitives is a shape outcome. *)
Lemma plotted_shape pts state w :
  ((plotted pts state true (suspend w)).1,
   resume (plotted pts state true (suspend w)).2)
  = shape_outcome pts state w.
Proof.
  unfold shape_outcome, plotted, resume; cbn [fst snd panel calls].
  rewrite run_points_result, andb_true_l, run_points_paint.
  rewrite (hits_geometry (panel w) (panel (suspend w))) by repeat split.
  rewrite (results_geometry (panel w) (panel (suspend w))) by repeat split.
  reflexivity.
Qed.

Lemma shape_outcome_geometry pts state w :
  same_geometry (panel w) (panel (shape_outcome pts state w).2).
Proof. repeat split. Qed.

(** Two shapes in a row are the shape of all their points. *)
Lemma shape_outcome_seq pts1 pts2 state w :
  let o1 := shape_outcome pts1 state w in
  let o2 := shape_outcome pts2 state o1.2 in
  (o1.1 && o2.1, o2.2) = shape_outcome (pts1 ++ pts2) state w.
Proof.
  cbv zeta. unfold shape_outcome; cbn [fst snd panel calls].
  set (p1 := settle (paint (panel w) (⋃ (hit (panel w) <$> pts1)) state)).
  assert (Hg : same_geometry (panel w) p1) by repeat split.
  rewrite (results_geometry (panel w) p1 pts2 state Hg),
    (hits_geometry (panel w) p1 pts2 Hg).
  rewrite forallb_app. f_equal. f_equal.
  - unfold p1. rewrite settle_paint, paint_paint.
    by rewrite fmap_app, union_list_app_L.
  - unfold calls_of. rewrite map_app, rev_app_distr, app_assoc. reflexivity.
Qed.

Lemma shape_outcome_nil state w :
  shape_outcome [] state w = (true, mkWorld (settle (panel w)) (calls w)).
Proof.
  unfold shape_outcome; cbn. by rewrite paint_empty.
Qed.

(** An enclosing bracket changes nothing: the shape is settled already. *)
Lemma bracket_shape (body : M bool) pts state w :
  body (suspend w) = Some (shape_outcome pts state (suspend w)) →
  (D_control_UPDATE false ;;
   b ← body; p ← get_panel; update (_updateEnabled p) ;; ret b) w
  = Some (shape_outcome pts state w).
Proof.
  intros Hbody. erewrite bracket_run by exact Hbody.
  unfold shape_outcome; cbn [fst snd panel calls].
  rewrite (hits_geometry (panel w) (panel (suspend w))) by repeat split.
  rewrite (results_geometry (panel w) (panel (suspend w))) by repeat split.
  reflexivity.
Qed.

Lemma shape_outcome_suspend pts state w :
  shape_outcome pts state (suspend w) = shape_outcome pts state w.
Proof.
  unfold shape_outcome; cbn [fst snd panel calls].
  rewrite (hits_geometry (panel w) (panel (suspend w))) by repeat split.
  rewrite (results_geometry (panel w) (panel (suspend w))) by repeat split.
  reflexivity.
Qed.

Lemma resume_shape pts state w :
  resume (shape_outcome pts state w).2 = (shape_outcome pts state w).2.
Proof. reflexivity. Qed.

Lemma finish_bracket (b : bool) w :
  (p ← get_panel; update (_updateEnabled p) ;; ret b) w = Some (b, resume w).
Proof. reflexivity. Qed.

(** The primitives draw their points. *)
Lemma drawHLine_draws fuel y x1 x2 state :
  is_u16 x1 → is_u16 x2 → Z.max x1 x2 ≤ 65534 →
  (Z.to_nat (Z.max x1 x2 - Z.min x1 x2) + 1 < fuel)%nat →
  draws (drawHLine fuel y x1 x2 state) (hline_points y x1 x2) state.
Proof. intros ???? w. by rewrite drawHLine_run, plotted_shape. Qed.

Lemma drawVLine_draws fuel x y1 y2 state :
  0 ≤ y1 → 0 ≤ y2 → Z.max y1 y2 ≤ 254 →
  (Z.to_nat (Z.max y1 y2 - Z.min y1 y2) + 1 < fuel)%nat →
  draws (drawVLine fuel x y1 y2 state) (vline_points x y1 y2) state.
Proof. intros ???? w. by rewrite drawVLine_run, plotted_shape. Qed.

Lemma drawLine_draws fuel x1 y1 x2 y2 state :
  is_u16 x1 → is_u16 y1 → is_u16 x2 → is_u16 y2 →
  Z.abs (x2 - x1) ≤ 32767 → Z.abs (y2 - y1) ≤ 32767 →
  (Z.to_nat (Z.abs (x2 - x1) + Z.abs (y2 - y1)) < fuel)%nat →
  draws (drawLine fuel x1 y1 x2 y2 state) (line_points x1 y1 x2 y2) state.
Proof. intros ??????? w. by rewrite drawLine_run, plotted_shape. Qed.

Lemma M_bind_outcome {A B} (m : M A) (k : A → M B) w o :
  m w = Some o → (m ≫= k) w = k o.1 o.2.
Proof. destruct o. apply M_bind_Some. Qed.

(** [b &= op1; b &= op2; b &= op3] inside a bracket. *)
Lemma draws_three (op1 op2 op3 : M bool) pts1 pts2 pts3 state :
  draws op1 pts1 state → draws op2 pts2 state → draws op3 pts3 state →
  draws (D_control_UPDATE false ;;
         r1 ← op1; r2 ← op2; r3 ← op3;
         p ← get_panel; update (_updateEnabled p) ;;
         ret (true && r1 && r2 && r3))
        (pts1 ++ pts2 ++ pts3) state.
Proof.
  intros H1 H2 H3 w.
  rewrite (M_bind_Some _ _ w tt (suspend w)) by reflexivity.
  rewrite (M_bind_outcome _ _ _ _ (H1 _)).
  rewrite (M_bind_outcome _ _ _ _ (H2 _)).
  rewrite (M_bind_outcome _ _ _ _ (H3 _)).
  rewrite finish_bracket, resume_shape.
  rewrite <- (shape_outcome_suspend (pts1 ++ pts2 ++ pts3)).
  rewrite <- (shape_outcome_seq pts1 (pts2 ++ pts3)).
  rewrite <- (shape_outcome_seq pts2 pts3).
  cbn [fst snd]. by rewrite !andb_assoc.
Qed.

Lemma draws_four (op1 op2 op3 op4 : M bool) pts1 pts2 pts3 pts4 state :
  draws op1 pts1 state → draws op2 pts2 state →
  draws op3 pts3 state → draws op4 pts4 state →
  draws (D_control_UPDATE false ;;
         r1 ← op1; r2 ← op2; r3 ← op3; r4 ← op4;
         p ← get_panel; update (_updateEnabled p) ;;
         ret (true && r1 && r2 && r3 && r4))
        (pts1 ++ pts2 ++ pts3 ++ pts4) state.
Proof.
  intros H1 H2 H3 H4 w.
  rewrite (M_bind_Some _ _ w tt (suspend w)) by reflexivity.
  rewrite (M_bind_outcome _ _ _ _ (H1 _)).
  rewrite (M_bind_outcome _ _ _ _ (H2 _)).
  rewrite (M_bind_outcome _ _ _ _ (H3 _)).
  rewrite (M_bind_outcome _ _ _ _ (H4 _)).
  rewrite finish_bracket, resume_shape.
  rewrite <- (shape_outcome_suspend (pts1 ++ pts2 ++ pts3 ++ pts4)).
  rewrite <- (shape_outcome_seq pts1 (pts2 ++ pts3 ++ pts4)).
  rewrite <- (shape_outcome_seq pts2 (pts3 ++ pts4)).
  rewrite <- (shape_outcome_seq pts3 pts4).
  cbn [fst snd]. by rewrite !andb_assoc.
Qed.

Lemma drawRectangle_draws fuel x1 y1 x2 y2 state :
  is_u16 x1 → is_u16 x2 → 0 ≤ y1 → 0 ≤ y2 →
  Z.max x1 x2 ≤ 65534 → Z.max y1 y2 ≤ 254 →
  (Z.to_nat (Z.max x1 x2 - Z.min x1 x2) + 1 < fuel)%nat →
  (Z.to_nat (Z.max y1 y2 - Z.min y1 y2) + 1 < fuel)%nat →
  draws (drawRectangle fuel x1 y1 x2 y2 state) (rectangle_points x1 y1 x2 y2) state.
Proof.
  intros. unfold drawRectangle, rectangle_points. cbv zeta.
  apply draws_four; auto using drawHLine_draws, drawVLine_draws.
Qed.

Lemma shape_picture pts state w :
  panel_wf (panel w) → chain_fits (panel w) → columns_fit (panel w) →
  Forall (λ pt, 0 ≤ pt.1 ∧ 0 ≤ pt.2) pts →
  let out := shape_outcome pts state w in
  (out.1 = true ↔ ∀ pt, In pt pts → in_range (panel w) pt.1 pt.2) ∧
  (∀ x y, in_range (panel w) x y →
     (In (x, y) pts → getPoint (panel out.2) x y = state) ∧
     (¬ In (x, y) pts → getPoint (panel out.2) x y = getPoint (panel w) x y)) ∧
  same_geometry (panel w) (panel out.2) ∧
  _updateEnabled (panel out.2) = _updateEnabled (panel w) ∧
  MD_MAX72XX.updateOn (_D (panel out.2)) = _updateEnabled (panel w).
Proof.
  intros Hwf Hfit Hcol Hpts out. split; [|split; [|split; [|split]]].
  - unfold out, shape_outcome; cbn [fst]. rewrite forallb_forall.
    rewrite Forall_forall in Hpts.
    split; intros H pt HIn; specialize (H pt HIn);
      destruct (Hpts pt ltac:(by apply list_elem_of_In)) as [H1 H2];
      rewrite setPoint_result_in_range in * by assumption;
      by apply in_rangeb_spec.
  - intros x y Hin. unfold out. rewrite <- plotted_shape. cbn [snd].
    by apply plotted_picture.
  - unfold out. rewrite <- plotted_shape. cbn [snd].
    by destruct (plotted_outcome pts state w Hwf Hfit Hpts) as (_ & _ & Hg & _).
  - reflexivity.
  - reflexivity.
Qed.

Lemma hits_same_elements p (pts1 pts2 : list (Z * Z)) :
  (∀ pt, In pt pts1 ↔ In pt pts2) →
  ⋃ (hit p <$> pts1) = ⋃ (hit p <$> pts2).
Proof.
  intros H. apply set_eq. intros a. rewrite !elem_of_union_list.
  split; intros (S & HS & Ha); exists S; (split; [|done]);
    apply list_elem_of_fmap in HS as (pt & -> & Hpt);
    apply list_elem_of_fmap; exists pt; (split; [done|]);
    apply list_elem_of_In, H, list_elem_of_In, Hpt.
Qed.

(** Two operations that name the same points, in whatever order and
    however often, answer alike and leave the same panel. *)
Lemma shape_outcome_same_elements pts1 pts2 state w :
  (∀ pt, In pt pts1 ↔ In pt pts2) →
  (shape_outcome pts1 state w).1 = (shape_outcome pts2 state w).1 ∧
  panel (shape_outcome pts1 state w).2 = panel (shape_outcome pts2 state w).2.
Proof.
  intros H. unfold shape_outcome; cbn [fst snd panel]. split.
  - by apply forallb_same_elements.
  - by rewrite (hits_same_elements _ pts1 pts2 H).
Qed.

(** *** The walk of [drawLine] *)

(** One iteration of the walk with both tests written side by side. *)
Lemma line_walk_step n x2 y2 dx dy sy rx ry err :
  line_walk (S n) x2 y2 dx dy sy rx ry err
  = (x2 - rx, y2 - sy * ry) ::
    if (rx =? 0) && (ry =? 0) then []
    else line_walk n x2 y2 dx dy sy
           (if err >? - dx then rx - 1 else rx)
           (if err <? dy then ry - 1 else ry)
           ((if err >? - dx then err - dy else err) + (if err <? dy then dx else 0)).
Proof.
  cbn [line_walk]. destruct (err >? - dx), (err <? dy); rewrite ?Z.add_0_r; reflexivity.
Qed.

(** The walk never leaves the box spanned by its end points. *)
Lemma line_walk_box x2 y2 dx dy sy :
  dx ≤ 32767 → dy ≤ 32767 →
  ∀ (n : nat) rx ry err pt,
    line_inv dx dy rx ry err →
    In pt (line_walk n x2 y2 dx dy sy rx ry err) →
    ∃ a b, 0 ≤ a ≤ dx ∧ 0 ≤ b ≤ dy ∧ pt = (x2 - a, y2 - sy * b).
Proof.
  intros Hdx Hdy. induction n as [|n IH]; intros rx ry err pt Hinv HIn; [done|].
  rewrite line_walk_step in HIn. destruct HIn as [<-|HIn].
  { exists rx, ry. destruct Hinv as (? & ? & _). done. }
  destruct ((rx =? 0) && (ry =? 0)) eqn:Hz; [done|].
  assert (Hnz : ¬ (rx = 0 ∧ ry = 0)) by (intros [-> ->]; discriminate Hz).
  destruct (line_inv_step dx dy rx ry err Hdx Hdy Hinv Hnz) as (Hinv' & _ & _).
  by apply (IH _ _ _ _ Hinv').
Qed.

(** Given room, the walk arrives at the end point. *)
Lemma line_walk_arrives x2 y2 dx dy sy :
  dx ≤ 32767 → dy ≤ 32767 →
  ∀ (n : nat) rx ry err,
    line_inv dx dy rx ry err → rx + ry < Z.of_nat n →
    In (x2, y2) (line_walk n x2 y2 dx dy sy rx ry err).
Proof.
  intros Hdx Hdy. induction n as [|n IH]; intros rx ry err Hinv Hn.
  { destruct Hinv as (? & ? & _). lia. }
  rewrite line_walk_step.
  destruct ((rx =? 0) && (ry =? 0)) eqn:Hz.
  - apply andb_true_iff in Hz as [->%Z.eqb_eq ->%Z.eqb_eq]. left. f_equal; lia.
  - right.
    assert (Hnz : ¬ (rx = 0 ∧ ry = 0)) by (intros [-> ->]; discriminate Hz).
    destruct (line_inv_step dx dy rx ry err Hdx Hdy Hinv Hnz) as (Hinv' & Hless & _).
    apply IH; [done|lia].
Qed.

(** Every iteration advances along the longer side of the box, so the
    walk has one point per unit of it. *)
Lemma length_line_walk x2 y2 dx dy sy :
  dx ≤ 32767 → dy ≤ 32767 →
  ∀ (n : nat) rx ry err,
    line_inv dx dy rx ry err → rx + ry < Z.of_nat n →
    Z.of_nat (length (line_walk n x2 y2 dx dy sy rx ry err))
    = (if dy <? dx then rx else ry) + 1.
Proof.
  intros Hdx Hdy. induction n as [|n IH]; intros rx ry err Hinv Hn.
  { destruct Hinv as (? & ? & _). lia. }
  rewrite line_walk_step. cbn [length].
  destruct ((rx =? 0) && (ry =? 0)) eqn:Hz.
  { apply andb_true_iff in Hz as [->%Z.eqb_eq ->%Z.eqb_eq].
    cbn [length]. destruct (dy <? dx); lia. }
  assert (Hnz : ¬ (rx = 0 ∧ ry = 0)) by (intros [-> ->]; discriminate Hz).
  destruct (line_inv_step dx dy rx ry err Hdx Hdy Hinv Hnz) as (Hinv' & Hless & _).
  rewrite Nat2Z.inj_succ, (IH _ _ _ Hinv') by lia.
  pose proof (line_inv_end dx dy rx ry err Hinv) as Hend.
  destruct Hinv as (Hrx & Hry & Herr & Hx & Hy).
  destruct (dy <? dx) eqn:Hmaj; [apply Z.ltb_lt in Hmaj | apply Z.ltb_ge in Hmaj].
  - specialize (Hx Hmaj).
    replace (err >? - dx) with true by (symmetry; apply Z.gtb_lt; lia). lia.
  - assert (0 < dy) by (destruct (decide (dy = 0)); [exfalso; apply Hnz; lia | lia]).
    specialize (Hy Hmaj ltac:(lia)).
    replace (err <? dy) with true by (symmetry; apply Z.ltb_lt; lia). lia.
Qed.

(** [line_points] as a walk between ordered end points. *)
Lemma line_points_ordered x1 y1 x2 y2 :
  x1 ≤ x2 →
  line_points x1 y1 x2 y2
  = line_walk (S (Z.to_nat (x2 - x1 + Z.abs (y2 - y1)))) x2 y2
      (x2 - x1) (Z.abs (y2 - y1)) (if y1 <? y2 then 1 else -1)
      (x2 - x1) (Z.abs (y2 - y1)) (line_err0 (x2 - x1) (Z.abs (y2 - y1))).
Proof.
  intros H. unfold line_points.
  replace (x1 >? x2) with false by (symmetry; rewrite Z.gtb_ltb; apply Z.ltb_ge; lia).
  reflexivity.
Qed.

Lemma line_points_box x1 y1 x2 y2 x y :
  Z.abs (x2 - x1) ≤ 32767 → Z.abs (y2 - y1) ≤ 32767 →
  In (x, y) (line_points x1 y1 x2 y2) →
  Z.min x1 x2 ≤ x ≤ Z.max x1 x2 ∧ Z.min y1 y2 ≤ y ≤ Z.max y1 y2.
Proof.
  assert (Hord : ∀ x1 y1 x2 y2, x1 ≤ x2 →
            Z.abs (x2 - x1) ≤ 32767 → Z.abs (y2 - y1) ≤ 32767 →
            In (x, y) (line_points x1 y1 x2 y2) →
            Z.min x1 x2 ≤ x ≤ Z.max x1 x2 ∧ Z.min y1 y2 ≤ y ≤ Z.max y1 y2).
  { clear. intros x1 y1 x2 y2 Hle Hdx Hdy HIn.
    rewrite line_points_ordered in HIn by done.
    apply line_walk_box in HIn as (a & b & Ha & Hb & [= -> ->]);
      [| lia | lia | apply line_inv_start; lia].
    destruct (y1 <? y2) eqn:E; [apply Z.ltb_lt in E | apply Z.ltb_ge in E]; lia. }
  intros Hdx Hdy HIn.
  destruct (Z.le_gt_cases x1 x2) as [Hle|Hgt]; [by apply Hord|].
  apply line_points_sym in HIn. apply Hord in HIn; lia.
Qed.

Lemma line_points_ends x1 y1 x2 y2 :
  Z.abs (x2 - x1) ≤ 32767 → Z.abs (y2 - y1) ≤ 32767 →
  In (x1, y1) (line_points x1 y1 x2 y2) ∧ In (x2, y2) (line_points x1 y1 x2 y2).
Proof.
  assert (Hord : ∀ x1 y1 x2 y2, x1 ≤ x2 →
            Z.abs (x2 - x1) ≤ 32767 → Z.abs (y2 - y1) ≤ 32767 →
            In (x1, y1) (line_points x1 y1 x2 y2)
            ∧ In (x2, y2) (line_points x1 y1 x2 y2)).
  { intros a1 b1 a2 b2 Hle Hdx Hdy. rewrite line_points_ordered by done. split.
    - rewrite line_walk_step. left. f_equal; [lia|].
      destruct (b1 <? b2) eqn:E; [apply Z.ltb_lt in E | apply Z.ltb_ge in E]; lia.
    - apply line_walk_arrives; [lia|lia|apply line_inv_start; lia|lia]. }
  intros Hdx Hdy.
  destruct (Z.le_gt_cases x1 x2) as [Hle|Hgt]; [by apply Hord|].
  destruct (Hord x2 y2 x1 y1) as [H2 H1]; [lia..|].
  split; by apply line_points_sym.
Qed.

Lemma length_line_points x1 y1 x2 y2 :
  Z.abs (x2 - x1) ≤ 32767 → Z.abs (y2 - y1) ≤ 32767 →
  Z.of_nat (length (line_points x1 y1 x2 y2))
  = Z.max (Z.abs (x2 - x1)) (Z.abs (y2 - y1)) + 1.
Proof.
  intros Hdx Hdy. unfold line_points.
  destruct (x1 >? x2) eqn:Hswap;
    [apply Z.gtb_lt in Hswap | rewrite Z.gtb_ltb in Hswap; apply Z.ltb_ge in Hswap];
    (rewrite length_line_walk; [|lia|lia|apply line_inv_start; lia|lia]);
    match goal with |- context [?a <? ?b] => destruct (a <? b) eqn:E end;
    [apply Z.ltb_lt in E | apply Z.ltb_ge in E
    |apply Z.ltb_lt in E | apply Z.ltb_ge in E]; lia.
Qed.

Lemma line_points_nonneg x1 y1 x2 y2 :
  0 ≤ x1 → 0 ≤ y1 → 0 ≤ x2 → 0 ≤ y2 →
  Z.abs (x2 - x1) ≤ 32767 → Z.abs (y2 - y1) ≤ 32767 →
  Forall (λ pt, 0 ≤ pt.1 ∧ 0 ≤ pt.2) (line_points x1 y1 x2 y2).
Proof.
  intros ? ? ? ? Hdx Hdy. apply Forall_forall. intros [x y] HIn%list_elem_of_In.
  apply line_points_box in HIn; [|done..]. cbn. lia.
Qed.

(** With [dy = 0] the walk goes straight along the row, left to right. *)
Lemma line_walk_horizontal x2 y2 dx sy err :
  0 ≤ err → ∀ (n : nat) rx, 0 ≤ rx < Z.of_nat n → (0 < rx → - dx < err) →
  line_walk n x2 y2 dx 0 sy rx 0 err
  = map (λ i, (i, y2)) (seqZ (x2 - rx) (rx + 1)).
Proof.
  intros Herr. induction n as [|n IH]; intros rx Hrx Hgt; [lia|].
  rewrite line_walk_step. rewrite seqZ_cons by lia. cbn [map].
  rewrite Z.mul_0_r, Z.sub_0_r. f_equal.
  change (0 =? 0) with true. rewrite andb_true_r.
  destruct (rx =? 0) eqn:Hz.
  - apply Z.eqb_eq in Hz as ->. reflexivity.
  - apply Z.eqb_neq in Hz.
    replace (err >? - dx) with true by (symmetry; apply Z.gtb_lt; lia).
    replace (err <? 0) with false by (symmetry; apply Z.ltb_ge; lia).
    rewrite Z.sub_0_r, Z.add_0_r, IH by lia.
    do 2 f_equal; lia.
Qed.

Lemma line_points_horizontal y x1 x2 :
  line_points x1 y x2 y = hline_points y x1 x2.
Proof.
  assert (Hord : ∀ a b, a ≤ b →
            line_walk (S (Z.to_nat (b - a + Z.abs (y - y)))) b y (b - a)
              (Z.abs (y - y)) (if y <? y then 1 else -1) (b - a) (Z.abs (y - y))
              (line_err0 (b - a) (Z.abs (y - y)))
            = map (λ i, (i, y)) (seqZ a (b - a + 1))).
  { intros a b Hab. rewrite Z.sub_diag. change (Z.abs 0) with 0.
    assert (0 ≤ line_err0 (b - a) 0 ∧ (0 < b - a → - (b - a) < line_err0 (b - a) 0))
      as [He1 He2].
    { destruct (decide (b - a = 0)) as [->|Hne]; [by split|].
      pose proof (line_err0_x_major (b - a) 0 ltac:(lia)). lia. }
    rewrite line_walk_horizontal by (try done; lia).
    do 2 f_equal. lia. }
  unfold line_points, hline_points.
  destruct (x1 >? x2) eqn:Hswap;
    [apply Z.gtb_lt in Hswap | rewrite Z.gtb_ltb in Hswap; apply Z.ltb_ge in Hswap];
    rewrite Hord by lia; do 2 f_equal; lia.
Qed.

(** A line is all in range exactly when its two end points are. *)
Lemma line_points_in_range p x1 y1 x2 y2 :
  0 ≤ x1 → 0 ≤ y1 → 0 ≤ x2 → 0 ≤ y2 →
  Z.abs (x2 - x1) ≤ 32767 → Z.abs (y2 - y1) ≤ 32767 →
  (∀ pt, In pt (line_points x1 y1 x2 y2) → in_range p pt.1 pt.2)
  ↔ in_range p x1 y1 ∧ in_range p x2 y2.
Proof.
  intros ? ? ? ? Hdx Hdy.
  destruct (line_points_ends x1 y1 x2 y2 Hdx Hdy) as [He1 He2]. split.
  - intros Hall. split; [apply (Hall _ He1) | apply (Hall _ He2)].
  - intros [[Ha Hb] [Hc Hd]] [x y] HIn.
    apply line_points_box in HIn; [|done..]. unfold in_range. cbn. lia.
Qed.

(** *** Lines *)

Lemma shape_outcome_calls pts state w :
  Z.of_nat (length (calls (shape_outcome pts state w).2))
  = Z.of_nat (length (calls w)) + Z.of_nat (length pts).
Proof.
  unfold shape_outcome, calls_of; cbn [snd calls].
  rewrite length_app, length_rev, length_map. lia.
Qed.

(** [drawLine] between two points whose deltas fit [int16_t]: it returns
    after [max(|dx|, |dy|) + 1] invocations of [setPoint]; the result is
    [true] exactly when both end points are on the panel; the end points
    show [state]; nothing outside the box spanned by the end points
    changes. *)
Theorem drawLine_joins_its_end_points
    (fuel : nat) (x1 y1 x2 y2 : Z) (state : bool) (w : World) :
  panel_wf (panel w) → chain_fits (panel w) → columns_fit (panel w) →
  is_u16 x1 → is_u16 y1 → is_u16 x2 → is_u16 y2 →
  Z.abs (x2 - x1) ≤ 32767 → Z.abs (y2 - y1) ≤ 32767 →
  (Z.to_nat (Z.abs (x2 - x1) + Z.abs (y2 - y1)) < fuel)%nat →
  ∃ b w',
    drawLine fuel x1 y1 x2 y2 state w = Some (b, w') ∧
    (b = true ↔ in_range (panel w) x1 y1 ∧ in_range (panel w) x2 y2) ∧
    (in_range (panel w) x1 y1 → getPoint (panel w') x1 y1 = state) ∧
    (in_range (panel w) x2 y2 → getPoint (panel w') x2 y2 = state) ∧
    (∀ x y, in_range (panel w) x y →
       ¬ (Z.min x1 x2 ≤ x ≤ Z.max x1 x2 ∧ Z.min y1 y2 ≤ y ≤ Z.max y1 y2) →
       getPoint (panel w') x y = getPoint (panel w) x y) ∧
    Z.of_nat (length (calls w'))
    = Z.of_nat (length (calls w)) + Z.max (Z.abs (x2 - x1)) (Z.abs (y2 - y1)) + 1.
Proof.
  intros Hwf Hfit Hcol Hx1 Hy1 Hx2 Hy2 Hdx Hdy Hfuel.
  rewrite (drawLine_draws fuel x1 y1 x2 y2 state Hx1 Hy1 Hx2 Hy2 Hdx Hdy Hfuel w).
  unfold is_u16 in *.
  assert (Hpts : Forall (λ pt, 0 ≤ pt.1 ∧ 0 ≤ pt.2) (line_points x1 y1 x2 y2))
    by (apply line_points_nonneg; lia).
  destruct (shape_picture _ state w Hwf Hfit Hcol Hpts) as (Hb & Hpic & _).
  destruct (line_points_ends x1 y1 x2 y2 Hdx Hdy) as [He1 He2].
  exists (shape_outcome (line_points x1 y1 x2 y2) state w).1,
    (shape_outcome (line_points x1 y1 x2 y2) state w).2.
  split; [by rewrite <- surjective_pairing|]. split; [|split; [|split; [|split]]].
  - rewrite Hb. apply line_points_in_range; lia.
  - intros Hin. by apply (Hpic x1 y1 Hin).
  - intros Hin. by apply (Hpic x2 y2 Hin).
  - intros x y Hin Hout. apply (Hpic x y Hin). intros HIn. apply Hout.
    by apply line_points_box.
  - rewrite shape_outcome_calls, length_line_points by done. lia.
Qed.

(** A level [drawLine] no longer than 32767 columns, ending below the top
    of the 16-bit range, is [drawHLine]: both return, with the same
    invocations in the same order, the same result and the same panel. *)
Theorem drawLine_level_is_drawHLine
    (fuel : nat) (y x1 x2 : Z) (state : bool) (w : World) :
  is_u16 y → 0 ≤ x1 ≤ 65534 → 0 ≤ x2 ≤ 65534 → Z.abs (x2 - x1) ≤ 32767 →
  (Z.to_nat (Z.abs (x2 - x1)) + 1 < fuel)%nat →
  drawLine fuel x1 y x2 y state w = drawHLine fuel y x1 x2 state w
  ∧ ∃ b w', drawHLine fuel y x1 x2 state w = Some (b, w').
Proof.
  intros Hy Hx1 Hx2 Hdx Hfuel. unfold is_u16 in *.
  pose proof (drawHLine_draws fuel y x1 x2 state) as HH.
  split.
  - rewrite (drawLine_draws fuel x1 y x2 y state) by (unfold is_u16; lia).
    rewrite HH by (unfold is_u16; lia). by rewrite line_points_horizontal.
  - exists (shape_outcome (hline_points y x1 x2) state w).1,
      (shape_outcome (hline_points y x1 x2) state w).2.
    rewrite HH by (unfold is_u16; lia). by rewrite <- surjective_pairing.
Qed.

(** An upright [drawLine] of at most 255 rows leaves what [drawVLine]
    leaves, and returns what it returns. *)
Theorem drawLine_upright_is_drawVLine
    (fuel : nat) (x y1 y2 : Z) (state : bool) (w : World) :
  is_u16 x → 0 ≤ y1 ≤ 254 → 0 ≤ y2 ≤ 254 →
  (Z.to_nat (Z.abs (y2 - y1)) + 1 < fuel)%nat →
  ∃ b wl wv,
    drawLine fuel x y1 x y2 state w = Some (b, wl) ∧
    drawVLine fuel x y1 y2 state w = Some (b, wv) ∧
    panel wl = panel wv ∧
    length (calls wl) = length (calls wv).
Proof.
  intros Hx Hy1 Hy2 Hfuel. unfold is_u16 in *.
  rewrite (drawLine_draws fuel x y1 x y2 state) by (unfold is_u16; lia).
  rewrite (drawVLine_draws fuel x y1 y2 state) by lia.
  assert (Hsame : ∀ pt, In pt (line_points x y1 x y2) ↔ In pt (vline_points x y1 y2)).
  { intros [a b]. by rewrite In_line_points_vertical, In_vline_points. }
  destruct (shape_outcome_same_elements _ _ state w Hsame) as [Hb Hp].
  exists (shape_outcome (line_points x y1 x y2) state w).1,
    (shape_outcome (line_points x y1 x y2) state w).2,
    (shape_outcome (vline_points x y1 y2) state w).2.
  split; [by rewrite <- surjective_pairing|].
  split; [by rewrite Hb, <- surjective_pairing|]. split; [done|].
  apply Nat2Z.inj. rewrite !shape_outcome_calls, length_line_points by lia.
  rewrite length_vline_points. lia.
Qed.

(** [drawHLine] below the top of the 16-bit range: it returns after one
    invocation of [setPoint] per column; the result is [true] exactly when
    the row and the larger column are on the panel; an in-range point shows
    [state] if it lies on the segment and keeps its value otherwise. *)
Theorem drawHLine_changes_its_row_only
    (fuel : nat) (y x1 x2 : Z) (state : bool) (w : World) :
  panel_wf (panel w) → chain_fits (panel w) → columns_fit (panel w) →
  is_u16 y → 0 ≤ x1 ≤ 65534 → 0 ≤ x2 ≤ 65534 →
  (Z.to_nat (Z.abs (x2 - x1)) + 1 < fuel)%nat →
  ∃ b w',
    drawHLine fuel y x1 x2 state w = Some (b, w') ∧
    (b = true ↔ in_range (panel w) (Z.max x1 x2) y) ∧
    (∀ x y', in_range (panel w) x y' →
       getPoint (panel w') x y'
       = if bool_decide (y' = y ∧ Z.min x1 x2 ≤ x ≤ Z.max x1 x2)
         then state else getPoint (panel w) x y') ∧
    Z.of_nat (length (calls w'))
    = Z.of_nat (length (calls w)) + Z.abs (x2 - x1) + 1.
Proof.
  intros Hwf Hfit Hcol Hy Hx1 Hx2 Hfuel. unfold is_u16 in *.
  rewrite (drawHLine_draws fuel y x1 x2 state) by (unfold is_u16; lia).
  assert (Hpts : Forall (λ pt, 0 ≤ pt.1 ∧ 0 ≤ pt.2) (hline_points y x1 x2))
    by (apply hline_points_nonneg; lia).
  destruct (shape_picture _ state w Hwf Hfit Hcol Hpts) as (Hb & Hpic & _).
  exists (shape_outcome (hline_points y x1 x2) state w).1,
    (shape_outcome (hline_points y x1 x2) state w).2.
  split; [by rewrite <- surjective_pairing|]. split; [|split].
  - rewrite Hb. split.
    + intros Hall. apply (Hall (Z.max x1 x2, y)), In_hline_points. lia.
    + intros [? ?] [x y'] [-> ?]%In_hline_points. unfold in_range; cbn. lia.
  - intros x y' Hin. destruct (Hpic x y' Hin) as [Hon Hoff].
    case_bool_decide as Hc.
    + by apply Hon, In_hline_points.
    + apply Hoff. by rewrite In_hline_points.
  - rewrite shape_outcome_calls, length_hline_points. lia.
Qed.

(** [drawVLine] with rows up to 254: it returns; the result is [true]
    exactly when the column and the larger row are on the panel; an
    in-range point shows [state] if it lies on the segment and keeps its
    value otherwise. *)
Theorem drawVLine_changes_its_column_only
    (fuel : nat) (x y1 y2 : Z) (state : bool) (w : World) :
  panel_wf (panel w) → chain_fits (panel w) → columns_fit (panel w) →
  is_u16 x → 0 ≤ y1 ≤ 254 → 0 ≤ y2 ≤ 254 →
  (Z.to_nat (Z.abs (y2 - y1)) + 1 < fuel)%nat →
  ∃ b w',
    drawVLine fuel x y1 y2 state w = Some (b, w') ∧
    (b = true ↔ in_range (panel w) x (Z.max y1 y2)) ∧
    (∀ x' y, in_range (panel w) x' y →
       getPoint (panel w') x' y
       = if bool_decide (x' = x ∧ Z.min y1 y2 ≤ y ≤ Z.max y1 y2)
         then state else getPoint (panel w) x' y).
Proof.
  intros Hwf Hfit Hcol Hx Hy1 Hy2 Hfuel. unfold is_u16 in *.
  rewrite (drawVLine_draws fuel x y1 y2 state) by lia.
  assert (Hpts : Forall (λ pt, 0 ≤ pt.1 ∧ 0 ≤ pt.2) (vline_points x y1 y2))
    by (apply vline_points_nonneg; lia).
  destruct (shape_picture _ state w Hwf Hfit Hcol Hpts) as (Hb & Hpic & _).
  exists (shape_outcome (vline_points x y1 y2) state w).1,
    (shape_outcome (vline_points x y1 y2) state w).2.
  split; [by rewrite <- surjective_pairing|]. split.
  - rewrite Hb. split.
    + intros Hall. apply (Hall (x, Z.max y1 y2)), In_vline_points. lia.
    + intros [? ?] [x' y] [-> ?]%In_vline_points. unfold in_range; cbn. lia.
  - intros x' y Hin. destruct (Hpic x' y Hin) as [Hon Hoff].
    case_bool_decide as Hc.
    + by apply Hon, In_vline_points.
    + apply Hoff. by rewrite In_vline_points.
Qed.

(** *** Rectangles *)

Lemma In_rectangle_points x1 y1 x2 y2 x y :
  In (x, y) (rectangle_points x1 y1 x2 y2)
  ↔ Z.min x1 x2 ≤ x ≤ Z.max x1 x2 ∧ Z.min y1 y2 ≤ y ≤ Z.max y1 y2 ∧
    (x = x1 ∨ x = x2 ∨ y = y1 ∨ y = y2).
Proof.
  unfold rectangle_points.
  rewrite !in_app_iff, !In_hline_points, !In_vline_points. lia.
Qed.

Lemma rectangle_points_nonneg x1 y1 x2 y2 :
  0 ≤ x1 → 0 ≤ y1 → 0 ≤ x2 → 0 ≤ y2 →
  Forall (λ pt, 0 ≤ pt.1 ∧ 0 ≤ pt.2) (rectangle_points x1 y1 x2 y2).
Proof.
  intros. apply Forall_forall. intros [x y] HIn%list_elem_of_In.
  apply In_rectangle_points in HIn. cbn. lia.
Qed.

(** [drawRectangle] on corners below the top of the counters' ranges: it
    returns; the result is [true] exactly when both corners are on the
    panel; the in-range points of the outline show [state]; every other
    in-range point keeps its value; the redraw switch of the driver ends
    as the auto-update flag says. *)
Theorem drawRectangle_draws_the_outline
    (fuel : nat) (x1 y1 x2 y2 : Z) (state : bool) (w : World) :
  panel_wf (panel w) → chain_fits (panel w) → columns_fit (panel w) →
  0 ≤ x1 ≤ 65534 → 0 ≤ x2 ≤ 65534 → 0 ≤ y1 ≤ 254 → 0 ≤ y2 ≤ 254 →
  (Z.to_nat (Z.abs (x2 - x1)) + 1 < fuel)%nat →
  (Z.to_nat (Z.abs (y2 - y1)) + 1 < fuel)%nat →
  ∃ b w',
    drawRectangle fuel x1 y1 x2 y2 state w = Some (b, w') ∧
    (b = true ↔ in_range (panel w) x1 y1 ∧ in_range (panel w) x2 y2) ∧
    (∀ x y, in_range (panel w) x y →
       getPoint (panel w') x y
       = if bool_decide (Z.min x1 x2 ≤ x ≤ Z.max x1 x2 ∧
                         Z.min y1 y2 ≤ y ≤ Z.max y1 y2 ∧
                         (x = x1 ∨ x = x2 ∨ y = y1 ∨ y = y2))
         then state else getPoint (panel w) x y) ∧
    _updateEnabled (panel w') = _updateEnabled (panel w) ∧
    MD_MAX72XX.updateOn (_D (panel w')) = _updateEnabled (panel w).
Proof.
  intros Hwf Hfit Hcol Hx1 Hx2 Hy1 Hy2 Hfx Hfy.
  rewrite (drawRectangle_draws fuel x1 y1 x2 y2 state)
    by (unfold is_u16; lia).
  assert (Hpts : Forall (λ pt, 0 ≤ pt.1 ∧ 0 ≤ pt.2) (rectangle_points x1 y1 x2 y2))
    by (apply rectangle_points_nonneg; lia).
  destruct (shape_picture _ state w Hwf Hfit Hcol Hpts) as (Hb & Hpic & _ & Hu & Hd).
  exists (shape_outcome (rectangle_points x1 y1 x2 y2) state w).1,
    (shape_outcome (rectangle_points x1 y1 x2 y2) state w).2.
  split; [by rewrite <- surjective_pairing|].
  split; [|split; [|split]]; [| |done|done].
  - rewrite Hb. split.
    + intros Hall. split.
      * apply (Hall (x1, y1)), In_rectangle_points. lia.
      * apply (Hall (x2, y2)), In_rectangle_points. lia.
    + intros [[? ?] [? ?]] [x y] HIn%In_rectangle_points.
      unfold in_range; cbn. lia.
  - intros x y Hin. destruct (Hpic x y Hin) as [Hon Hoff].
    case_bool_decide as Hc.
    + by apply Hon, In_rectangle_points.
    + apply Hoff. by rewrite In_rectangle_points.
Qed.

(** For corners with columns up to 65534 and rows up to 254, where
    [drawHLine] and [drawVLine] return with the line asked for, any two
    opposite corners, in either order, give the same rectangle. *)
Theorem drawRectangle_corner_order
    (fuel : nat) (x1 y1 x2 y2 : Z) (state : bool) (w : World) :
  0 ≤ x1 ≤ 65534 → 0 ≤ x2 ≤ 65534 → 0 ≤ y1 ≤ 254 → 0 ≤ y2 ≤ 254 →
  (Z.to_nat (Z.abs (x2 - x1)) + 1 < fuel)%nat →
  (Z.to_nat (Z.abs (y2 - y1)) + 1 < fuel)%nat →
  ∃ b w1 w2 w3,
    drawRectangle fuel x1 y1 x2 y2 state w = Some (b, w1) ∧
    drawRectangle fuel x2 y2 x1 y1 state w = Some (b, w2) ∧
    drawRectangle fuel x1 y2 x2 y1 state w = Some (b, w3) ∧
    panel w2 = panel w1 ∧ panel w3 = panel w1.
Proof.
  intros Hx1 Hx2 Hy1 Hy2 Hfx Hfy.
  rewrite (drawRectangle_draws fuel x1 y1 x2 y2 state) by (unfold is_u16; lia).
  rewrite (drawRectangle_draws fuel x2 y2 x1 y1 state) by (unfold is_u16; lia).
  rewrite (drawRectangle_draws fuel x1 y2 x2 y1 state) by (unfold is_u16; lia).
  assert (H2 : ∀ pt, In pt (rectangle_points x2 y2 x1 y1)
                     ↔ In pt (rectangle_points x1 y1 x2 y2)).
  { intros [a b]. rewrite !In_rectangle_points. lia. }
  assert (H3 : ∀ pt, In pt (rectangle_points x1 y2 x2 y1)
                     ↔ In pt (rectangle_points x1 y1 x2 y2)).
  { intros [a b]. rewrite !In_rectangle_points. lia. }
  destruct (shape_outcome_same_elements _ _ state w H2) as [Hb2 Hp2].
  destruct (shape_outcome_same_elements _ _ state w H3) as [Hb3 Hp3].
  exists (shape_outcome (rectangle_points x1 y1 x2 y2) state w).1,
    (shape_outcome (rectangle_points x1 y1 x2 y2) state w).2,
    (shape_outcome (rectangle_points x2 y2 x1 y1) state w).2,
    (shape_outcome (rectangle_points x1 y2 x2 y1) state w).2.
  split; [by rewrite <- surjective_pairing|].
  split; [by rewrite <- Hb2, <- surjective_pairing|].
  split; [by rewrite <- Hb3, <- surjective_pairing|]. done.
Qed.

(** *** Triangles and quadrilaterals *)

(** Coordinates below 32768: every delta between two of them fits
    [int16_t], and 65535 iterations are enough for any line. *)
Lemma drawLine_draws_small fuel x1 y1 x2 y2 state :
  0 ≤ x1 ≤ 32767 → 0 ≤ y1 ≤ 32767 → 0 ≤ x2 ≤ 32767 → 0 ≤ y2 ≤ 32767 →
  65534 < Z.of_nat fuel →
  draws (drawLine fuel x1 y1 x2 y2 state) (line_points x1 y1 x2 y2) state.
Proof. intros. apply drawLine_draws; unfold is_u16; lia. Qed.

Lemma drawTriangle_draws fuel x1 y1 x2 y2 x3 y3 state :
  Forall (λ c, 0 ≤ c ≤ 32767) [x1; y1; x2; y2; x3; y3] → 65534 < Z.of_nat fuel →
  draws (drawTriangle fuel x1 y1 x2 y2 x3 y3 state)
        (triangle_points x1 y1 x2 y2 x3 y3) state.
Proof.
  rewrite !Forall_cons. intros (? & ? & ? & ? & ? & ? & _) ?.
  unfold drawTriangle, triangle_points. cbv zeta.
  apply draws_three; by apply drawLine_draws_small.
Qed.

Lemma drawQuadrilateral_draws fuel x1 y1 x2 y2 x3 y3 x4 y4 state :
  Forall (λ c, 0 ≤ c ≤ 32767) [x1; y1; x2; y2; x3; y3; x4; y4] →
  65534 < Z.of_nat fuel →
  draws (drawQuadrilateral fuel x1 y1 x2 y2 x3 y3 x4 y4 state)
        (quadrilateral_points x1 y1 x2 y2 x3 y3 x4 y4) state.
Proof.
  rewrite !Forall_cons. intros (? & ? & ? & ? & ? & ? & ? & ? & _) ?.
  unfold drawQuadrilateral, quadrilateral_points. cbv zeta.
  apply draws_four; by apply drawLine_draws_small.
Qed.

Lemma line_points_small_box x1 y1 x2 y2 x y :
  0 ≤ x1 ≤ 32767 → 0 ≤ y1 ≤ 32767 → 0 ≤ x2 ≤ 32767 → 0 ≤ y2 ≤ 32767 →
  In (x, y) (line_points x1 y1 x2 y2) →
  Z.min x1 x2 ≤ x ≤ Z.max x1 x2 ∧ Z.min y1 y2 ≤ y ≤ Z.max y1 y2.
Proof. intros. apply line_points_box; [lia|lia|done]. Qed.

Lemma line_points_small_ends x1 y1 x2 y2 :
  0 ≤ x1 ≤ 32767 → 0 ≤ y1 ≤ 32767 → 0 ≤ x2 ≤ 32767 → 0 ≤ y2 ≤ 32767 →
  In (x1, y1) (line_points x1 y1 x2 y2) ∧ In (x2, y2) (line_points x1 y1 x2 y2).
Proof. intros. apply line_points_ends; lia. Qed.

(** [drawTriangle] on vertices with coordinates below 32768: it returns;
    the result is [true] exactly when the three vertices are on the panel;
    every in-range vertex shows [state]; nothing outside the box spanned by
    the vertices changes; each side costs [max(|dx|, |dy|) + 1] invocations
    of [setPoint]. *)
Theorem drawTriangle_joins_its_vertices
    (fuel : nat) (x1 y1 x2 y2 x3 y3 : Z) (state : bool) (w : World) :
  panel_wf (panel w) → chain_fits (panel w) → columns_fit (panel w) →
  Forall (λ c, 0 ≤ c ≤ 32767) [x1; y1; x2; y2; x3; y3] → 65534 < Z.of_nat fuel →
  ∃ b w',
    drawTriangle fuel x1 y1 x2 y2 x3 y3 state w = Some (b, w') ∧
    (b = true ↔ in_range (panel w) x1 y1 ∧ in_range (panel w) x2 y2
                ∧ in_range (panel w) x3 y3) ∧
    (∀ x y, In (x, y) [(x1, y1); (x2, y2); (x3, y3)] → in_range (panel w) x y →
       getPoint (panel w') x y = state) ∧
    (∀ x y, in_range (panel w) x y →
       ¬ (Z.min x1 (Z.min x2 x3) ≤ x ≤ Z.max x1 (Z.max x2 x3) ∧
          Z.min y1 (Z.min y2 y3) ≤ y ≤ Z.max y1 (Z.max y2 y3)) →
       getPoint (panel w') x y = getPoint (panel w) x y) ∧
    Z.of_nat (length (calls w'))
    = Z.of_nat (length (calls w))
      + (Z.max (Z.abs (x2 - x1)) (Z.abs (y2 - y1)) + 1)
      + (Z.max (Z.abs (x3 - x2)) (Z.abs (y3 - y2)) + 1)
      + (Z.max (Z.abs (x1 - x3)) (Z.abs (y1 - y3)) + 1).
Proof.
  intros Hwf Hfit Hcol Hc Hfuel.
  rewrite (drawTriangle_draws fuel x1 y1 x2 y2 x3 y3 state Hc Hfuel w).
  rewrite !Forall_cons in Hc. destruct Hc as (? & ? & ? & ? & ? & ? & _).
  pose proof (line_points_small_box x1 y1 x2 y2) as B12.
  pose proof (line_points_small_box x2 y2 x3 y3) as B23.
  pose proof (line_points_small_box x3 y3 x1 y1) as B31.
  destruct (line_points_small_ends x1 y1 x2 y2) as [E1 E2]; [done..|].
  destruct (line_points_small_ends x2 y2 x3 y3) as [_ E3]; [done..|].
  assert (Hbox : ∀ x y, In (x, y) (triangle_points x1 y1 x2 y2 x3 y3) →
            Z.min x1 (Z.min x2 x3) ≤ x ≤ Z.max x1 (Z.max x2 x3) ∧
            Z.min y1 (Z.min y2 y3) ≤ y ≤ Z.max y1 (Z.max y2 y3)).
  { intros x y. unfold triangle_points. rewrite !in_app_iff.
    intros [HIn|[HIn|HIn]];
      [apply B12 in HIn|apply B23 in HIn|apply B31 in HIn]; lia. }
  assert (Hpts : Forall (λ pt, 0 ≤ pt.1 ∧ 0 ≤ pt.2)
                   (triangle_points x1 y1 x2 y2 x3 y3)).
  { apply Forall_forall. intros [x y] HIn%list_elem_of_In%Hbox. cbn. lia. }
  destruct (shape_picture _ state w Hwf Hfit Hcol Hpts) as (Hb & Hpic & _).
  exists (shape_outcome (triangle_points x1 y1 x2 y2 x3 y3) state w).1,
    (shape_outcome (triangle_points x1 y1 x2 y2 x3 y3) state w).2.
  split; [by rewrite <- surjective_pairing|]. split; [|split; [|split]].
  - rewrite Hb. split.
    + intros Hall. split; [|split].
      * apply (Hall (x1, y1)). unfold triangle_points. rewrite !in_app_iff. tauto.
      * apply (Hall (x2, y2)). unfold triangle_points. rewrite !in_app_iff. tauto.
      * apply (Hall (x3, y3)). unfold triangle_points. rewrite !in_app_iff. tauto.
    + intros ([? ?] & [? ?] & [? ?]) [x y] HIn%Hbox. unfold in_range; cbn. lia.
  - intros x y HIn Hin. apply (Hpic x y Hin).
    unfold triangle_points. rewrite !in_app_iff.
    destruct HIn as [[= <- <-]|[[= <- <-]|[[= <- <-]|[]]]]; tauto.
  - intros x y Hin Hout. apply (Hpic x y Hin). intros HIn. by apply Hout, Hbox.
  - rewrite shape_outcome_calls. unfold triangle_points.
    rewrite !length_app, !Nat2Z.inj_add, !length_line_points by lia. lia.
Qed.

(** For vertices with coordinates below 32768, where the deltas of every
    side fit [int16_t], the order in which the vertices of a triangle are
    given does not matter for the result nor for the panel left behind. *)
Theorem drawTriangle_vertex_order
    (fuel : nat) (x1 y1 x2 y2 x3 y3 : Z) (state : bool) (w : World) :
  Forall (λ c, 0 ≤ c ≤ 32767) [x1; y1; x2; y2; x3; y3] → 65534 < Z.of_nat fuel →
  ∃ b w1 w2 w3,
    drawTriangle fuel x1 y1 x2 y2 x3 y3 state w = Some (b, w1) ∧
    drawTriangle fuel x2 y2 x3 y3 x1 y1 state w = Some (b, w2) ∧
    drawTriangle fuel x2 y2 x1 y1 x3 y3 state w = Some (b, w3) ∧
    panel w2 = panel w1 ∧ panel w3 = panel w1.
Proof.
  intros Hc Hfuel.
  rewrite (drawTriangle_draws fuel x1 y1 x2 y2 x3 y3 state Hc Hfuel w).
  rewrite !Forall_cons in Hc. destruct Hc as (? & ? & ? & ? & ? & ? & _).
  rewrite (drawTriangle_draws fuel x2 y2 x3 y3 x1 y1 state)
    by (try done; rewrite !Forall_cons, Forall_nil; lia).
  rewrite (drawTriangle_draws fuel x2 y2 x1 y1 x3 y3 state)
    by (try done; rewrite !Forall_cons, Forall_nil; lia).
  assert (Hs2 : ∀ pt, In pt (triangle_points x2 y2 x3 y3 x1 y1)
                     ↔ In pt (triangle_points x1 y1 x2 y2 x3 y3)).
  { intros pt. unfold triangle_points. rewrite !in_app_iff. tauto. }
  assert (Hs3 : ∀ pt, In pt (triangle_points x2 y2 x1 y1 x3 y3)
                     ↔ In pt (triangle_points x1 y1 x2 y2 x3 y3)).
  { intros pt. unfold triangle_points. rewrite !in_app_iff.
    rewrite (line_points_sym x2 y2 x1 y1), (line_points_sym x1 y1 x3 y3),
      (line_points_sym x3 y3 x2 y2). tauto. }
  destruct (shape_outcome_same_elements _ _ state w Hs2) as [Hb2 Hp2].
  destruct (shape_outcome_same_elements _ _ state w Hs3) as [Hb3 Hp3].
  exists (shape_outcome (triangle_points x1 y1 x2 y2 x3 y3) state w).1,
    (shape_outcome (triangle_points x1 y1 x2 y2 x3 y3) state w).2,
    (shape_outcome (triangle_points x2 y2 x3 y3 x1 y1) state w).2,
    (shape_outcome (triangle_points x2 y2 x1 y1 x3 y3) state w).2.
  split; [by rewrite <- surjective_pairing|].
  split; [by rewrite <- Hb2, <- surjective_pairing|].
  split; [by rewrite <- Hb3, <- surjective_pairing|]. done.
Qed.

(** [drawQuadrilateral] on vertices with coordinates below 32768: it
    returns; the result is [true] exactly when the four vertices are on the
    panel; every in-range vertex shows [state]; nothing outside the box
    spanned by the vertices changes. *)
Theorem drawQuadrilateral_joins_its_vertices
    (fuel : nat) (x1 y1 x2 y2 x3 y3 x4 y4 : Z) (state : bool) (w : World) :
  panel_wf (panel w) → chain_fits (panel w) → columns_fit (panel w) →
  Forall (λ c, 0 ≤ c ≤ 32767) [x1; y1; x2; y2; x3; y3; x4; y4] →
  65534 < Z.of_nat fuel →
  ∃ b w',
    drawQuadrilateral fuel x1 y1 x2 y2 x3 y3 x4 y4 state w = Some (b, w') ∧
    (b = true ↔ in_range (panel w) x1 y1 ∧ in_range (panel w) x2 y2
                ∧ in_range (panel w) x3 y3 ∧ in_range (panel w) x4 y4) ∧
    (∀ x y, In (x, y) [(x1, y1); (x2, y2); (x3, y3); (x4, y4)] →
       in_range (panel w) x y → getPoint (panel w') x y = state) ∧
    (∀ x y, in_range (panel w) x y →
       ¬ (Z.min (Z.min x1 x2) (Z.min x3 x4) ≤ x ≤ Z.max (Z.max x1 x2) (Z.max x3 x4) ∧
          Z.min (Z.min y1 y2) (Z.min y3 y4) ≤ y ≤ Z.max (Z.max y1 y2) (Z.max y3 y4)) →
       getPoint (panel w') x y = getPoint (panel w) x y).
Proof.
  intros Hwf Hfit Hcol Hc Hfuel.
  rewrite (drawQuadrilateral_draws fuel x1 y1 x2 y2 x3 y3 x4 y4 state Hc Hfuel w).
  rewrite !Forall_cons in Hc. destruct Hc as (? & ? & ? & ? & ? & ? & ? & ? & _).
  pose proof (line_points_small_box x1 y1 x2 y2) as B12.
  pose proof (line_points_small_box x2 y2 x3 y3) as B23.
  pose proof (line_points_small_box x3 y3 x4 y4) as B34.
  pose proof (line_points_small_box x4 y4 x1 y1) as B41.
  destruct (line_points_small_ends x1 y1 x2 y2) as [E1 E2]; [done..|].
  destruct (line_points_small_ends x3 y3 x4 y4) as [E3 E4]; [done..|].
  assert (Hbox : ∀ x y, In (x, y) (quadrilateral_points x1 y1 x2 y2 x3 y3 x4 y4) →
            Z.min (Z.min x1 x2) (Z.min x3 x4) ≤ x ≤ Z.max (Z.max x1 x2) (Z.max x3 x4) ∧
            Z.min (Z.min y1 y2) (Z.min y3 y4) ≤ y ≤ Z.max (Z.max y1 y2) (Z.max y3 y4)).
  { intros x y. unfold quadrilateral_points. rewrite !in_app_iff.
    intros [HIn|[HIn|[HIn|HIn]]];
      [apply B12 in HIn|apply B23 in HIn|apply B34 in HIn|apply B41 in HIn]; lia. }
  assert (Hpts : Forall (λ pt, 0 ≤ pt.1 ∧ 0 ≤ pt.2)
                   (quadrilateral_points x1 y1 x2 y2 x3 y3 x4 y4)).
  { apply Forall_forall. intros [x y] HIn%list_elem_of_In%Hbox. cbn. lia. }
  destruct (shape_picture _ state w Hwf Hfit Hcol Hpts) as (Hb & Hpic & _).
  exists (shape_outcome (quadrilateral_points x1 y1 x2 y2 x3 y3 x4 y4) state w).1,
    (shape_outcome (quadrilateral_points x1 y1 x2 y2 x3 y3 x4 y4) state w).2.
  split; [by rewrite <- surjective_pairing|]. split; [|split].
  - rewrite Hb. split.
    + intros Hall. split; [|split; [|split]].
      * apply (Hall (x1, y1)). unfold quadrilateral_points. rewrite !in_app_iff. tauto.
      * apply (Hall (x2, y2)). unfold quadrilateral_points. rewrite !in_app_iff. tauto.
      * apply (Hall (x3, y3)). unfold quadrilateral_points. rewrite !in_app_iff. tauto.
      * apply (Hall (x4, y4)). unfold quadrilateral_points. rewrite !in_app_iff. tauto.
    + intros ([? ?] & [? ?] & [? ?] & [? ?]) [x y] HIn%Hbox. unfold in_range; cbn. lia.
  - intros x y HIn Hin. apply (Hpic x y Hin).
    unfold quadrilateral_points. rewrite !in_app_iff.
    destruct HIn as [[= <- <-]|[[= <- <-]|[[= <- <-]|[[= <- <-]|[]]]]]; tauto.
  - intros x y Hin Hout. apply (Hpic x y Hin). intros HIn. by apply Hout, Hbox.
Qed.

(** For vertices with coordinates below 32768, where the deltas of every
    side fit [int16_t], starting the quadrilateral at the next vertex, or
    going round the other way, changes neither the result nor the panel
    left behind. *)
Theorem drawQuadrilateral_vertex_order
    (fuel : nat) (x1 y1 x2 y2 x3 y3 x4 y4 : Z) (state : bool) (w : World) :
  Forall (λ c, 0 ≤ c ≤ 32767) [x1; y1; x2; y2; x3; y3; x4; y4] →
  65534 < Z.of_nat fuel →
  ∃ b w1 w2 w3,
    drawQuadrilateral fuel x1 y1 x2 y2 x3 y3 x4 y4 state w = Some (b, w1) ∧
    drawQuadrilateral fuel x2 y2 x3 y3 x4 y4 x1 y1 state w = Some (b, w2) ∧
    drawQuadrilateral fuel x4 y4 x3 y3 x2 y2 x1 y1 state w = Some (b, w3) ∧
    panel w2 = panel w1 ∧ panel w3 = panel w1.
Proof.
  intros Hc Hfuel.
  rewrite (drawQuadrilateral_draws fuel x1 y1 x2 y2 x3 y3 x4 y4 state Hc Hfuel w).
  rewrite !Forall_cons in Hc. destruct Hc as (? & ? & ? & ? & ? & ? & ? & ? & _).
  rewrite (drawQuadrilateral_draws fuel x2 y2 x3 y3 x4 y4 x1 y1 state)
    by (try done; rewrite !Forall_cons, Forall_nil; lia).
  rewrite (drawQuadrilateral_draws fuel x4 y4 x3 y3 x2 y2 x1 y1 state)
    by (try done; rewrite !Forall_cons, Forall_nil; lia).
  assert (Hs2 : ∀ pt, In pt (quadrilateral_points x2 y2 x3 y3 x4 y4 x1 y1)
                     ↔ In pt (quadrilateral_points x1 y1 x2 y2 x3 y3 x4 y4)).
  { intros pt. unfold quadrilateral_points. rewrite !in_app_iff. tauto. }
  assert (Hs3 : ∀ pt, In pt (quadrilateral_points x4 y4 x3 y3 x2 y2 x1 y1)
                     ↔ In pt (quadrilateral_points x1 y1 x2 y2 x3 y3 x4 y4)).
  { intros pt. unfold quadrilateral_points. rewrite !in_app_iff.
    rewrite (line_points_sym x4 y4 x3 y3), (line_points_sym x3 y3 x2 y2),
      (line_points_sym x2 y2 x1 y1), (line_points_sym x1 y1 x4 y4). tauto. }
  destruct (shape_outcome_same_elements _ _ state w Hs2) as [Hb2 Hp2].
  destruct (shape_outcome_same_elements _ _ state w Hs3) as [Hb3 Hp3].
  exists (shape_outcome (quadrilateral_points x1 y1 x2 y2 x3 y3 x4 y4) state w).1,
    (shape_outcome (quadrilateral_points x1 y1 x2 y2 x3 y3 x4 y4) state w).2,
    (shape_outcome (quadrilateral_points x2 y2 x3 y3 x4 y4 x1 y1) state w).2,
    (shape_outcome (quadrilateral_points x4 y4 x3 y3 x2 y2 x1 y1) state w).2.
  split; [by rewrite <- surjective_pairing|].
  split; [by rewrite <- Hb2, <- surjective_pairing|].
  split; [by rewrite <- Hb3, <- surjective_pairing|]. done.
Qed.

(** *** Clearing an area *)

Lemma In_clear_points x1 y1 x2 y2 x y :
  In (x, y) (clear_points x1 y1 x2 y2)
  ↔ x1 ≤ x ≤ x2 ∧ Z.min y1 y2 ≤ y ≤ Z.max y1 y2.
Proof.
  unfold clear_points. rewrite in_flat_map. split.
  - intros (i & Hi%list_elem_of_In%elem_of_seqZ & [-> Hy]%In_vline_points). lia.
  - intros [Hx Hy]. exists x. split.
    + apply list_elem_of_In, elem_of_seqZ. lia.
    + by apply In_vline_points.
Qed.

Lemma clear_loop_run y1 x2 y2 :
  0 ≤ y1 ≤ 254 → 0 ≤ y2 ≤ 254 → x2 ≤ 254 →
  ∀ (k fuel : nat) i w,
    0 ≤ i → Z.of_nat k = x2 - i →
    (k + Z.to_nat (Z.abs (y2 - y1)) + 2 < fuel)%nat →
    clear_loop fuel y1 x2 y2 i w
    = Some (tt, (shape_outcome (clear_points i y1 x2 y2) false w).2).
Proof.
  intros Hy1 Hy2 Hx2. induction k as [|k IH]; intros fuel i w Hi Hk Hfuel;
    (destruct fuel as [|fuel]; [lia|]); cbn [clear_loop];
    (replace (i <=? x2) with true by (symmetry; apply Z.leb_le; lia));
    rewrite (M_bind_outcome _ _ _ _
               (drawVLine_draws (S fuel) i y1 y2 false
                  ltac:(lia) ltac:(lia) ltac:(lia) ltac:(lia) w));
    rewrite u8_id by (unfold is_u8; lia);
    unfold clear_points; (rewrite seqZ_cons by lia); cbn [flat_map].
  - destruct fuel as [|fuel]; [lia|]. cbn [clear_loop].
    replace (i + 1 <=? x2) with false by (symmetry; apply Z.leb_gt; lia).
    replace (Z.pred (x2 - i + 1)) with 0 by lia. cbn [seqZ flat_map].
    rewrite app_nil_r. reflexivity.
  - rewrite (IH fuel (i + 1)) by lia.
    rewrite <- (shape_outcome_seq (vline_points i y1 y2)). cbn [snd].
    unfold clear_points.
    replace (Z.pred (x2 - i + 1)) with (x2 - (i + 1) + 1) by lia.
    reflexivity.
Qed.

(** [clear(x1, y1, x2, y2)] with [x1 <= x2 <= 254] and rows up to 254: it
    returns, every in-range point of the area is off, and every other
    in-range point keeps its value.  The rows may be given in either
    order. *)
Theorem clear_switches_the_area_off
    (fuel : nat) (x1 y1 x2 y2 : Z) (w : World) :
  panel_wf (panel w) → chain_fits (panel w) → columns_fit (panel w) →
  0 ≤ x1 ≤ x2 → x2 ≤ 254 → 0 ≤ y1 ≤ 254 → 0 ≤ y2 ≤ 254 →
  (Z.to_nat (x2 - x1) + Z.to_nat (Z.abs (y2 - y1)) + 2 < fuel)%nat →
  ∃ w',
    clear fuel x1 y1 x2 y2 w = Some (tt, w') ∧
    ∀ x y, in_range (panel w) x y →
      getPoint (panel w') x y
      = if bool_decide (x1 ≤ x ≤ x2 ∧ Z.min y1 y2 ≤ y ≤ Z.max y1 y2)
        then false else getPoint (panel w) x y.
Proof.
  intros Hwf Hfit Hcol Hx1 Hx2 Hy1 Hy2 Hfuel. unfold clear.
  rewrite u8_id by (unfold is_u8; lia).
  rewrite (clear_loop_run y1 x2 y2 Hy1 Hy2 Hx2 (Z.to_nat (x2 - x1))) by lia.
  eexists. split; [reflexivity|]. intros x y Hin.
  assert (Hpts : Forall (λ pt, 0 ≤ pt.1 ∧ 0 ≤ pt.2) (clear_points x1 y1 x2 y2)).
  { apply Forall_forall. intros [a b] HIn%list_elem_of_In%In_clear_points. cbn. lia. }
  destruct (shape_picture _ false w Hwf Hfit Hcol Hpts) as (_ & Hpic & _).
  destruct (Hpic x y Hin) as [Hon Hoff].
  case_bool_decide as Hc.
  - by apply Hon, In_clear_points.
  - apply Hoff. by rewrite In_clear_points.
Qed.

(** Unlike the rows, the columns of [clear] are not put in order: with the
    first column (as the 8-bit counter receives it) right of the last one,
    nothing is touched, not even the redraw switch. *)
Theorem clear_does_not_swap_columns
    (fuel : nat) (x1 y1 x2 y2 : Z) (w : World) :
  x2 < u8 x1 → (0 < fuel)%nat →
  clear fuel x1 y1 x2 y2 w = Some (tt, w).
Proof.
  intros Hlt Hfuel. unfold clear. destruct fuel as [|fuel]; [lia|].
  cbn [clear_loop].
  replace (u8 x1 <=? x2) with false by (symmetry; apply Z.leb_gt; lia).
  reflexivity.
Qed.

Lemma clear_loop_255 y1 x2 y2 :
  255 ≤ x2 → ∀ (fuel : nat) i w, 0 ≤ i ≤ 255 → clear_loop fuel y1 x2 y2 i w = None.
Proof.
  intros Hx2. induction fuel as [|fuel IH]; intros i w Hi; [reflexivity|].
  cbn [clear_loop].
  replace (i <=? x2) with true by (symmetry; apply Z.leb_le; lia).
  destruct (drawVLine (S fuel) i y1 y2 false w) as [[r w']|] eqn:Hd.
  - rewrite (M_bind_Some _ _ _ _ _ Hd). apply IH.
    pose proof (u8_range (i + 1)). unfold is_u8 in *. lia.
  - by rewrite (M_bind_None _ _ _ Hd).
Qed.

(** With a last column of 255 or more the 8-bit counter of [clear] can
    never pass it: no iteration budget lets the call return. *)
Theorem clear_never_returns_from_column_255
    (x1 y1 x2 y2 : Z) (w : World) :
  255 ≤ x2 → ∀ fuel : nat, clear fuel x1 y1 x2 y2 w = None.
Proof.
  intros Hx2 fuel. unfold clear. apply clear_loop_255; [done|].
  pose proof (u8_range x1). unfold is_u8 in *. lia.
Qed.

(** ** The address translation as a whole *)

(** The fold of the address translation, run backwards: the coordinates
    that are sent to row [r] and column [c] of the chain. *)
Lemma unfold_col W H r c :
  0 < W → 0 < H → 0 ≤ r < 8 → 0 ≤ c < W * H →
  let a := W - 1 - c mod W in
  let b := 8 * (c / W) + (7 - r) in
  0 ≤ a ≤ W - 1 ∧ 0 ≤ b ≤ 8 * H - 1 ∧
  8 - b mod 8 - 1 = r ∧ b / 8 * W + W - 1 - a mod W = c.
Proof.
  intros HW HH Hr Hc a b.
  pose proof (Z.mod_pos_bound c W HW) as Hm.
  pose proof (Z.div_mod c W ltac:(lia)) as Hdm.
  assert (Hq : 0 ≤ c / W < H).
  { split; [apply Z.div_pos; lia|]. apply Z.div_lt_upper_bound; lia. }
  assert (Hb8 : b mod 8 = 7 - r).
  { unfold b. rewrite Z.add_comm, Z.mul_comm, Z_mod_plus_full.
    apply Z.mod_small. lia. }
  assert (Hd8 : b / 8 = c / W).
  { unfold b. rewrite Z.add_comm, Z.mul_comm, Z_div_plus_full by lia.
    rewrite Z.div_small; lia. }
  assert (Ha : a mod W = a) by (apply Z.mod_small; unfold a; lia).
  rewrite Hb8, Hd8, Ha. unfold a, b. lia.
Qed.

(** The address translation is onto the chain and one-to-one: every LED of
    the [xDevices * yDevices] devices belongs to exactly one point of the
    panel, in either orientation. *)
Theorem every_LED_has_exactly_one_point (p : MD_MAXPanel) (r c : Z) :
  panel_wf p → columns_fit p →
  0 ≤ r < 8 → 0 ≤ c < 8 * _xDevices p * _yDevices p →
  ∃ x y,
    in_range p x y ∧ address p x y = (r, c) ∧
    ∀ x' y', in_range p x' y' → address p x' y' = (r, c) → x' = x ∧ y' = y.
Proof.
  intros Hwf Hcol Hr Hc. pose proof Hwf as [HxD HyD]. unfold columns_fit in Hcol.
  destruct (unfold_col (_xDevices p * 8) (_yDevices p) r c
              ltac:(lia) ltac:(lia) Hr ltac:(lia)) as (Ha & Hb & Hrow & Hcl).
  set (a := _xDevices p * 8 - 1 - c mod (_xDevices p * 8)) in *.
  set (b := 8 * (c / (_xDevices p * 8)) + (7 - r)) in *.
  assert (Hex : ∃ x y, in_range p x y ∧ address p x y = (r, c)).
  { destruct (_rotatedDisplay p) eqn:Hrot.
    - exists (_yDevices p * 8 - 1 - b), a.
      assert (Hin : in_range p (_yDevices p * 8 - 1 - b) a).
      { unfold in_range. rewrite (getXMax_wf p Hwf), (getYMax_wf p Hwf), Hrot. lia. }
      split; [done|]. unfold address, Y2Row, X2Col, ROW_SIZE, COL_SIZE.
      rewrite (getXMax_wf p Hwf), Hrot. cbv zeta.
      replace (_yDevices p * 8 - 1 - (_yDevices p * 8 - 1 - b)) with b by lia.
      rewrite (u16_id b) by (unfold is_u16; lia).
      rewrite Hrow, Hcl.
      rewrite (u16_id r), (u16_id c), (u8_id r) by (unfold is_u16, is_u8; lia).
      reflexivity.
    - exists a, b.
      assert (Hin : in_range p a b).
      { unfold in_range. rewrite (getXMax_wf p Hwf), (getYMax_wf p Hwf), Hrot. lia. }
      split; [done|]. unfold address, Y2Row, X2Col, ROW_SIZE, COL_SIZE.
      rewrite Hrot, Hrow, Hcl.
      rewrite (u16_id r), (u16_id c), (u8_id r) by (unfold is_u16, is_u8; lia).
      reflexivity. }
  destruct Hex as (x & y & Hin & Haddr). exists x, y.
  split; [done|]. split; [done|]. intros x' y' Hin' Haddr'.
  apply (address_inj p x' y' x y Hwf Hcol Hin' Hin). congruence.
Qed.

(** The rotated orientation is the plain one after a quarter turn: the
    point [(x, y)] of the rotated panel is the point [(y, getXMax() - x)]
    of the same devices unrotated. *)
Theorem rotated_display_is_a_quarter_turn (p : MD_MAXPanel) (x y : Z) :
  panel_wf p → _rotatedDisplay p = true → in_range p x y →
  in_range (mounted p false) y (getXMax p - x) ∧
  Y2Row p x y = Y2Row (mounted p false) y (getXMax p - x) ∧
  X2Col p x y = X2Col (mounted p false) y (getXMax p - x) ∧
  getPoint p x y = getPoint (mounted p false) y (getXMax p - x).
Proof.
  intros Hwf Hrot Hin. pose proof Hwf as [HxD HyD].
  assert (Hwf' : panel_wf (mounted p false)) by done.
  assert (Hin' : in_range (mounted p false) y (getXMax p - x)).
  { destruct Hin as [Hx Hy]. unfold in_range.
    rewrite (getXMax_wf _ Hwf'), (getYMax_wf _ Hwf'). cbn.
    rewrite (getXMax_wf p Hwf), (getYMax_wf p Hwf), Hrot in *. lia. }
  assert (HM : getXMax p ≤ 65535).
  { rewrite (getXMax_wf p Hwf). destruct (_rotatedDisplay p); lia. }
  assert (Hrow : Y2Row p x y = Y2Row (mounted p false) y (getXMax p - x)).
  { unfold Y2Row. rewrite Hrot. cbn [_rotatedDisplay mounted]. cbv zeta.
    destruct Hin as [Hx _].
    by rewrite (u16_id (getXMax p - x)) by (unfold is_u16; lia). }
  assert (Hcl : X2Col p x y = X2Col (mounted p false) y (getXMax p - x)).
  { unfold X2Col. rewrite Hrot. cbn [_rotatedDisplay _xDevices mounted]. cbv zeta.
    destruct Hin as [Hx _].
    by rewrite (u16_id (getXMax p - x)) by (unfold is_u16; lia). }
  split; [done|]. split; [done|]. split; [done|].
  unfold getPoint. rewrite (in_range_test _ _ _ Hin), (in_range_test _ _ _ Hin').
  by rewrite Hrow, Hcl.
Qed.

(** [setPoint] touches one point: afterwards the point it names shows
    [state] and every other point of the panel shows what it showed. *)
Theorem setPoint_changes_one_point
    (x y x' y' : Z) (state : bool) (w : World) :
  panel_wf (panel w) → chain_fits (panel w) → columns_fit (panel w) →
  is_u16 x → is_u16 y → in_range (panel w) x' y' →
  ∃ b w',
    setPoint x y state w = Some (b, w') ∧
    (b = true ↔ in_range (panel w) x y) ∧
    getPoint (panel w') x' y'
    = (if bool_decide (x' = x ∧ y' = y) then state else getPoint (panel w) x' y').
Proof.
  intros Hwf Hfit Hcol Hx Hy Hin. unfold is_u16 in *.
  rewrite setPoint_run. eexists _, _. split; [reflexivity|]. split.
  - rewrite setPoint_result_in_range by (try done; lia). apply in_rangeb_spec.
  - cbn [panel]. rewrite getPoint_setPoint_panel by (try done; lia).
    destruct (decide ((x, y) = (x', y'))) as [[= -> ->]|Hne].
    + by rewrite bool_decide_true.
    + rewrite bool_decide_false; [done|]. intros [-> ->]. by apply Hne.
Qed.

(** ** How close the circle is *)

Lemma midpoint_steps_near r :
  ∀ (n : nat) x y pk o,
    midpoint_inv r x y pk → In o (midpoint_steps n x y pk) → near_circle r o.
Proof.
  induction n as [|n IH]; intros x y pk o Hinv HIn; [done|].
  cbn [midpoint_steps] in HIn.
  destruct (x <? y) eqn:Hxy; [apply Z.ltb_lt in Hxy|done].
  destruct Hinv as (Hx & Hy & Hpk & He & Hedge).
  set (e := x * x + y * y - r * r) in *.
  destruct (pk <=? 0) eqn:Hp; [apply Z.leb_le in Hp | apply Z.leb_gt in Hp].
  - assert (Hinv' : midpoint_inv r (x + 1) y (pk + 4 * x + 6)).
    { unfold midpoint_inv.
      replace ((x + 1) * (x + 1) + y * y - r * r) with (e + 2 * x + 1)
        by (unfold e; lia).
      lia. }
    destruct HIn as [<-|HIn]; [|by apply (IH _ _ _ _ Hinv')].
    destruct Hinv' as (? & ? & _ & ? & _). unfold near_circle; cbn. lia.
  - assert (Hinv' : midpoint_inv r (x + 1) (y - 1) (pk + 4 * (x - y) + 10)).
    { unfold midpoint_inv.
      replace ((x + 1) * (x + 1) + (y - 1) * (y - 1) - r * r)
        with (e + 2 * x - 2 * y + 2) by (unfold e; lia).
      lia. }
    destruct HIn as [<-|HIn]; [|by apply (IH _ _ _ _ Hinv')].
    destruct Hinv' as (? & ? & _ & ? & _). unfold near_circle; cbn. lia.
Qed.

Lemma midpoint_offsets_near r o :
  0 ≤ r → In o (midpoint_offsets r) → near_circle r o.
Proof.
  intros Hr [<-|HIn].
  - unfold near_circle; cbn. lia.
  - apply (midpoint_steps_near r (Z.to_nat r) 0 r (3 - 2 * r) o); [|done].
    unfold midpoint_inv. lia.
Qed.

(** [drawCircle] stays on the circle: on radii for which [int] holds the
    decision parameter it returns, and every point it hands to [setPoint]
    is the centre displaced by some [(dx, dy)] (wrapped to [uint16_t]) with
    [|dx² + dy² - r²| <= r], that is, less than one pixel away from the
    circle of radius [r]. *)
Theorem drawCircle_stays_on_the_circle
    (INT_BITS : Z) (fuel : nat) (xc yc r : Z) (state : bool) (w : World) :
  16 ≤ INT_BITS → is_u16 r → 4 * r + 8 < 2 ^ (INT_BITS - 1) →
  (Z.to_nat r < fuel)%nat →
  ∃ b w' cs,
    drawCircle INT_BITS fuel xc yc r state w = Some (b, w') ∧
    calls w' = cs ++ calls w ∧
    ∀ c, In c cs →
      call_state c = state ∧
      ∃ dx dy, call_x c = u16 (xc + dx) ∧ call_y c = u16 (yc + dy) ∧
               Z.abs dx ≤ r ∧ Z.abs dy ≤ r ∧
               Z.abs (dx * dx + dy * dy - r * r) ≤ r.
Proof.
  intros Hw Hr Hbig Hfuel. rewrite drawCircle_run by assumption.
  eexists _, _, _. split; [reflexivity|]. split; [reflexivity|].
  intros c. rewrite <- in_rev. unfold calls_of. rewrite in_map_iff.
  intros (pt & <- & Hpt). cbn [call_state call_x call_y]. split; [done|].
  apply in_map_iff in Hpt as (q & <- & Hq). unfold midpoint_circle in Hq.
  apply in_flat_map in Hq as ([x y] & Ho & Hq).
  apply midpoint_offsets_near in Ho; [|unfold is_u16 in Hr; lia].
  destruct Ho as (Hx & Hy & He). cbn [fst snd] in *.
  assert (x ≤ r) by nia.
  unfold eight_points in Hq. cbn [In] in Hq. unfold as_u16.
  destruct Hq as [<-|[<-|[<-|[<-|[<-|[<-|[<-|[<-|[]]]]]]]]]; cbn [fst snd].
  - exists x, y. repeat split; try lia.
  - exists (- x), y. rewrite Z.add_opp_r. repeat split; try lia.
  - exists x, (- y). rewrite Z.add_opp_r. repeat split; try lia.
  - exists (- x), (- y). rewrite !Z.add_opp_r. repeat split; try lia.
  - exists y, x. repeat split; try lia.
  - exists (- y), x. rewrite Z.add_opp_r. repeat split; try lia.
  - exists y, (- x). rewrite Z.add_opp_r. repeat split; try lia.
  - exists (- y), (- x). rewrite !Z.add_opp_r. repeat split; try lia.
Qed.

(** ** The drawing sketch *)

(** A reading of the 10-bit converter is remapped by thirds of its
    range, whatever the width of [int]. *)
Lemma remap_reading INT_BITS a :
  0 ≤ a ≤ 1023 →
  Sketch.remap INT_BITS a = if a <=? 341 then -1 else if 682 <=? a then 1 else 0.
Proof.
  intros Ha. unfold Sketch.remap, Sketch.against_u16.
  change Sketch.LTHRESHOLD with 341. change Sketch.HTHRESHOLD with 682.
  rewrite (s16_id a) by (unfold is_s16; lia).
  assert (u16 a = a) as -> by (apply u16_id; unfold is_u16; lia).
  destruct (INT_BITS <=? 16); rewrite Z.geb_leb; reflexivity.
Qed.

(** One step of the head along an axis of length [m + 1]. *)
Lemma head_step m c d :
  0 ≤ c ≤ m → m ≤ 65535 → d = -1 ∨ d = 0 ∨ d = 1 →
  (if (negb (c =? 0) && (d <? 0)) || ((c <? m) && (d >? 0)) then u16 (c + d) else c)
  = Z.max 0 (Z.min m (c + d)).
Proof.
  intros Hc Hm Hd.
  destruct (c =? 0) eqn:E0; [apply Z.eqb_eq in E0 | apply Z.eqb_neq in E0];
    (destruct (c <? m) eqn:Em; [apply Z.ltb_lt in Em | apply Z.ltb_ge in Em]);
    destruct Hd as [-> | [-> | ->]]; cbn [negb andb orb Z.ltb Z.gtb Z.compare];
    rewrite ?andb_false_r; cbn [orb];
    rewrite ?u16_id by (unfold is_u16; lia); lia.
Qed.

(** [nextPixel] keeps the head on the panel: from an in-range head and
    readings of the 10-bit converter, the new head is the old one moved by
    the remapped steps and clipped to the panel; it is in range, at most
    one step away on each axis, and its LED is lit; no other point
    changes. *)
Theorem nextPixel_keeps_the_head_on_the_panel
    (INT_BITS xreading yreading x y : Z) (w : World) :
  panel_wf (panel w) → chain_fits (panel w) → columns_fit (panel w) →
  0 ≤ xreading ≤ 1023 → 0 ≤ yreading ≤ 1023 → in_range (panel w) x y →
  ∃ x' y' w',
    Sketch.nextPixel INT_BITS xreading yreading x y w = Some ((x', y'), w') ∧
    x' = Z.max 0 (Z.min (getXMax (panel w))
           (x + if xreading <=? 341 then -1 else if 682 <=? xreading then 1 else 0)) ∧
    y' = Z.max 0 (Z.min (getYMax (panel w))
           (y + if yreading <=? 341 then -1 else if 682 <=? yreading then 1 else 0)) ∧
    in_range (panel w) x' y' ∧ Z.abs (x' - x) ≤ 1 ∧ Z.abs (y' - y) ≤ 1 ∧
    same_geometry (panel w) (panel w') ∧
    ∀ a b, in_range (panel w) a b →
      getPoint (panel w') a b
      = if bool_decide (a = x' ∧ b = y') then true else getPoint (panel w) a b.
Proof.
  intros Hwf Hfit Hcol Hxr Hyr [Hx Hy].
  assert (HXM : getXMax (panel w) ≤ 65535).
  { rewrite (getXMax_wf _ Hwf). destruct Hwf. destruct (_rotatedDisplay _); lia. }
  assert (HYM : getYMax (panel w) ≤ 65535).
  { rewrite (getYMax_wf _ Hwf). destruct Hwf. destruct (_rotatedDisplay _); lia. }
  unfold Sketch.nextPixel. rewrite !remap_reading by done.
  set (dx := if xreading <=? 341 then -1 else if 682 <=? xreading then 1 else 0).
  set (dy := if yreading <=? 341 then -1 else if 682 <=? yreading then 1 else 0).
  assert (Hdx : dx = -1 ∨ dx = 0 ∨ dx = 1)
    by (unfold dx; destruct (xreading <=? 341), (682 <=? xreading); auto).
  assert (Hdy : dy = -1 ∨ dy = 0 ∨ dy = 1)
    by (unfold dy; destruct (yreading <=? 341), (682 <=? yreading); auto).
  rewrite (M_bind_Some _ _ w (panel w) w) by reflexivity. cbv zeta.
  rewrite (head_step _ x dx Hx HXM Hdx), (head_step _ y dy Hy HYM Hdy).
  set (x' := Z.max 0 (Z.min (getXMax (panel w)) (x + dx))).
  set (y' := Z.max 0 (Z.min (getYMax (panel w)) (y + dy))).
  assert (Hin' : in_range (panel w) x' y') by (unfold in_range, x', y'; lia).
  rewrite (M_bind_Some _ _ _ _ _ (setPoint_run x' y' true w)).
  eexists _, _, _. split; [reflexivity|]. split; [done|]. split; [done|].
  split; [done|]. split; [unfold x'; lia|]. split; [unfold y'; lia|].
  cbn [panel]. split; [apply setPoint_panel_geometry|].
  intros a b Hab. rewrite getPoint_setPoint_panel by (try done; unfold x', y'; lia).
  destruct (decide ((x', y') = (a, b))) as [[= <- <-]|Hne].
  - by rewrite bool_decide_true.
  - rewrite bool_decide_false; [done|]. intros [-> ->]. by apply Hne.
Qed.

(** ** The basketball scoreboard sketch *)

(** One [drawHLine] of a run of them: the panel keeps its geometry and the
    segment takes [state]. *)
Lemma drawHLine_then fuel y x1 x2 state w :
  panel_wf (panel w) → chain_fits (panel w) → columns_fit (panel w) →
  is_u16 y → 0 ≤ x1 ≤ x2 → x2 ≤ 65534 →
  (Z.to_nat (x2 - x1) + 1 < fuel)%nat →
  ∃ b w',
    drawHLine fuel y x1 x2 state w = Some (b, w') ∧
    panel_wf (panel w') ∧ chain_fits (panel w') ∧ columns_fit (panel w') ∧
    (∀ x y', in_range (panel w') x y' ↔ in_range (panel w) x y') ∧
    ∀ x y', in_range (panel w) x y' →
      getPoint (panel w') x y'
      = if bool_decide (y' = y ∧ x1 ≤ x ≤ x2) then state else getPoint (panel w) x y'.
Proof.
  intros Hwf Hfit Hcol Hy Hx Hx2 Hfuel. unfold is_u16 in *.
  rewrite (drawHLine_draws fuel y x1 x2 state) by (unfold is_u16; lia).
  assert (Hpts : Forall (λ pt, 0 ≤ pt.1 ∧ 0 ≤ pt.2) (hline_points y x1 x2))
    by (apply hline_points_nonneg; lia).
  destruct (shape_picture _ state w Hwf Hfit Hcol Hpts) as (_ & Hpic & Hg & _).
  exists (shape_outcome (hline_points y x1 x2) state w).1,
    (shape_outcome (hline_points y x1 x2) state w).2.
  split; [by rewrite <- surjective_pairing|].
  split; [eauto with geometry|]. split; [eauto with geometry|]. split.
  { unfold columns_fit in *. destruct Hg as (-> & -> & _). done. }
  split.
  { intros x y'. unfold in_range.
    by rewrite (same_geometry_XMax _ _ Hg), (same_geometry_YMax _ _ Hg). }
  intros x y' Hin. destruct (Hpic x y' Hin) as [Hon Hoff].
  case_bool_decide as Hc.
  - apply Hon, In_hline_points. lia.
  - apply Hoff. rewrite In_hline_points. lia.
Qed.

Lemma showTimeout_run (fuel : nat) (c0 c1 : Z) (w : World) :
  panel_wf (panel w) → chain_fits (panel w) → columns_fit (panel w) →
  (4 < fuel)%nat →
  ∃ w',
    Basketball.showTimeout fuel [c0; c1] w = Some (tt, w') ∧
    ∀ x y, in_range (panel w) x y →
      getPoint (panel w') x y
      = match (if y =? 15 then timeout_bar c0 c1 x else None) with
        | Some lit => lit
        | None => getPoint (panel w) x y
        end.
Proof.
  intros Hwf Hfit Hcol Hfuel. unfold Basketball.showTimeout. cbv zeta.
  change (seqZ 0 2) with [0; 1]. change (seqZ 0 Basketball.MAX_TIMEOUT) with [0; 1].
  cbn [Basketball.for_each]. cbn [Z.to_nat Pos.to_nat Pos.iter_op Nat.add].
  change ([4; 20] !!! 0%nat) with 4. change ([4; 20] !!! 1%nat) with 20.
  change ([c0; c1] !!! 0%nat) with c0. change ([c0; c1] !!! 1%nat) with c1.
  change (u16 (4 + 3 * 0 + 0)) with 4. change (u16 (4 + 3 * (0 + 1) + 0 - 1)) with 6.
  change (u16 (4 + 3 * 1 + 1)) with 8. change (u16 (4 + 3 * (1 + 1) + 1 - 1)) with 10.
  change (u16 (20 + 3 * 0 + 0)) with 20. change (u16 (20 + 3 * (0 + 1) + 0 - 1)) with 22.
  change (u16 (20 + 3 * 1 + 1)) with 24. change (u16 (20 + 3 * (1 + 1) + 1 - 1)) with 26.
  change (0 + 1) with 1. change (1 + 1) with 2.
  destruct (drawHLine_then fuel 15 4 6 (c0 >=? 1) w)
    as (b1 & w1 & E1 & Hwf1 & Hfit1 & Hcol1 & Hr1 & P1);
    [done|done|done|unfold is_u16; lia|lia|lia|lia|].
  destruct (drawHLine_then fuel 15 8 10 (c0 >=? 2) w1)
    as (b2 & w2 & E2 & Hwf2 & Hfit2 & Hcol2 & Hr2 & P2);
    [done|done|done|unfold is_u16; lia|lia|lia|lia|].
  destruct (drawHLine_then fuel 15 20 22 (c1 >=? 1) w2)
    as (b3 & w3 & E3 & Hwf3 & Hfit3 & Hcol3 & Hr3 & P3);
    [done|done|done|unfold is_u16; lia|lia|lia|lia|].
  destruct (drawHLine_then fuel 15 24 26 (c1 >=? 2) w3)
    as (b4 & w4 & E4 & Hwf4 & Hfit4 & Hcol4 & Hr4 & P4);
    [done|done|done|unfold is_u16; lia|lia|lia|lia|].
  exists w4. split.
  { assert (I1 : (drawHLine fuel 15 4 6 (c0 >=? 1) ;; ret tt) w = Some (tt, w1))
      by (by rewrite (M_bind_Some _ _ _ _ _ E1)).
    assert (I2 : (drawHLine fuel 15 8 10 (c0 >=? 2) ;; ret tt) w1 = Some (tt, w2))
      by (by rewrite (M_bind_Some _ _ _ _ _ E2)).
    assert (I3 : (drawHLine fuel 15 20 22 (c1 >=? 1) ;; ret tt) w2 = Some (tt, w3))
      by (by rewrite (M_bind_Some _ _ _ _ _ E3)).
    assert (I4 : (drawHLine fuel 15 24 26 (c1 >=? 2) ;; ret tt) w3 = Some (tt, w4))
      by (by rewrite (M_bind_Some _ _ _ _ _ E4)).
    rewrite (M_bind_Some _ _ w tt w2).
    2:{ by rewrite (M_bind_Some _ _ _ _ _ I1), (M_bind_Some _ _ _ _ _ I2). }
    rewrite (M_bind_Some _ _ w2 tt w4); [done|].
    by rewrite (M_bind_Some _ _ _ _ _ I3), (M_bind_Some _ _ _ _ _ I4). }
  intros x y Hin.
  assert (Hin1 : in_range (panel w1) x y) by (by apply Hr1).
  assert (Hin2 : in_range (panel w2) x y) by (by apply Hr2).
  assert (Hin3 : in_range (panel w3) x y) by (by apply Hr3).
  rewrite (P4 x y Hin3), (P3 x y Hin2), (P2 x y Hin1), (P1 x y Hin).
  unfold timeout_bar.
  destruct (y =? 15) eqn:Ey; [apply Z.eqb_eq in Ey | apply Z.eqb_neq in Ey];
    repeat case_bool_decide; try lia; reflexivity.
Qed.

(** The timeout bars follow the counts.  [showTimeout] draws the four
    bars: afterwards an in-range point of row 15 on a bar is lit exactly
    when that timeout has been taken, and every other in-range point keeps
    its value.  A press of the timeout key of team [t] steps its count
    round 0, 1, 2, leaves the other count, and redraws the bars for the new
    counts. *)
Theorem timeout_bars_follow_the_counts
    (fuel : nat) (t : nat) (c0 c1 : Z) (w : World) :
  panel_wf (panel w) → chain_fits (panel w) → columns_fit (panel w) →
  (4 < fuel)%nat → (t < 2)%nat → 0 ≤ c0 ≤ 2 → 0 ≤ c1 ≤ 2 →
  (∃ w',
     Basketball.showTimeout fuel [c0; c1] w = Some (tt, w') ∧
     ∀ x y, in_range (panel w) x y →
       getPoint (panel w') x y
       = match (if y =? 15 then timeout_bar c0 c1 x else None) with
         | Some lit => lit
         | None => getPoint (panel w) x y
         end) ∧
  let c0' := if decide (t = 0%nat) then (c0 + 1) mod 3 else c0 in
  let c1' := if decide (t = 1%nat) then (c1 + 1) mod 3 else c1 in
  ∃ w',
    Basketball.timeout_key fuel t [c0; c1] w = Some ([c0'; c1'], w') ∧
    ∀ x y, in_range (panel w) x y →
      getPoint (panel w') x y
      = match (if y =? 15 then timeout_bar c0' c1' x else None) with
        | Some lit => lit
        | None => getPoint (panel w) x y
        end.
Proof.
  intros Hwf Hfit Hcol Hfuel Ht Hc0 Hc1.
  split; [by apply showTimeout_run|]. cbv zeta.
  assert (Hstep : ∀ c, 0 ≤ c ≤ 2 →
            (if u8 (c + 1) >? Basketball.MAX_TIMEOUT then 0 else u8 (c + 1))
            = (c + 1) mod 3).
  { intros c Hc. rewrite u8_id by (unfold is_u8; lia).
    unfold Basketball.MAX_TIMEOUT.
    destruct (decide (c = 2)) as [->|Hne]; [reflexivity|].
    replace (c + 1 >? 2) with false by (symmetry; rewrite Z.gtb_ltb; apply Z.ltb_ge; lia).
    symmetry. apply Z.mod_small. lia. }
  unfold Basketball.timeout_key. cbv zeta.
  destruct t as [|[|t]]; [| |lia];
    cbn [lookup_total list_lookup_total insert list_insert];
    rewrite Hstep by done;
    repeat case_decide; try done.
  - destruct (showTimeout_run fuel ((c0 + 1) mod 3) c1 w Hwf Hfit Hcol Hfuel)
      as (w' & Hrun & Hpic).
    exists w'. split; [|done]. by rewrite (M_bind_Some _ _ _ _ _ Hrun).
  - destruct (showTimeout_run fuel c0 ((c1 + 1) mod 3) w Hwf Hfit Hcol Hfuel)
      as (w' & Hrun & Hpic).
    exists w'. split; [|done]. by rewrite (M_bind_Some _ _ _ _ _ Hrun).
Qed.

(** ** The scoreboard class *)

(** *** Node pointers *)

Lemma load_cons_last fd rest :
  cScoreboard.load (fd :: rest) (length rest) = Some fd.
Proof.
  unfold cScoreboard.load. cbn [length].
  replace (length rest <? S (length rest))%nat with true
    by (symmetry; apply Nat.ltb_lt; lia).
  by replace (S (length rest) - 1 - length rest)%nat with 0%nat by lia.
Qed.

Lemma load_cons_older fd rest p :
  (p < length rest)%nat →
  cScoreboard.load (fd :: rest) p = cScoreboard.load rest p.
Proof.
  intros Hp. unfold cScoreboard.load. cbn [length].
  replace (p <? S (length rest))%nat with true by (symmetry; apply Nat.ltb_lt; lia).
  replace (p <? length rest)%nat with true by (symmetry; apply Nat.ltb_lt; lia).
  by replace (S (length rest) - 1 - p)%nat with (S (length rest - 1 - p)) by lia.
Qed.

Lemma store_cons_last fd rest fd' :
  cScoreboard.store (fd :: rest) (length rest) fd' = fd' :: rest.
Proof.
  unfold cScoreboard.store. cbn [length].
  replace (length rest <? S (length rest))%nat with true
    by (symmetry; apply Nat.ltb_lt; lia).
  by replace (S (length rest) - 1 - length rest)%nat with 0%nat by lia.
Qed.

Lemma store_cons_older fd rest p fd' :
  (p < length rest)%nat →
  cScoreboard.store (fd :: rest) p fd' = fd :: cScoreboard.store rest p fd'.
Proof.
  intros Hp. unfold cScoreboard.store. cbn [length].
  replace (p <? S (length rest))%nat with true by (symmetry; apply Nat.ltb_lt; lia).
  replace (p <? length rest)%nat with true by (symmetry; apply Nat.ltb_lt; lia).
  by replace (S (length rest) - 1 - p)%nat with (S (length rest - 1 - p)) by lia.
Qed.

Lemma load_Some l p fd : cScoreboard.load l p = Some fd → (p < length l)%nat.
Proof.
  unfold cScoreboard.load. destruct (p <? length l)%nat eqn:E; [|done].
  intros _. by apply Nat.ltb_lt.
Qed.

Lemma length_store l p fd : length (cScoreboard.store l p fd) = length l.
Proof.
  unfold cScoreboard.store. destruct (p <? length l)%nat; [|done].
  apply length_insert.
Qed.

(** [findField] returns a pointer to the first node with the id. *)
Lemma findField_from_bound l i p :
  cScoreboard.findField_from l i = Some p → (p < length l)%nat.
Proof.
  induction l as [|fd rest IH]; cbn [cScoreboard.findField_from length]; [done|].
  destruct (cScoreboard.id fd =? i).
  - intros [= <-]. lia.
  - intros H%IH. lia.
Qed.

Lemma findField_from_first l i :
  match cScoreboard.findField_from l i with
  | Some p => cScoreboard.load l p
  | None => None
  end = first_with l i.
Proof.
  induction l as [|fd rest IH]; cbn [cScoreboard.findField_from first_with]; [done|].
  destruct (cScoreboard.id fd =? i); [apply load_cons_last|].
  destruct (cScoreboard.findField_from rest i) as [p|] eqn:Hf; [|done].
  rewrite load_cons_older; [done|]. by apply findField_from_bound in Hf.
Qed.

Lemma findField_from_None l i :
  cScoreboard.findField_from l i = None ↔ first_with l i = None.
Proof.
  induction l as [|fd rest IH]; cbn [cScoreboard.findField_from first_with]; [done|].
  by destruct (cScoreboard.id fd =? i).
Qed.

Lemma findField_from_store l i p fd' :
  cScoreboard.findField_from l i = Some p →
  cScoreboard.store l p fd' = change_first l i (λ _, fd').
Proof.
  revert p. induction l as [|fd rest IH]; intros p;
    cbn [cScoreboard.findField_from change_first]; [done|].
  destruct (cScoreboard.id fd =? i).
  - intros [= <-]. apply store_cons_last.
  - intros Hf. rewrite store_cons_older by (by apply findField_from_bound in Hf).
    by rewrite (IH p Hf).
Qed.

Lemma first_with_id l i fd : first_with l i = Some fd → cScoreboard.id fd = i.
Proof.
  induction l as [|fd' rest IH]; cbn [first_with]; [done|].
  destruct (cScoreboard.id fd' =? i) eqn:E; [|done].
  intros [= <-]. by apply Z.eqb_eq.
Qed.

Lemma first_with_None l i : first_with l i = None ↔ i ∉ map cScoreboard.id l.
Proof.
  induction l as [|fd rest IH]; cbn [first_with map].
  - split; [intros _; apply not_elem_of_nil|done].
  - rewrite not_elem_of_cons.
    destruct (cScoreboard.id fd =? i) eqn:E;
      [apply Z.eqb_eq in E | apply Z.eqb_neq in E].
    + split; [done|]. intros [? _]. congruence.
    + rewrite IH. split; [intros ?; split; [congruence|done] | by intros [_ ?]].
Qed.

(** Changing a field through [g], which keeps ids, is seen by the lookup
    of that id and by no other. *)
Lemma first_with_change_first l i j g :
  (∀ fd, cScoreboard.id (g fd) = cScoreboard.id fd) →
  first_with (change_first l i g) j
  = if decide (j = i) then g <$> first_with l i else first_with l j.
Proof.
  intros Hg. induction l as [|fd rest IH]; cbn [change_first first_with].
  { by destruct (decide (j = i)). }
  destruct (cScoreboard.id fd =? i) eqn:E;
    [apply Z.eqb_eq in E | apply Z.eqb_neq in E]; cbn [first_with].
  - rewrite Hg, E. destruct (decide (j = i)) as [->|Hne].
    + by rewrite Z.eqb_refl.
    + replace (i =? j) with false by (symmetry; apply Z.eqb_neq; congruence).
      reflexivity.
  - rewrite IH. destruct (decide (j = i)) as [->|Hne].
    + by replace (cScoreboard.id fd =? i) with false
        by (symmetry; by apply Z.eqb_neq).
    + reflexivity.
Qed.

Lemma map_id_change_first l i g :
  (∀ fd, cScoreboard.id (g fd) = cScoreboard.id fd) →
  map cScoreboard.id (change_first l i g) = map cScoreboard.id l.
Proof.
  intros Hg. induction l as [|fd rest IH]; cbn [change_first map]; [done|].
  destruct (cScoreboard.id fd =? i); cbn [map]; [by rewrite Hg|by rewrite IH].
Qed.

Lemma change_first_const l i g fd :
  first_with l i = Some fd →
  change_first l i (λ _, g fd) = change_first l i g.
Proof.
  induction l as [|fd' rest IH]; cbn [change_first first_with]; [done|].
  destruct (cScoreboard.id fd' =? i).
  - by intros [= ->].
  - intros H. by rewrite IH.
Qed.

(** The setters, without pointers. *)
Lemma with_field_first sb i g :
  cScoreboard.with_field sb i g
  = match first_with (cScoreboard._fieldList sb) i with
    | Some _ => (true, cScoreboard.mk true
                         (change_first (cScoreboard._fieldList sb) i g)
                         (cScoreboard._clock sb))
    | None => (false, sb)
    end.
Proof.
  unfold cScoreboard.with_field, cScoreboard.findField.
  pose proof (findField_from_first (cScoreboard._fieldList sb) i) as Hf.
  destruct (cScoreboard.findField_from (cScoreboard._fieldList sb) i) as [p|] eqn:Hp.
  - rewrite Hf. destruct (first_with _ i) as [fd|] eqn:Hfd.
    + by rewrite (findField_from_store _ i p _ Hp), (change_first_const _ i g fd Hfd).
    + apply findField_from_None in Hfd. congruence.
  - by rewrite <- Hf.
Qed.

Lemma fieldGetValue_first sb i :
  cScoreboard.fieldGetValue sb i
  = match first_with (cScoreboard._fieldList sb) i with
    | Some fd => cScoreboard.value fd
    | None => 0
    end.
Proof.
  unfold cScoreboard.fieldGetValue, cScoreboard.findField.
  pose proof (findField_from_first (cScoreboard._fieldList sb) i) as Hf.
  destruct (cScoreboard.findField_from _ i); rewrite <- Hf; [|done].
  by destruct (cScoreboard.load _ _).
Qed.

Lemma findField_first sb i :
  cScoreboard.findField sb i = None ↔ first_with (cScoreboard._fieldList sb) i = None.
Proof. apply findField_from_None. Qed.

(** *** Fields *)

Lemma elem_of_field_ids sb i :
  i ∈ field_ids sb ↔ first_with (cScoreboard._fieldList sb) i ≠ None.
Proof.
  unfold field_ids. rewrite first_with_None.
  destruct (decide (i ∈ map cScoreboard.id (cScoreboard._fieldList sb))); tauto.
Qed.

(** [fieldCreate] reports [false] whatever it does.  With memory at hand
    and an id that is not in use it puts a field of value 0 at the head of
    the list, which the lookup then finds; otherwise the object is left as
    it is.  Fields with other ids read as before, and the ids stay
    distinct. *)
Theorem fieldCreate_links_the_field_but_reports_false
    (mem : bool) (sb : cScoreboard.t) (i x y : Z) (ty : cScoreboard.fieldType_t)
    (sz : Z) (lz : bool) :
  let r := cScoreboard.fieldCreate mem sb i x y ty sz lz in
  r.1 = false ∧
  (i ∉ field_ids sb → mem = true →
     cScoreboard._fieldList r.2
     = cScoreboard.mkField i ty x y 0 lz sz :: cScoreboard._fieldList sb ∧
     cScoreboard._changed r.2 = true ∧
     cScoreboard.findField r.2 i = Some (length (cScoreboard._fieldList sb)) ∧
     cScoreboard.fieldGetValue r.2 i = 0) ∧
  (i ∈ field_ids sb ∨ mem = false → r.2 = sb) ∧
  (∀ j, j ≠ i → cScoreboard.fieldGetValue r.2 j = cScoreboard.fieldGetValue sb j) ∧
  (NoDup (field_ids sb) → NoDup (field_ids r.2)).
Proof.
  cbv zeta. unfold cScoreboard.fieldCreate. cbv zeta.
  pose proof (findField_first sb i) as Hnone.
  pose proof (elem_of_field_ids sb i) as Hin.
  split; [by apply bool_decide_eq_false; intros H; apply H|].
  destruct (cScoreboard.findField sb i) as [p|] eqn:Hf; cbn [snd].
  - assert (i ∈ field_ids sb).
    { apply Hin. intros H0. apply Hnone in H0. discriminate. }
    split; [done|]. split; [done|]. split; [done|]. done.
  - assert (i ∉ field_ids sb).
    { intros H0%Hin. apply H0, Hnone. reflexivity. }
    destruct mem.
    + split; [|split; [|split]].
      * intros _ _. cbn [cScoreboard._fieldList cScoreboard._changed].
        split; [done|]. split; [done|].
        unfold cScoreboard.findField, cScoreboard.fieldGetValue, cScoreboard.findField.
        cbn [cScoreboard._fieldList cScoreboard.findField_from cScoreboard.id].
        rewrite Z.eqb_refl. split; [done|]. by rewrite load_cons_last.
      * intros [?|?]; done.
      * intros j Hj. rewrite !fieldGetValue_first.
        cbn [cScoreboard._fieldList first_with cScoreboard.id].
        by replace (i =? j) with false by (symmetry; apply Z.eqb_neq; congruence).
      * intros Hnd. unfold field_ids in *.
        cbn [cScoreboard._fieldList map cScoreboard.id].
        by apply NoDup_cons.
    + split; [done|]. split; [done|]. split; done.
Qed.

Lemma fieldSetValue_read (sb : cScoreboard.t) (i j v : Z) :
  cScoreboard.fieldGetValue (cScoreboard.fieldSetValue sb i v) j
  = match first_with (cScoreboard._fieldList sb) i with
    | Some _ => if decide (j = i) then v else cScoreboard.fieldGetValue sb j
    | None => cScoreboard.fieldGetValue sb j
    end.
Proof.
  unfold cScoreboard.fieldSetValue. rewrite with_field_first, !fieldGetValue_first.
  destruct (first_with (cScoreboard._fieldList sb) i) as [fd|] eqn:Hfd;
    cbn [snd cScoreboard._fieldList]; [|done].
  rewrite first_with_change_first by done.
  destruct (decide (j = i)) as [->|Hne]; [by rewrite Hfd|done].
Qed.

(** [fieldGetValue] after [fieldSetValue]: the value set, when the field
    exists and is the one asked for; what it was before, otherwise (0 for
    an id that is not in use). *)
Theorem fieldGetValue_after_fieldSetValue (sb : cScoreboard.t) (i j v : Z) :
  cScoreboard.fieldGetValue (cScoreboard.fieldSetValue sb i v) j
  = (if bool_decide (j = i ∧ i ∈ field_ids sb) then v
     else cScoreboard.fieldGetValue sb j)
  ∧ field_ids (cScoreboard.fieldSetValue sb i v) = field_ids sb
  ∧ (i ∉ field_ids sb → cScoreboard.fieldSetValue sb i v = sb
                        ∧ cScoreboard.fieldGetValue sb i = 0).
Proof.
  rewrite fieldSetValue_read.
  unfold cScoreboard.fieldSetValue. rewrite with_field_first, !fieldGetValue_first.
  pose proof (elem_of_field_ids sb i) as Hin. unfold field_ids in *.
  destruct (first_with (cScoreboard._fieldList sb) i) as [fd|] eqn:Hfd;
    cbn [snd cScoreboard._fieldList].
  - rewrite map_id_change_first by done.
    split; [|split; [done|]].
    + destruct (decide (j = i)) as [->|Hne].
      * rewrite bool_decide_true; [done|]. split; [done|]. by apply Hin.
      * rewrite bool_decide_false; [done|]. by intros [? _].
    + intros Hnot. exfalso. apply Hnot, Hin. done.
  - split; [|split; [done|]].
    + rewrite bool_decide_false; [done|]. intros [_ Hi%Hin]. by apply Hi.
    + done.
Qed.

(** [fieldValueAdd] on 32-bit values and an 8-bit delta: the value moves
    by [delta] but never below zero (a subtraction that would pass zero
    leaves 0); at the top of the range the addition wraps.  No other field
    changes. *)
Theorem fieldValueAdd_stops_at_zero (sb : cScoreboard.t) (i j delta : Z) :
  values_u32 sb → -128 ≤ delta ≤ 127 →
  cScoreboard.fieldGetValue (cScoreboard.fieldValueAdd sb i delta) j
  = (if bool_decide (j = i ∧ i ∈ field_ids sb)
     then u32 (Z.max 0 (cScoreboard.fieldGetValue sb i + delta))
     else cScoreboard.fieldGetValue sb j)
  ∧ values_u32 (cScoreboard.fieldValueAdd sb i delta).
Proof.
  intros Hval Hdelta.
  unfold cScoreboard.fieldValueAdd. rewrite with_field_first, !fieldGetValue_first.
  pose proof (elem_of_field_ids sb i) as Hin. unfold field_ids in *.
  set (g := λ fd, if (delta <? 0) && (Z.abs delta >? cScoreboard.value fd)
                  then cScoreboard.set_value fd 0
                  else cScoreboard.set_value fd (u32 (cScoreboard.value fd + delta))).
  assert (Hg : ∀ fd, cScoreboard.id (g fd) = cScoreboard.id fd).
  { intros fd. unfold g. by destruct (_ && _). }
  assert (Hgv : ∀ fd, 0 ≤ cScoreboard.value fd →
            cScoreboard.value (g fd) = u32 (Z.max 0 (cScoreboard.value fd + delta))).
  { intros fd Hv. unfold g.
    destruct ((delta <? 0) && (Z.abs delta >? cScoreboard.value fd)) eqn:E;
      cbn [cScoreboard.set_value cScoreboard.value].
    - apply andb_true_iff in E as [E1%Z.ltb_lt E2%Z.gtb_lt].
      by replace (Z.max 0 (cScoreboard.value fd + delta)) with 0 by lia.
    - apply andb_false_iff in E as [E%Z.ltb_ge|E]; [f_equal; lia|].
      rewrite Z.gtb_ltb in E. apply Z.ltb_ge in E. f_equal. lia. }
  assert (Hu : ∀ z, 0 ≤ u32 z < 2 ^ 32).
  { intros z. unfold u32, uwrap. apply Z.mod_pos_bound. lia. }
  assert (Hfirst : ∀ l fd, Forall (λ fd, 0 ≤ cScoreboard.value fd < 2 ^ 32) l →
            first_with l i = Some fd → 0 ≤ cScoreboard.value fd < 2 ^ 32).
  { clear. induction l as [|fd' rest IH]; intros fd Hall; cbn [first_with]; [done|].
    apply Forall_cons in Hall as [Hhd Htl].
    destruct (cScoreboard.id fd' =? i); [by intros [= <-]|by apply IH]. }
  destruct (first_with (cScoreboard._fieldList sb) i) as [fd|] eqn:Hfd;
    cbn [snd cScoreboard._fieldList].
  - pose proof (Hfirst _ _ Hval Hfd) as Hv.
    split.
    + rewrite first_with_change_first by done.
      destruct (decide (j = i)) as [->|Hne].
      * rewrite Hfd, bool_decide_true; [|split; [done|by apply Hin]].
        cbn [fmap option_fmap option_map]. apply Hgv. lia.
      * rewrite bool_decide_false; [done|]. by intros [? _].
    + unfold values_u32 in *. cbn [cScoreboard._fieldList].
      clear Hfd Hv Hin. induction (cScoreboard._fieldList sb) as [|fd' rest IH];
        cbn [change_first]; [done|].
      apply Forall_cons in Hval as [Hhd Htl].
      destruct (cScoreboard.id fd' =? i).
      * apply Forall_cons. split; [|done]. rewrite Hgv by lia. apply Hu.
      * apply Forall_cons. split; [done|]. by apply IH.
  - split; [|done].
    rewrite bool_decide_false; [done|]. intros [_ Hi%Hin]. by apply Hi.
Qed.

(** *** Clocks and the fields they point to *)

(** Writing through a pointer to a field with another id does not change
    what the lookup of [j] finds. *)
Lemma first_with_store l p fd fd' j :
  cScoreboard.load l p = Some fd →
  cScoreboard.id fd' = cScoreboard.id fd → cScoreboard.id fd ≠ j →
  first_with (cScoreboard.store l p fd') j = first_with l j.
Proof.
  intros Hload Hid Hne. induction l as [|a rest IH].
  { unfold cScoreboard.load in Hload. cbn in Hload. done. }
  pose proof (load_Some _ _ _ Hload) as Hp. cbn [length] in Hp.
  destruct (decide (p = length rest)) as [->|Hp'].
  - rewrite load_cons_last in Hload. injection Hload as ->.
    rewrite store_cons_last. cbn [first_with]. rewrite Hid.
    by replace (cScoreboard.id fd =? j) with false by (symmetry; by apply Z.eqb_neq).
  - rewrite load_cons_older in Hload by lia.
    rewrite store_cons_older by lia. cbn [first_with]. by rewrite IH.
Qed.

(** [findClock] stops at a slot whose field has the id. *)
Lemma findClock_from_found l i : ∀ cs idx0,
  let r := cScoreboard.findClock_from l cs idx0 i in
  idx0 ≤ r ≤ idx0 + Z.of_nat (length cs) ∧
  (r < idx0 + Z.of_nat (length cs) →
   ∃ c p fd, cs !! Z.to_nat (r - idx0) = Some c ∧ cScoreboard.f c = Some p ∧
             cScoreboard.load l p = Some fd ∧ cScoreboard.id fd = i).
Proof.
  induction cs as [|c rest IH]; intros idx0; cbn [cScoreboard.findClock_from length].
  { cbv zeta. split; [lia|]. lia. }
  assert (Hrest :
    let r := cScoreboard.findClock_from l rest (idx0 + 1) i in
    idx0 ≤ r ≤ idx0 + Z.of_nat (S (length rest)) ∧
    (r < idx0 + Z.of_nat (S (length rest)) →
     ∃ c0 p fd, (c :: rest) !! Z.to_nat (r - idx0) = Some c0 ∧
                cScoreboard.f c0 = Some p ∧
                cScoreboard.load l p = Some fd ∧ cScoreboard.id fd = i)).
  { destruct (IH (idx0 + 1)) as [Hb Hex]. cbv zeta in *. split; [lia|].
    intros Hlt. destruct Hex as (c0 & p & fd & Hc0 & ?); [lia|].
    exists c0, p, fd. split; [|done].
    replace (Z.to_nat (cScoreboard.findClock_from l rest (idx0 + 1) i - idx0))
      with (S (Z.to_nat (cScoreboard.findClock_from l rest (idx0 + 1) i - (idx0 + 1))))
      by lia.
    done. }
  destruct (cScoreboard.f c) as [p|] eqn:Hf; [|exact Hrest].
  destruct (cScoreboard.load l p) as [fd|] eqn:Hl; [|exact Hrest].
  destruct (cScoreboard.id fd =? i) eqn:E; [|exact Hrest].
  apply Z.eqb_eq in E. cbv zeta. split; [lia|]. intros _.
  exists c, p, fd. rewrite Z.sub_diag. done.
Qed.

Lemma findClock_found sb i :
  cScoreboard.findClock sb i ≠ -1 →
  ∀ c, cScoreboard.get_clock sb (cScoreboard.findClock sb i) = Some c →
  ∃ p fd, cScoreboard.f c = Some p ∧
          cScoreboard.load (cScoreboard._fieldList sb) p = Some fd ∧
          cScoreboard.id fd = i.
Proof.
  unfold cScoreboard.findClock, cScoreboard.get_clock. cbv zeta.
  destruct (findClock_from_found (cScoreboard._fieldList sb) i
              (cScoreboard._clock sb) 0) as [Hb Hex]. cbv zeta in *.
  set (r := cScoreboard.findClock_from _ _ 0 i) in *.
  destruct (r >=? cScoreboard.MAX_CLOCKS) eqn:E; [done|]. intros _ c Hc.
  assert (r < 0 + Z.of_nat (length (cScoreboard._clock sb))) as Hlt.
  { apply lookup_lt_Some in Hc. lia. }
  destruct (Hex Hlt) as (c0 & p & fd & Hc0 & Hf & Hl & Hid).
  rewrite Z.sub_0_r in Hc0. rewrite Hc in Hc0. injection Hc0 as <-.
  by exists p, fd.
Qed.

(** The clock methods leave the fields with other ids alone. *)
Lemma clockReset_other_fields now sb i m j :
  j ≠ i →
  first_with (cScoreboard._fieldList (cScoreboard.clockReset now sb i m)) j
  = first_with (cScoreboard._fieldList sb) j.
Proof.
  intros Hne. unfold cScoreboard.clockReset. cbv zeta.
  destruct (cScoreboard.findClock sb i =? -1) eqn:E; [done|].
  apply Z.eqb_neq in E.
  destruct (cScoreboard.get_clock sb (cScoreboard.findClock sb i)) as [c|] eqn:Hc;
    [|done].
  destruct (findClock_found sb i E c Hc) as (p & fd & Hf & Hl & Hid).
  rewrite Hf, Hl. cbn [cScoreboard._fieldList].
  apply (first_with_store _ p fd); [done|done|congruence].
Qed.

Lemma clockToggle_fields now sb i :
  cScoreboard._fieldList (cScoreboard.clockToggle now sb i) = cScoreboard._fieldList sb.
Proof.
  unfold cScoreboard.clockToggle, cScoreboard.clockStart, cScoreboard.clockStop.
  cbv zeta. destruct (cScoreboard.findClock sb i =? -1); [done|].
  destruct (cScoreboard.get_clock _ _) as [c|]; [|done].
  by destruct (cScoreboard.stopped c).
Qed.

(** *** The tick of a clock *)

Lemma u32_add_l a b : u32 (u32 a + b) = u32 (a + b).
Proof. unfold u32, uwrap. apply Zplus_mod_idemp_l. Qed.

Lemma u32_add_r a b : u32 (a + u32 b) = u32 (a + b).
Proof. unfold u32, uwrap. apply Zplus_mod_idemp_r. Qed.

Lemma u32_range z : 0 ≤ u32 z < 2 ^ 32.
Proof. unfold u32, uwrap. apply Z.mod_pos_bound. lia. Qed.

Lemma load_store l p fd fd' :
  cScoreboard.load l p = Some fd →
  cScoreboard.load (cScoreboard.store l p fd') p = Some fd'.
Proof.
  intros Hl. pose proof (load_Some _ _ _ Hl) as Hp.
  unfold cScoreboard.load, cScoreboard.store.
  replace (p <? length l)%nat with true by (symmetry; by apply Nat.ltb_lt).
  rewrite length_insert.
  replace (p <? length l)%nat with true by (symmetry; by apply Nat.ltb_lt).
  apply list_lookup_insert_eq. lia.
Qed.

Lemma processClock_idle now sb k :
  (∀ c, cScoreboard._clock sb !! k = Some c → idle c) →
  cScoreboard.processClock now sb k = sb.
Proof.
  intros Hidle. unfold cScoreboard.processClock.
  destruct (cScoreboard._clock sb !! k) as [c|] eqn:Hc; [|done].
  destruct (Hidle c eq_refl) as [->|Hs]; [done|].
  destruct (cScoreboard.f c); [|done]. by rewrite Hs.
Qed.

Lemma processClock_other_slots now sb i k :
  k ≠ i →
  cScoreboard._clock (cScoreboard.processClock now sb i) !! k
  = cScoreboard._clock sb !! k.
Proof.
  intros Hne. unfold cScoreboard.processClock.
  destruct (cScoreboard._clock sb !! i) as [c|]; [|done].
  destruct (cScoreboard.f c); [|done].
  destruct (_ && _); [|done].
  destruct (cScoreboard.load _ _); [|done].
  cbn [cScoreboard._clock]. by apply list_lookup_insert_ne.
Qed.

(** With every other slot idle, [processClocks] is one round of its loop
    for the slot [i]. *)
Lemma processClocks_single now sb (i : nat) :
  (i < 3)%nat →
  (∀ k c, k ≠ i → cScoreboard._clock sb !! k = Some c → idle c) →
  cScoreboard.processClocks now sb = cScoreboard.processClock now sb i.
Proof.
  intros Hi Hidle. unfold cScoreboard.processClocks.
  change (seq 0 (Z.to_nat cScoreboard.MAX_CLOCKS)) with [0; 1; 2]%nat.
  cbn [foldl].
  assert (Hafter : ∀ k, k ≠ i →
            cScoreboard.processClock now (cScoreboard.processClock now sb i) k
            = cScoreboard.processClock now sb i).
  { intros k Hk. apply processClock_idle. intros c.
    rewrite processClock_other_slots by done. by apply Hidle. }
  assert (Hbefore : ∀ k, k ≠ i → cScoreboard.processClock now sb k = sb).
  { intros k Hk. apply processClock_idle. intros c. by apply Hidle. }
  destruct i as [|[|[|i]]]; [| | |lia].
  - by rewrite !Hafter by lia.
  - by rewrite (Hbefore 0%nat), !Hafter by lia.
  - by rewrite (Hbefore 0%nat), (Hbefore 1%nat) by lia.
Qed.

(** [processClocks] on a running clock, every other slot being idle.
    Before the period is over nothing changes.  Once it is over, the field
    moves one step (up or down, in [uint32_t]), the clock stops if that
    reached the limit (counting up) or zero (counting down), and the next
    period is shortened by the overrun; an overrun of more than one period
    makes the new period wrap around the 32-bit range. *)
Theorem processClocks_ticks_when_the_period_is_over
    (now : Z) (sb : cScoreboard.t) (i : nat) (c : cScoreboard.clock_t)
    (p : nat) (fd : cScoreboard.field_t) :
  (i < 3)%nat → cScoreboard._clock sb !! i = Some c →
  (∀ k c', k ≠ i → cScoreboard._clock sb !! k = Some c' → idle c') →
  cScoreboard.f c = Some p → cScoreboard.stopped c = false →
  cScoreboard.load (cScoreboard._fieldList sb) p = Some fd →
  0 ≤ now < 2 ^ 32 → 0 ≤ cScoreboard.timeLast c < 2 ^ 32 →
  0 ≤ cScoreboard.timeToGo c < 2 ^ 32 →
  let sb' := cScoreboard.processClocks now sb in
  let elapsed := u32 (now - cScoreboard.timeLast c) in
  let v' := u32 (cScoreboard.value fd + (if cScoreboard.countUp c then 1 else -1)) in
  (elapsed < cScoreboard.timeToGo c → sb' = sb) ∧
  (cScoreboard.timeToGo c ≤ elapsed →
   cScoreboard.load (cScoreboard._fieldList sb') p = Some (cScoreboard.set_value fd v') ∧
   cScoreboard._changed sb' = true ∧
   ∃ c', cScoreboard._clock sb' !! i = Some c' ∧
         cScoreboard.f c' = Some p ∧
         cScoreboard.timeLimit c' = cScoreboard.timeLimit c ∧
         cScoreboard.countUp c' = cScoreboard.countUp c ∧
         cScoreboard.timeLast c' = now ∧
         cScoreboard.stopped c'
         = (if cScoreboard.countUp c then v' =? cScoreboard.timeLimit c else v' =? 0) ∧
         cScoreboard.timeToGo c'
         = (if elapsed - cScoreboard.timeToGo c <=? 1000
            then 1000 - (elapsed - cScoreboard.timeToGo c)
            else 2 ^ 32 + 1000 - (elapsed - cScoreboard.timeToGo c))).
Proof.
  intros Hi Hc Hidle Hf Hrun Hload Hnow Hlast Htogo sb' elapsed v'.
  unfold sb'. rewrite (processClocks_single now sb i Hi Hidle).
  unfold cScoreboard.processClock. rewrite Hc, Hf, Hrun. cbn [negb andb].
  fold elapsed. pose proof (u32_range (now - cScoreboard.timeLast c)) as He.
  fold elapsed in He. split.
  - intros Hlt.
    by replace (elapsed >=? cScoreboard.timeToGo c) with false
      by (symmetry; rewrite Z.geb_leb; apply Z.leb_gt; lia).
  - intros Hge.
    replace (elapsed >=? cScoreboard.timeToGo c) with true
      by (symmetry; rewrite Z.geb_leb; apply Z.leb_le; lia).
    rewrite Hload. cbv zeta. cbn [cScoreboard._fieldList cScoreboard._changed
                                   cScoreboard._clock].
    fold v'. split; [by apply (load_store _ _ fd)|]. split; [done|].
    eexists. split.
    { apply list_lookup_insert_eq. by apply lookup_lt_Some in Hc. }
    cbn [cScoreboard.f cScoreboard.timeLimit cScoreboard.countUp
           cScoreboard.timeLast cScoreboard.stopped cScoreboard.timeToGo].
    split; [done|]. split; [done|]. split; [done|]. split; [done|]. split.
    + destruct (cScoreboard.countUp c); cbn [andb negb orb]; [|done].
      by rewrite orb_false_r.
    + unfold cScoreboard.CLOCK_PERIOD.
      set (over := elapsed - cScoreboard.timeToGo c).
      assert (Hmod : u32 (1000 + u32 (u32 (cScoreboard.timeLast c - now)
                                      + cScoreboard.timeToGo c))
                     = u32 (1000 - over)).
      { rewrite u32_add_r.
        replace (1000 + (u32 (cScoreboard.timeLast c - now) + cScoreboard.timeToGo c))
          with (u32 (cScoreboard.timeLast c - now) + (1000 + cScoreboard.timeToGo c))
          by lia.
        rewrite u32_add_l. unfold over, elapsed.
        assert (Hq : ∃ q, u32 (now - cScoreboard.timeLast c)
                          = now - cScoreboard.timeLast c + q * 2 ^ 32).
        { exists (- ((now - cScoreboard.timeLast c) / 2 ^ 32)).
          unfold u32, uwrap. rewrite Z.mod_eq by lia. lia. }
        destruct Hq as [q ->].
        replace (1000 - (now - cScoreboard.timeLast c + q * 2 ^ 32
                         - cScoreboard.timeToGo c))
          with (cScoreboard.timeLast c - now + (1000 + cScoreboard.timeToGo c)
                + (- q) * 2 ^ 32) by lia.
        unfold u32, uwrap. by rewrite Z_mod_plus_full. }
      rewrite Hmod. unfold u32, uwrap.
      destruct (over <=? 1000) eqn:E; [apply Z.leb_le in E | apply Z.leb_gt in E].
      * apply Z.mod_small. unfold over. lia.
      * symmetry. apply (Z.mod_unique_pos _ _ (-1)); unfold over; lia.
Qed.

(** *** Creating, pausing and resuming a clock *)

Lemma findClock_from_alter l i g :
  (∀ c, cScoreboard.f (g c) = cScoreboard.f c) →
  ∀ cs k idx0,
    cScoreboard.findClock_from l (alter g k cs) idx0 i
    = cScoreboard.findClock_from l cs idx0 i.
Proof.
  intros Hg. induction cs as [|c rest IH]; intros k idx0; [done|].
  destruct k as [|k]; cbn [alter list_alter cScoreboard.findClock_from].
  - by rewrite Hg.
  - by rewrite IH.
Qed.

Lemma findClock_with_clock sb idx g i :
  (∀ c, cScoreboard.f (g c) = cScoreboard.f c) →
  cScoreboard.findClock (cScoreboard.with_clock sb idx g) i = cScoreboard.findClock sb i.
Proof.
  intros Hg. unfold cScoreboard.findClock, cScoreboard.with_clock.
  cbn [cScoreboard._fieldList cScoreboard._clock].
  by rewrite findClock_from_alter.
Qed.

Lemma get_clock_with_clock sb idx g :
  cScoreboard.get_clock (cScoreboard.with_clock sb idx g) idx
  = g <$> cScoreboard.get_clock sb idx.
Proof.
  unfold cScoreboard.get_clock, cScoreboard.with_clock. cbn [cScoreboard._clock].
  apply list_lookup_alter_eq.
Qed.

(** A first press of the clock key at [t1] pauses a running clock, a second
    one at [t2] resumes it: in between the clock reads as stopped, and it
    resumes with the part of its period that was left at [t1].  The fields
    are not touched. *)
Theorem clockToggle_pauses_and_resumes
    (t1 t2 : Z) (sb : cScoreboard.t) (i : Z) (c : cScoreboard.clock_t) :
  cScoreboard.findClock sb i ≠ -1 →
  cScoreboard.get_clock sb (cScoreboard.findClock sb i) = Some c →
  cScoreboard.stopped c = false →
  let sb1 := cScoreboard.clockToggle t1 sb i in
  let sb2 := cScoreboard.clockToggle t2 sb1 i in
  cScoreboard.isClockStopped sb i = false ∧
  cScoreboard.isClockStopped sb1 i = true ∧
  cScoreboard.isClockStopped sb2 i = false ∧
  cScoreboard.get_clock sb2 (cScoreboard.findClock sb i)
  = Some (cScoreboard.mkClock (cScoreboard.f c) (cScoreboard.timeLimit c) t2
            (u32 (cScoreboard.timeToGo c - u32 (t1 - cScoreboard.timeLast c)))
            (cScoreboard.countUp c) false) ∧
  cScoreboard._fieldList sb2 = cScoreboard._fieldList sb ∧
  cScoreboard._changed sb2 = cScoreboard._changed sb.
Proof.
  intros Hfound Hc Hrun. cbv zeta.
  set (idx := cScoreboard.findClock sb i) in *.
  assert (Hne : (idx =? -1) = false) by (by apply Z.eqb_neq).
  assert (H1 : cScoreboard.clockToggle t1 sb i
               = cScoreboard.with_clock sb idx
                   (λ c, cScoreboard.mkClock (cScoreboard.f c) (cScoreboard.timeLimit c)
                           (cScoreboard.timeLast c)
                           (u32 (cScoreboard.timeToGo c - u32 (t1 - cScoreboard.timeLast c)))
                           (cScoreboard.countUp c) true)).
  { unfold cScoreboard.clockToggle, cScoreboard.clockStop. cbv zeta. fold idx.
    by rewrite Hne, Hc, Hrun. }
  rewrite H1. set (sb1 := cScoreboard.with_clock sb idx _).
  assert (Hidx1 : cScoreboard.findClock sb1 i = idx)
    by (by apply findClock_with_clock).
  assert (Hc1 : cScoreboard.get_clock sb1 idx
                = Some (cScoreboard.mkClock (cScoreboard.f c) (cScoreboard.timeLimit c)
                          (cScoreboard.timeLast c)
                          (u32 (cScoreboard.timeToGo c - u32 (t1 - cScoreboard.timeLast c)))
                          (cScoreboard.countUp c) true)).
  { unfold sb1. by rewrite get_clock_with_clock, Hc. }
  assert (H2 : cScoreboard.clockToggle t2 sb1 i
               = cScoreboard.with_clock sb1 idx
                   (λ c, cScoreboard.mkClock (cScoreboard.f c) (cScoreboard.timeLimit c)
                           t2 (cScoreboard.timeToGo c) (cScoreboard.countUp c) false)).
  { unfold cScoreboard.clockToggle, cScoreboard.clockStart. cbv zeta.
    by rewrite Hidx1, Hne, Hc1. }
  rewrite H2. set (sb2 := cScoreboard.with_clock sb1 idx _).
  assert (Hidx2 : cScoreboard.findClock sb2 i = idx).
  { unfold sb2. by rewrite findClock_with_clock. }
  assert (Hc2 : cScoreboard.get_clock sb2 idx
                = Some (cScoreboard.mkClock (cScoreboard.f c) (cScoreboard.timeLimit c) t2
                          (u32 (cScoreboard.timeToGo c - u32 (t1 - cScoreboard.timeLast c)))
                          (cScoreboard.countUp c) false)).
  { unfold sb2. by rewrite get_clock_with_clock, Hc1. }
  unfold cScoreboard.isClockStopped. cbv zeta. fold idx.
  rewrite Hidx1, Hidx2, Hne, Hc, Hc1, Hc2.
  split; [done|]. split; [done|]. split; [done|]. split; [done|]. done.
Qed.

Lemma empty_slot_bounds : ∀ cs idx0,
  idx0 ≤ cScoreboard.empty_slot cs idx0 ≤ idx0 + Z.of_nat (length cs).
Proof.
  induction cs as [|c rest IH]; intros idx0; cbn [cScoreboard.empty_slot length]; [lia|].
  destruct (cScoreboard.f c); [|lia]. specialize (IH (idx0 + 1)). lia.
Qed.

Lemma findClock_from_bounds l i cs idx0 :
  idx0 ≤ cScoreboard.findClock_from l cs idx0 i ≤ idx0 + Z.of_nat (length cs).
Proof.
  revert idx0. induction cs as [|c rest IH]; intros idx0;
    cbn [cScoreboard.findClock_from length]; [lia|].
  pose proof (IH (idx0 + 1)).
  destruct (cScoreboard.f c) as [p|]; [|lia].
  destruct (cScoreboard.load l p) as [fd|]; [|lia].
  destruct (cScoreboard.id fd =? i); lia.
Qed.

(** Where no slot matches the id, putting a pointer to a field with the id
    into the first empty slot makes [findClock] stop there. *)
Lemma findClock_from_new_slot l i p fd g :
  cScoreboard.load l p = Some fd → cScoreboard.id fd = i →
  (∀ c, cScoreboard.f (g c) = Some p) →
  ∀ cs idx0,
    cScoreboard.findClock_from l cs idx0 i = idx0 + Z.of_nat (length cs) →
    cScoreboard.empty_slot cs idx0 < idx0 + Z.of_nat (length cs) →
    cScoreboard.findClock_from l
      (alter g (Z.to_nat (cScoreboard.empty_slot cs idx0 - idx0)) cs) idx0 i
    = cScoreboard.empty_slot cs idx0.
Proof.
  intros Hl Hid Hg. induction cs as [|c rest IH]; intros idx0;
    cbn [cScoreboard.findClock_from cScoreboard.empty_slot length]; [lia|].
  pose proof (findClock_from_bounds l i rest (idx0 + 1)) as Hb.
  pose proof (empty_slot_bounds rest (idx0 + 1)) as He.
  destruct (cScoreboard.f c) as [q|] eqn:Hf.
  - intros Hnone Hfree.
    replace (Z.to_nat (cScoreboard.empty_slot rest (idx0 + 1) - idx0))
      with (S (Z.to_nat (cScoreboard.empty_slot rest (idx0 + 1) - (idx0 + 1))))
      by lia.
    cbn [alter list_alter cScoreboard.findClock_from]. rewrite Hf.
    destruct (cScoreboard.load l q) as [fq|];
      [destruct (cScoreboard.id fq =? i); [lia|]|]; apply IH; lia.
  - intros _ _. rewrite Z.sub_diag. change (Z.to_nat 0) with 0%nat.
    cbn [alter list_alter cScoreboard.findClock_from].
    rewrite Hg, Hl. by replace (cScoreboard.id fd =? i) with true
      by (symmetry; by apply Z.eqb_eq).
Qed.

(** [clockCreate] succeeds exactly when one of the three slots is empty
    and the field exists; otherwise the object is left as it is.  On
    success, for a field that has no clock yet, the first empty slot holds
    the new clock, stopped, with a full period to go, and the field shows
    the start value: 0 when counting up, the limit when counting down.
    Fields with other ids read as before. *)
Theorem clockCreate_takes_the_first_empty_slot
    (now : Z) (sb : cScoreboard.t) (i limit : Z) (up : bool) :
  let r := cScoreboard.clockCreate now sb i limit up in
  let e := cScoreboard.empty_slot (cScoreboard._clock sb) 0 in
  (r.1 = true ↔ e < 3 ∧ i ∈ field_ids sb) ∧
  (r.1 = false → r.2 = sb) ∧
  (r.1 = true → length (cScoreboard._clock sb) = 3%nat →
   cScoreboard.findClock sb i = -1 →
   (∃ c0, cScoreboard.get_clock sb e = Some c0 ∧
          cScoreboard.get_clock r.2 e
          = Some (cScoreboard.mkClock (cScoreboard.findField sb i) limit
                    (cScoreboard.timeLast c0) 1000 up true)) ∧
   cScoreboard.fieldGetValue r.2 i = (if up then 0 else limit) ∧
   (∀ j, j ≠ i → cScoreboard.fieldGetValue r.2 j = cScoreboard.fieldGetValue sb j) ∧
   cScoreboard._changed r.2 = true).
Proof.
  cbv zeta. unfold cScoreboard.clockCreate. cbv zeta.
  set (e := cScoreboard.empty_slot (cScoreboard._clock sb) 0).
  pose proof (empty_slot_bounds (cScoreboard._clock sb) 0) as He. fold e in He.
  pose proof (findField_first sb i) as Hnone.
  pose proof (elem_of_field_ids sb i) as Hin.
  change cScoreboard.MAX_CLOCKS with 3.
  destruct (e >=? 3) eqn:Hfull.
  { rewrite Z.geb_leb in Hfull. apply Z.leb_le in Hfull. cbn [fst snd].
    split; [split; [done|lia]|]. split; done. }
  rewrite Z.geb_leb in Hfull. apply Z.leb_gt in Hfull.
  destruct (cScoreboard.findField sb i) as [p|] eqn:Hp; cbn [fst snd].
  2:{ split; [|split; done]. split; [done|]. intros [_ Hi%Hin].
      exfalso. apply Hi, Hnone. reflexivity. }
  assert (Hi : i ∈ field_ids sb).
  { apply Hin. intros H0%Hnone. discriminate. }
  split; [done|]. split; [done|]. intros _ Hlen Hnew.
  (* the field behind the pointer *)
  pose proof (findField_from_first (cScoreboard._fieldList sb) i) as Hfirst.
  unfold cScoreboard.findField in Hp. rewrite Hp in Hfirst.
  destruct (first_with (cScoreboard._fieldList sb) i) as [fd|] eqn:Hfd;
    [|exfalso; by apply Hin in Hi].
  pose proof (first_with_id _ _ _ Hfd) as Hid.
  (* the slot *)
  destruct (lookup_lt_is_Some_2 (cScoreboard._clock sb) (Z.to_nat e)) as [c0 Hc0];
    [lia|].
  set (g := λ c : cScoreboard.clock_t,
              cScoreboard.mkClock (Some p) limit (cScoreboard.timeLast c)
                (cScoreboard.timeToGo c) up true).
  set (sb1 := cScoreboard.with_clock sb e g).
  assert (Hnomatch : cScoreboard.findClock_from (cScoreboard._fieldList sb)
                       (cScoreboard._clock sb) 0 i
                     = 0 + Z.of_nat (length (cScoreboard._clock sb))).
  { unfold cScoreboard.findClock in Hnew. cbv zeta in Hnew.
    change cScoreboard.MAX_CLOCKS with 3 in Hnew.
    pose proof (findClock_from_bounds (cScoreboard._fieldList sb) i
                  (cScoreboard._clock sb) 0) as Hb.
    destruct (_ >=? 3) eqn:E in Hnew; [|lia].
    rewrite Z.geb_leb in E. apply Z.leb_le in E. lia. }
  assert (Hidx : cScoreboard.findClock sb1 i = e).
  { unfold cScoreboard.findClock, sb1, cScoreboard.with_clock.
    cbn [cScoreboard._fieldList cScoreboard._clock]. cbv zeta.
    pose proof (findClock_from_new_slot (cScoreboard._fieldList sb) i p fd g
                  Hfirst Hid ltac:(done) (cScoreboard._clock sb) 0 Hnomatch
                  ltac:(fold e; lia)) as Hslot.
    fold e in Hslot. rewrite Z.sub_0_r in Hslot. rewrite Hslot.
    change cScoreboard.MAX_CLOCKS with 3.
    by replace (e >=? 3) with false
      by (symmetry; rewrite Z.geb_leb; apply Z.leb_gt; lia). }
  assert (Hc1 : cScoreboard.get_clock sb1 e = Some (g c0)).
  { unfold sb1. rewrite get_clock_with_clock. unfold cScoreboard.get_clock.
    by rewrite Hc0. }
  unfold cScoreboard.clockReset. cbv zeta. rewrite Hidx.
  replace (e =? -1) with false by (symmetry; apply Z.eqb_neq; lia).
  rewrite Hc1. cbn [g cScoreboard.f cScoreboard.countUp cScoreboard.timeLimit
                      cScoreboard.timeLast].
  assert (Hl1 : cScoreboard._fieldList sb1 = cScoreboard._fieldList sb) by done.
  rewrite !Hl1, !Hfirst.
  rewrite !(findField_from_store _ i p _ Hp).
  rewrite !(change_first_const _ i (λ fd, cScoreboard.set_value fd (if up then 0 else limit))
             fd Hfd).
  split; [|split; [|split]].
  - exists c0. split; [done|].
    unfold cScoreboard.get_clock. cbn [cScoreboard._clock].
    apply list_lookup_insert_eq.
    unfold sb1, cScoreboard.with_clock. cbn [cScoreboard._clock].
    rewrite length_alter. lia.
  - rewrite fieldGetValue_first. cbn [cScoreboard._fieldList].
    rewrite first_with_change_first by done. rewrite decide_True by done.
    by rewrite Hfd.
  - intros j Hj. rewrite !fieldGetValue_first. cbn [cScoreboard._fieldList].
    rewrite first_with_change_first by done. by rewrite decide_False by done.
  - done.
Qed.

(** *** Formatting *)

Lemma length_decimal k n : length (decimal k n) = k.
Proof.
  revert n. induction k as [|k IH]; intros n; cbn [decimal]; [done|].
  rewrite length_app, IH. cbn. lia.
Qed.

Lemma decimal_zero k : decimal k 0 = replicate k 48.
Proof.
  induction k as [|k IH]; cbn [decimal]; [done|].
  change (0 / 10) with 0. change (0 mod 10 + 48) with 48. rewrite IH.
  by rewrite <- replicate_S_end.
Qed.

(** Leading zeroes. *)
Lemma decimal_leading_zeroes j k n :
  0 ≤ n < 10 ^ Z.of_nat k →
  decimal (j + k) n = replicate j 48 ++ decimal k n.
Proof.
  revert n. induction k as [|k IH]; intros n Hn.
  - assert (n = 0) as -> by (cbn in Hn; lia).
    rewrite Nat.add_0_r. cbn [decimal]. by rewrite decimal_zero, app_nil_r.
  - rewrite Nat.add_succ_r. cbn [decimal]. rewrite IH, app_assoc; [done|].
    rewrite Nat2Z.inj_succ, Z.pow_succ_r in Hn by lia.
    split; [apply Z.div_pos; lia|]. apply Z.div_lt_upper_bound; lia.
Qed.

Lemma poke_middle pre c tail d :
  cScoreboard.poke (pre ++ c :: tail) (Z.of_nat (length pre)) d
  = cScoreboard.Returns (pre ++ d :: tail).
Proof.
  unfold cScoreboard.poke. rewrite length_app. cbn [length].
  replace ((0 <=? Z.of_nat (length pre))
           && (Z.of_nat (length pre) <? Z.of_nat (length pre + S (length tail))))
    with true by (symmetry; apply andb_true_iff; split;
                  [apply Z.leb_le|apply Z.ltb_lt]; lia).
  rewrite Nat2Z.id. f_equal.
  rewrite insert_app_r_alt by lia. by rewrite Nat.sub_diag.
Qed.

Lemma s8_id z : -128 ≤ z ≤ 127 → s8 z = z.
Proof.
  intros H. unfold s8, swrap. change (2 ^ (8 - 1)) with 128. change (2 ^ 8) with 256.
  rewrite Z.mod_small; lia.
Qed.

Lemma last_char {A} (pre : list A) (d : nat) :
  length pre = S d → ∃ pre' c, pre = pre' ++ [c] ∧ length pre' = d.
Proof.
  intros Hlen. destruct (exists_last (l := pre)) as (pre' & c & ->).
  { intros ->. done. }
  exists pre', c. split; [done|]. rewrite length_app in Hlen. cbn in Hlen. lia.
Qed.

(** The loop of [formatNum], started at the right end [d] of a field. *)
Lemma formatNum_loop_run : ∀ (d fuel : nat) pre tail n,
  0 ≤ n → (d < fuel)%nat → (d ≤ 127)%nat → length pre = S d →
  ∃ k : nat,
    digits_shown k n (Z.of_nat (S d)) ∧
    cScoreboard.formatNum_loop fuel (pre ++ tail) (Z.of_nat d) n
    = cScoreboard.Returns (take (S d - k) pre ++ decimal k n ++ tail).
Proof.
  induction d as [|d IH]; intros fuel pre tail n Hn Hfuel Hd Hlen;
    (destruct fuel as [|fuel]; [lia|]);
    destruct (last_char pre _ Hlen) as (pre' & c & -> & Hlen');
    cbn [cScoreboard.formatNum_loop];
    rewrite <- app_assoc; cbn [app];
    rewrite <- (f_equal Z.of_nat Hlen');
    rewrite poke_middle; cbn [cScoreboard.then_]; cbv zeta.
  - exists 1%nat.
    replace (negb (n / 10 =? 0)
             && (s8 (Z.of_nat (length pre') - 1) >=? 0)) with false.
    2:{ symmetry. apply andb_false_iff. right.
        replace (length pre') with 0%nat by lia.
        reflexivity. }
    split; [unfold digits_shown; lia|].
    assert (pre' = []) as -> by (destruct pre'; [done|cbn in Hlen'; lia]).
    reflexivity.
  - replace (s8 (Z.of_nat (length pre') - 1)) with (Z.of_nat d)
      by (rewrite s8_id; lia).
    replace (Z.of_nat d >=? 0) with true
      by (symmetry; rewrite Z.geb_leb; apply Z.leb_le; lia).
    rewrite andb_true_r.
    destruct (n / 10 =? 0) eqn:Hz; cbn [negb].
    + apply Z.eqb_eq in Hz. exists 1%nat.
      assert (n < 10).
      { pose proof (Z.div_mod n 10 ltac:(lia)).
        pose proof (Z.mod_pos_bound n 10 ltac:(lia)). lia. }
      split; [unfold digits_shown; lia|].
      replace (S (S d) - 1)%nat with (length pre') by lia.
      rewrite take_app_length. reflexivity.
    + apply Z.eqb_neq in Hz.
      assert (0 ≤ n / 10) by (apply Z.div_pos; lia).
      destruct (IH fuel pre' (n mod 10 + 48 :: tail) (n / 10))
        as (k & (Hk1 & Hk2 & Hk3) & Hrun); [lia..|].
      exists (S k). split.
      * pose proof (Z.div_mod n 10 ltac:(lia)) as Hdm.
        pose proof (Z.mod_pos_bound n 10 ltac:(lia)) as Hm.
        unfold digits_shown. split; [lia|]. split.
        -- right. replace (Z.of_nat (S k) - 1) with (Z.succ (Z.of_nat k - 1)) by lia.
           rewrite Z.pow_succ_r by lia.
           destruct Hk2 as [->|Hk2]; [cbn; lia|lia].
        -- destruct Hk3 as [Hk3|Hk3]; [left; lia|right].
           rewrite Nat2Z.inj_succ, Z.pow_succ_r by lia. lia.
      * rewrite Hrun. f_equal. cbn [decimal].
        replace (S (S d) - S k)%nat with (S d - k)%nat by lia.
        rewrite take_app_le by lia.
        by rewrite <- !app_assoc.
Qed.

Lemma formatNum_run (fuel : nat) (sz : list Z) (n size : Z) (lz : bool) :
  1 ≤ size ≤ 128 → size < Z.of_nat (length sz) → 0 ≤ n →
  (Z.to_nat size ≤ fuel)%nat →
  ∃ k : nat,
    digits_shown k n size ∧
    cScoreboard.formatNum fuel sz n size lz
    = cScoreboard.Returns
        (replicate (Z.to_nat size - k) (if lz then 48 else 32)
         ++ decimal k n ++ 0 :: drop (Z.to_nat size + 1) sz).
Proof.
  intros Hsize Hlen Hn Hfuel. unfold cScoreboard.formatNum. cbv zeta.
  unfold cScoreboard.memset.
  replace (size <=? Z.of_nat (length sz)) with true
    by (symmetry; apply Z.leb_le; lia).
  cbn [cScoreboard.then_]. set (fill := if lz then 48 else 32).
  destruct (drop (Z.to_nat size) sz) as [|c rest] eqn:Hdrop.
  { apply (f_equal length) in Hdrop. rewrite length_drop in Hdrop. cbn in Hdrop. lia. }
  assert (Hrest : rest = drop (Z.to_nat size + 1) sz).
  { rewrite <- drop_drop, Hdrop. reflexivity. }
  assert (Hpoke : cScoreboard.poke (replicate (Z.to_nat size) fill ++ c :: rest) size 0
                  = cScoreboard.Returns (replicate (Z.to_nat size) fill ++ 0 :: rest)).
  { rewrite <- (poke_middle _ c). f_equal. rewrite length_replicate. lia. }
  rewrite Hpoke. cbn [cScoreboard.then_].
  rewrite (s8_id (size - 1)) by lia.
  destruct (formatNum_loop_run (Z.to_nat size - 1) fuel
              (replicate (Z.to_nat size) fill) (0 :: rest) n)
    as (k & Hk & Hrun); [lia|lia|lia|rewrite length_replicate; lia|].
  replace (Z.of_nat (Z.to_nat size - 1)) with (size - 1) in Hrun by lia.
  replace (S (Z.to_nat size - 1)) with (Z.to_nat size) in * by lia.
  rewrite Z2Nat.id in Hk by lia.
  exists k. split; [done|]. rewrite Hrun, <- Hrest.
  rewrite take_replicate. destruct Hk as (Hk1 & Hk2 & Hk3).
  by rewrite Nat.min_l by lia.
Qed.

(** A field padded with ['0'] is the last digits of the number. *)
Lemma zero_padded k n size :
  digits_shown k n size → 0 ≤ n →
  replicate (Z.to_nat size - k) 48 ++ decimal k n = decimal (Z.to_nat size) n.
Proof.
  intros (Hk1 & Hk2 & Hk3) Hn. destruct Hk3 as [Hk3|Hk3].
  - replace (Z.to_nat size - k)%nat with 0%nat by lia.
    by replace (Z.to_nat size) with k by lia.
  - replace (Z.to_nat size) with ((Z.to_nat size - k) + k)%nat at 2 by lia.
    by rewrite decimal_leading_zeroes by lia.
Qed.

(** [formatNum] on a field of 1 to 128 characters inside the buffer: it
    returns; the field holds the decimal digits of [n], as many as fit,
    right-aligned behind the fill character, and is followed by the
    terminator; the rest of the buffer is untouched.  With leading zeroes
    the field is the last [size] digits of [n]. *)
Theorem formatNum_right_aligns_the_digits
    (fuel : nat) (sz : list Z) (n size : Z) (lz : bool) :
  1 ≤ size ≤ 128 → size < Z.of_nat (length sz) → 0 ≤ n →
  (Z.to_nat size ≤ fuel)%nat →
  ∃ k : nat,
    digits_shown k n size ∧
    cScoreboard.formatNum fuel sz n size lz
    = cScoreboard.Returns
        (replicate (Z.to_nat size - k) (if lz then 48 else 32)
         ++ decimal k n ++ 0 :: drop (Z.to_nat size + 1) sz) ∧
    (lz = true →
     cScoreboard.formatNum fuel sz n size lz
     = cScoreboard.Returns
         (decimal (Z.to_nat size) n ++ 0 :: drop (Z.to_nat size + 1) sz)).
Proof.
  intros Hsize Hlen Hn Hfuel.
  destruct (formatNum_run fuel sz n size lz Hsize Hlen Hn Hfuel) as (k & Hk & Hrun).
  exists k. split; [done|]. split; [done|]. intros ->. rewrite Hrun.
  by rewrite app_assoc, (zero_padded k n size Hk Hn).
Qed.

(** A field size of 0, or of more than 128, sends the first write of
    [formatNum] before the start of the buffer: the 8-bit index starts
    below zero. *)
Theorem formatNum_writes_before_the_buffer
    (fuel : nat) (sz : list Z) (n size : Z) (lz : bool) :
  size = 0 ∨ 129 ≤ size ≤ 255 → (0 < fuel)%nat →
  cScoreboard.formatNum fuel sz n size lz = cScoreboard.Faults.
Proof.
  intros Hsize Hfuel. unfold cScoreboard.formatNum. cbv zeta.
  unfold cScoreboard.memset.
  destruct (size <=? Z.of_nat (length sz)); cbn [cScoreboard.then_]; [|done].
  unfold cScoreboard.poke at 1.
  destruct (_ && _); cbn [cScoreboard.then_]; [|done].
  destruct fuel as [|fuel]; [lia|]. cbn [cScoreboard.formatNum_loop].
  unfold cScoreboard.poke at 1.
  replace (0 <=? s8 (size - 1)) with false; [done|].
  symmetry. apply Z.leb_gt. unfold s8, swrap.
  change (2 ^ (8 - 1)) with 128. change (2 ^ 8) with 256.
  destruct Hsize as [->|Hsize]; [reflexivity|].
  replace (size - 1 + 128) with (size - 129 + 1 * 256) by lia.
  rewrite Z_mod_plus_full, Z.mod_small; lia.
Qed.

(** [formatTime] with room for [m] minute characters, the colon, two
    second characters and the terminator: it returns, and the buffer starts
    with the minutes [n / 60] formatted as by [formatNum] in [m]
    characters, [':'], the seconds [n mod 60] in two digits, and the
    terminator; the rest of the buffer is untouched. *)
Theorem formatTime_writes_minutes_and_seconds
    (fuel : nat) (sz : list Z) (n m : Z) (lz : bool) :
  1 ≤ m ≤ 128 → m + 3 < Z.of_nat (length sz) → 0 ≤ n →
  (Z.to_nat m ≤ fuel)%nat → (2 ≤ fuel)%nat →
  ∃ k : nat,
    digits_shown k (n / 60) m ∧
    cScoreboard.formatTime fuel sz n m lz
    = cScoreboard.Returns
        (replicate (Z.to_nat m - k) (if lz then 48 else 32)
         ++ decimal k (n / 60)
         ++ 58 :: decimal 2 (n mod 60)
         ++ 0 :: drop (Z.to_nat m + 4) sz).
Proof.
  intros Hm Hlen Hn Hfuel Hfuel2. unfold cScoreboard.formatTime.
  destruct (formatNum_run fuel sz (n / 60) m lz)
    as (k & Hk & Hrun); [lia|lia|apply Z.div_pos; lia|lia|].
  exists k. split; [done|]. rewrite Hrun. cbn [cScoreboard.then_].
  set (F := replicate (Z.to_nat m - k) (if lz then 48 else 32) ++ decimal k (n / 60)).
  assert (HF : length F = Z.to_nat m).
  { unfold F. rewrite length_app, length_replicate, length_decimal.
    destruct Hk as (? & _). lia. }
  set (R := drop (Z.to_nat m + 1) sz).
  assert (HR : Z.of_nat (length R) = Z.of_nat (length sz) - m - 1).
  { unfold R. rewrite length_drop. lia. }
  rewrite app_assoc. fold F.
  assert (Hpoke : cScoreboard.poke (F ++ 0 :: R) m 58
                  = cScoreboard.Returns (F ++ 58 :: R)).
  { rewrite <- (poke_middle _ 0). f_equal. lia. }
  rewrite Hpoke. cbn [cScoreboard.then_].
  replace (m + 1 <=? Z.of_nat (length (F ++ 58 :: R))) with true
    by (symmetry; apply Z.leb_le; rewrite length_app; cbn [length]; lia).
  assert (Hdrop : drop (Z.to_nat (m + 1)) (F ++ 58 :: R) = R).
  { replace (Z.to_nat (m + 1)) with (length (F ++ [58]))
      by (rewrite length_app; cbn [length]; lia).
    by rewrite (cons_middle 58 F R), app_assoc, drop_app_length. }
  assert (Htake : take (Z.to_nat (m + 1)) (F ++ 58 :: R) = F ++ [58]).
  { replace (Z.to_nat (m + 1)) with (length (F ++ [58]))
      by (rewrite length_app; cbn [length]; lia).
    by rewrite (cons_middle 58 F R), app_assoc, take_app_length. }
  rewrite Hdrop, Htake.
  pose proof (Z.mod_pos_bound n 60 ltac:(lia)) as Hs.
  destruct (formatNum_run fuel R (n mod 60) 2 true)
    as (k2 & Hk2 & Hsec); [lia|lia|lia|lia|].
  rewrite Hsec, app_assoc, (zero_padded k2 (n mod 60) 2 Hk2) by lia.
  cbn [cScoreboard.then_]. change (Z.to_nat 2) with 2%nat.
  assert (Hrest : drop (2 + 1) R = drop (Z.to_nat m + 4) sz).
  { unfold R. rewrite drop_drop. f_equal. lia. }
  rewrite Hrest.
  set (T := drop (Z.to_nat m + 4) sz).
  replace ((F ++ [58]) ++ decimal 2 (n mod 60) ++ 0 :: T)
    with ((F ++ [58] ++ decimal 2 (n mod 60)) ++ 0 :: T)
    by (by rewrite <- !app_assoc).
  replace (m + 3) with (Z.of_nat (length (F ++ [58] ++ decimal 2 (n mod 60))))
    by (rewrite !length_app, length_decimal; cbn [length]; lia).
  rewrite poke_middle. f_equal. unfold F. by rewrite <- !app_assoc.
Qed.

(** ** The scoreboard sketch *)

Lemma fieldSetValue_score sb i v j :
  0 ≤ v ≤ Scoreboard.MAX_SCORE → score_ok sb j →
  score_ok (cScoreboard.fieldSetValue sb i v) j.
Proof.
  intros Hv Hj. unfold score_ok in *. rewrite fieldSetValue_read.
  destruct (first_with _ i); [|done]. by destruct (decide (j = i)).
Qed.

Lemma fieldValueAdd_other sb i delta j :
  j ≠ i →
  cScoreboard.fieldGetValue (cScoreboard.fieldValueAdd sb i delta) j
  = cScoreboard.fieldGetValue sb j.
Proof.
  intros Hne. unfold cScoreboard.fieldValueAdd.
  rewrite with_field_first, !fieldGetValue_first.
  destruct (first_with (cScoreboard._fieldList sb) i); cbn [snd cScoreboard._fieldList];
    [|done].
  rewrite first_with_change_first; [by destruct (decide (j = i))|].
  intros fd. by destruct (_ && _).
Qed.

Lemma fieldValueAdd_same sb i delta :
  0 ≤ cScoreboard.fieldGetValue sb i →
  cScoreboard.fieldGetValue (cScoreboard.fieldValueAdd sb i delta) i
  = if bool_decide (i ∈ field_ids sb)
    then u32 (Z.max 0 (cScoreboard.fieldGetValue sb i + delta))
    else 0.
Proof.
  intros Hv. unfold cScoreboard.fieldValueAdd.
  rewrite with_field_first. rewrite !fieldGetValue_first in *.
  pose proof (elem_of_field_ids sb i) as Hin.
  destruct (first_with (cScoreboard._fieldList sb) i) as [fd|] eqn:Hfd;
    cbn [snd cScoreboard._fieldList].
  - rewrite bool_decide_true by (by apply Hin).
    rewrite first_with_change_first by (intros fd'; by destruct (_ && _)).
    rewrite decide_True by done. rewrite Hfd. cbn [fmap option_fmap option_map].
    destruct ((delta <? 0) && (Z.abs delta >? cScoreboard.value fd)) eqn:E;
      cbn [cScoreboard.set_value cScoreboard.value].
    + apply andb_true_iff in E as [E1%Z.ltb_lt E2%Z.gtb_lt].
      by replace (Z.max 0 (cScoreboard.value fd + delta)) with 0 by lia.
    + apply andb_false_iff in E as [E%Z.ltb_ge|E]; [f_equal; lia|].
      rewrite Z.gtb_ltb in E. apply Z.ltb_ge in E. f_equal. lia.
  - rewrite Hfd. rewrite bool_decide_false; [done|]. intros Hi%Hin. by apply Hi.
Qed.

Lemma u32_small z : 0 ≤ z < 2 ^ 32 → u32 z = z.
Proof. intros H. unfold u32, uwrap. by apply Z.mod_small. Qed.

Lemma score_up_same sb fld :
  score_ok sb fld →
  cScoreboard.fieldGetValue (Scoreboard.score_up sb fld) fld
  = if bool_decide (fld ∈ field_ids sb)
    then (cScoreboard.fieldGetValue sb fld + 1) mod 1000 else 0.
Proof.
  intros [H0 H1]. unfold Scoreboard.MAX_SCORE in H1. unfold Scoreboard.score_up.
  cbv zeta. rewrite fieldValueAdd_same by done.
  pose proof (elem_of_field_ids sb fld) as Hin.
  case_bool_decide as Hfld.
  - rewrite Z.max_r by lia. rewrite u32_small by lia.
    unfold Scoreboard.MAX_SCORE.
    destruct (cScoreboard.fieldGetValue sb fld + 1 >? 999) eqn:E.
    + apply Z.gtb_lt in E. rewrite fieldSetValue_read.
      assert (cScoreboard.fieldGetValue sb fld = 999) as -> by lia.
      unfold cScoreboard.fieldValueAdd. rewrite with_field_first.
      apply Hin in Hfld.
      destruct (first_with (cScoreboard._fieldList sb) fld) eqn:Hf; [|done].
      cbn [snd cScoreboard._fieldList].
      rewrite first_with_change_first by (intros fd'; by destruct (_ && _)).
      rewrite decide_True by done. rewrite Hf. cbn [fmap option_fmap option_map].
      by rewrite decide_True by done.
    + rewrite Z.gtb_ltb in E. apply Z.ltb_ge in E.
      rewrite fieldValueAdd_same, bool_decide_true by done.
      rewrite Z.max_r by lia. rewrite u32_small by lia.
      symmetry. apply Z.mod_small. lia.
  - destruct (0 >? Scoreboard.MAX_SCORE) eqn:E; [done|].
    by rewrite fieldValueAdd_same, bool_decide_false by done.
Qed.

Lemma score_up_other sb fld j :
  j ≠ fld →
  cScoreboard.fieldGetValue (Scoreboard.score_up sb fld) j
  = cScoreboard.fieldGetValue sb j.
Proof.
  intros Hne. unfold Scoreboard.score_up. cbv zeta.
  destruct (_ >? _).
  - rewrite fieldSetValue_read. rewrite decide_False by done.
    destruct (first_with _ fld); by apply fieldValueAdd_other.
  - by apply fieldValueAdd_other.
Qed.

Lemma score_up_score sb fld j :
  score_ok sb fld → score_ok sb j → score_ok (Scoreboard.score_up sb fld) j.
Proof.
  intros Hfld Hj. unfold score_ok in *.
  destruct (decide (j = fld)) as [->|Hne].
  - rewrite score_up_same by done. unfold Scoreboard.MAX_SCORE.
    case_bool_decide; [|lia].
    pose proof (Z.mod_pos_bound (cScoreboard.fieldGetValue sb fld + 1) 1000). lia.
  - by rewrite score_up_other.
Qed.

Lemma fieldValueAdd_down_score sb fld j :
  score_ok sb fld → score_ok sb j →
  score_ok (cScoreboard.fieldValueAdd sb fld (-1)) j.
Proof.
  intros Hfld Hj. unfold score_ok, Scoreboard.MAX_SCORE in *.
  destruct (decide (j = fld)) as [->|Hne].
  - rewrite fieldValueAdd_same by lia. case_bool_decide; [|lia].
    rewrite u32_small by lia. lia.
  - by rewrite fieldValueAdd_other.
Qed.

Lemma switch_SW_PIN_scores now pin state sb :
  score_ok sb Scoreboard.FLD_SCORE1 → score_ok sb Scoreboard.FLD_SCORE2 →
  score_ok (Scoreboard.switch_SW_PIN now pin state sb) Scoreboard.FLD_SCORE1 ∧
  score_ok (Scoreboard.switch_SW_PIN now pin state sb) Scoreboard.FLD_SCORE2.
Proof.
  intros H1 H2. unfold Scoreboard.switch_SW_PIN.
  assert (Hzero : 0 ≤ 0 ≤ Scoreboard.MAX_SCORE) by (unfold Scoreboard.MAX_SCORE; lia).
  destruct (pin =? Scoreboard.CLK_CTL_PIN).
  { destruct state; try done; unfold score_ok in *.
    - by rewrite !fieldGetValue_first, clockToggle_fields, <- !fieldGetValue_first.
    - rewrite !fieldGetValue_first, !clockReset_other_fields by done.
      by rewrite <- !fieldGetValue_first. }
  destruct (pin =? Scoreboard.SCORE1_ADD_PIN).
  { destruct state; try done. split; by apply score_up_score. }
  destruct (pin =? Scoreboard.SCORE1_DELRST_PIN).
  { destruct state; try done.
    - split; by apply fieldValueAdd_down_score.
    - split; by apply fieldSetValue_score. }
  destruct (pin =? Scoreboard.SCORE2_ADD_PIN).
  { destruct state; try done. split; by apply score_up_score. }
  destruct (pin =? Scoreboard.SCORE2_DELRST_PIN); [|done].
  destruct state; try done.
  - split; by apply fieldValueAdd_down_score.
  - split; by apply fieldSetValue_score.
Qed.

(** Whatever the switches report, [processUI] keeps both scores between 0
    and 999; and a press of the add key of the first score alone moves that
    score one step round the cycle 0..999, leaving the other score as it
    was. *)
Theorem processUI_keeps_the_scores_in_range
    (now : Z) (reads : list Scoreboard.keyResult_t) (sb : cScoreboard.t) :
  score_ok sb Scoreboard.FLD_SCORE1 → score_ok sb Scoreboard.FLD_SCORE2 →
  (score_ok (Scoreboard.processUI now reads sb) Scoreboard.FLD_SCORE1 ∧
   score_ok (Scoreboard.processUI now reads sb) Scoreboard.FLD_SCORE2) ∧
  let pressed := Scoreboard.processUI now
                   [Scoreboard.KEY_NULL; Scoreboard.KEY_PRESS; Scoreboard.KEY_NULL;
                    Scoreboard.KEY_NULL; Scoreboard.KEY_NULL] sb in
  cScoreboard.fieldGetValue pressed Scoreboard.FLD_SCORE1
  = (if bool_decide (Scoreboard.FLD_SCORE1 ∈ field_ids sb)
     then (cScoreboard.fieldGetValue sb Scoreboard.FLD_SCORE1 + 1) mod 1000 else 0) ∧
  cScoreboard.fieldGetValue pressed Scoreboard.FLD_SCORE2
  = cScoreboard.fieldGetValue sb Scoreboard.FLD_SCORE2.
Proof.
  intros H1 H2. split.
  - unfold Scoreboard.processUI.
    generalize (zip Scoreboard.SW_PIN reads). intros l. revert sb H1 H2.
    induction l as [|[pin state] l IH]; intros sb H1 H2; cbn [foldl]; [done|].
    apply IH; destruct state; try done;
      by apply (switch_SW_PIN_scores now pin _ sb).
  - cbv zeta. unfold Scoreboard.processUI, Scoreboard.SW_PIN. cbn [zip zip_with foldl].
    unfold Scoreboard.switch_SW_PIN. cbn [Z.eqb Pos.eqb Scoreboard.SCORE1_ADD_PIN
      Scoreboard.CLK_CTL_PIN].
    split; [by apply score_up_same | by apply score_up_other].
Qed.

(** ** Instances of the further properties *)

Lemma every_LED_has_exactly_one_point_witness :
  ∃ x y,
    in_range panel_4x5 x y ∧ address panel_4x5 x y = (3, 100) ∧
    ∀ x' y', in_range panel_4x5 x' y' → address panel_4x5 x' y' = (3, 100) →
             x' = x ∧ y' = y.
Proof.
  apply (every_LED_has_exactly_one_point panel_4x5 3 100).
  - unfold panel_wf; simpl; lia.
  - unfold columns_fit; simpl; lia.
  - lia.
  - simpl; lia.
Defined.

Lemma rotated_display_is_a_quarter_turn_witness :
  in_range (mounted panel_4x5_rotated false) 17 (getXMax panel_4x5_rotated - 39) ∧
  Y2Row panel_4x5_rotated 39 17
  = Y2Row (mounted panel_4x5_rotated false) 17 (getXMax panel_4x5_rotated - 39) ∧
  X2Col panel_4x5_rotated 39 17
  = X2Col (mounted panel_4x5_rotated false) 17 (getXMax panel_4x5_rotated - 39) ∧
  getPoint panel_4x5_rotated 39 17
  = getPoint (mounted panel_4x5_rotated false) 17 (getXMax panel_4x5_rotated - 39).
Proof.
  apply (rotated_display_is_a_quarter_turn panel_4x5_rotated 39 17).
  - unfold panel_wf; simpl; lia.
  - reflexivity.
  - apply in_rangeb_spec; vm_compute; reflexivity.
Defined.

Lemma setPoint_changes_one_point_witness :
  ∃ b w',
    setPoint 3 4 true world_4x5 = Some (b, w') ∧
    (b = true ↔ in_range (panel world_4x5) 3 4) ∧
    getPoint (panel w') 5 6
    = (if bool_decide (5 = 3 ∧ 6 = 4) then true
       else getPoint (panel world_4x5) 5 6).
Proof.
  apply (setPoint_changes_one_point 3 4 5 6 true world_4x5).
  - unfold panel_wf; simpl; lia.
  - unfold chain_fits; simpl; lia.
  - unfold columns_fit; simpl; lia.
  - unfold is_u16; lia.
  - unfold is_u16; lia.
  - apply in_rangeb_spec; vm_compute; reflexivity.
Defined.

Lemma drawLine_joins_its_end_points_witness :
  ∃ b w',
    drawLine 20 0 0 7 3 true world_4x5 = Some (b, w') ∧
    (b = true ↔ in_range (panel world_4x5) 0 0 ∧ in_range (panel world_4x5) 7 3) ∧
    (in_range (panel world_4x5) 0 0 → getPoint (panel w') 0 0 = true) ∧
    (in_range (panel world_4x5) 7 3 → getPoint (panel w') 7 3 = true) ∧
    (∀ x y, in_range (panel world_4x5) x y →
       ¬ (Z.min 0 7 ≤ x ≤ Z.max 0 7 ∧ Z.min 0 3 ≤ y ≤ Z.max 0 3) →
       getPoint (panel w') x y = getPoint (panel world_4x5) x y) ∧
    Z.of_nat (length (calls w'))
    = Z.of_nat (length (calls world_4x5)) + Z.max (Z.abs (7 - 0)) (Z.abs (3 - 0)) + 1.
Proof.
  apply (drawLine_joins_its_end_points 20 0 0 7 3 true world_4x5).
  - unfold panel_wf; simpl; lia.
  - unfold chain_fits; simpl; lia.
  - unfold columns_fit; simpl; lia.
  - unfold is_u16; lia.
  - unfold is_u16; lia.
  - unfold is_u16; lia.
  - unfold is_u16; lia.
  - lia.
  - lia.
  - lia.
Defined.

Lemma drawLine_level_is_drawHLine_witness :
  drawLine 40 0 17 31 17 true world_4x5 = drawHLine 40 17 0 31 true world_4x5
  ∧ ∃ b w', drawHLine 40 17 0 31 true world_4x5 = Some (b, w').
Proof.
  apply (drawLine_level_is_drawHLine 40 17 0 31 true world_4x5).
  - unfold is_u16; lia.
  - lia.
  - lia.
  - lia.
  - lia.
Defined.

Lemma drawLine_upright_is_drawVLine_witness :
  ∃ b wl wv,
    drawLine 20 19 17 19 0 true world_4x5 = Some (b, wl) ∧
    drawVLine 20 19 17 0 true world_4x5 = Some (b, wv) ∧
    panel wl = panel wv ∧
    length (calls wl) = length (calls wv).
Proof.
  apply (drawLine_upright_is_drawVLine 20 19 17 0 true world_4x5).
  - unfold is_u16; lia.
  - lia.
  - lia.
  - lia.
Defined.

Lemma drawRectangle_draws_the_outline_witness :
  ∃ b w',
    drawRectangle 20 2 12 10 3 true world_4x5 = Some (b, w') ∧
    (b = true ↔ in_range (panel world_4x5) 2 12 ∧ in_range (panel world_4x5) 10 3) ∧
    (∀ x y, in_range (panel world_4x5) x y →
       getPoint (panel w') x y
       = if bool_decide (Z.min 2 10 ≤ x ≤ Z.max 2 10 ∧
                         Z.min 12 3 ≤ y ≤ Z.max 12 3 ∧
                         (x = 2 ∨ x = 10 ∨ y = 12 ∨ y = 3))
         then true else getPoint (panel world_4x5) x y) ∧
    _updateEnabled (panel w') = _updateEnabled (panel world_4x5) ∧
    MD_MAX72XX.updateOn (_D (panel w')) = _updateEnabled (panel world_4x5).
Proof.
  apply (drawRectangle_draws_the_outline 20 2 12 10 3 true world_4x5).
  - unfold panel_wf; simpl; lia.
  - unfold chain_fits; simpl; lia.
  - unfold columns_fit; simpl; lia.
  - lia.
  - lia.
  - lia.
  - lia.
  - lia.
  - lia.
Defined.

Lemma drawRectangle_corner_order_witness :
  ∃ b w1 w2 w3,
    drawRectangle 20 2 12 10 3 true world_4x5 = Some (b, w1) ∧
    drawRectangle 20 10 3 2 12 true world_4x5 = Some (b, w2) ∧
    drawRectangle 20 2 3 10 12 true world_4x5 = Some (b, w3) ∧
    panel w2 = panel w1 ∧ panel w3 = panel w1.
Proof.
  apply (drawRectangle_corner_order 20 2 12 10 3 true world_4x5); lia.
Defined.

Lemma drawTriangle_joins_its_vertices_witness :
  ∃ b w',
    drawTriangle (Z.to_nat 65535) 1 1 20 5 9 30 true world_4x5 = Some (b, w') ∧
    (b = true ↔ in_range (panel world_4x5) 1 1 ∧ in_range (panel world_4x5) 20 5
                ∧ in_range (panel world_4x5) 9 30) ∧
    (∀ x y, In (x, y) [(1, 1); (20, 5); (9, 30)] → in_range (panel world_4x5) x y →
       getPoint (panel w') x y = true) ∧
    (∀ x y, in_range (panel world_4x5) x y →
       ¬ (Z.min 1 (Z.min 20 9) ≤ x ≤ Z.max 1 (Z.max 20 9) ∧
          Z.min 1 (Z.min 5 30) ≤ y ≤ Z.max 1 (Z.max 5 30)) →
       getPoint (panel w') x y = getPoint (panel world_4x5) x y) ∧
    Z.of_nat (length (calls w'))
    = Z.of_nat (length (calls world_4x5))
      + (Z.max (Z.abs (20 - 1)) (Z.abs (5 - 1)) + 1)
      + (Z.max (Z.abs (9 - 20)) (Z.abs (30 - 5)) + 1)
      + (Z.max (Z.abs (1 - 9)) (Z.abs (1 - 30)) + 1).
Proof.
  apply (drawTriangle_joins_its_vertices (Z.to_nat 65535) 1 1 20 5 9 30 true world_4x5).
  - unfold panel_wf; simpl; lia.
  - unfold chain_fits; simpl; lia.
  - unfold columns_fit; simpl; lia.
  - repeat (apply List.Forall_cons; [lia|]). apply List.Forall_nil.
  - lia.
Defined.

Lemma drawTriangle_vertex_order_witness :
  ∃ b w1 w2 w3,
    drawTriangle (Z.to_nat 65535) 1 1 20 5 9 30 true world_4x5 = Some (b, w1) ∧
    drawTriangle (Z.to_nat 65535) 20 5 9 30 1 1 true world_4x5 = Some (b, w2) ∧
    drawTriangle (Z.to_nat 65535) 20 5 1 1 9 30 true world_4x5 = Some (b, w3) ∧
    panel w2 = panel w1 ∧ panel w3 = panel w1.
Proof.
  apply (drawTriangle_vertex_order (Z.to_nat 65535) 1 1 20 5 9 30 true world_4x5).
  - repeat (apply List.Forall_cons; [lia|]). apply List.Forall_nil.
  - lia.
Defined.

Lemma drawQuadrilateral_joins_its_vertices_witness :
  ∃ b w',
    drawQuadrilateral (Z.to_nat 65535) 1 1 20 5 25 30 4 35 true world_4x5
    = Some (b, w') ∧
    (b = true ↔ in_range (panel world_4x5) 1 1 ∧ in_range (panel world_4x5) 20 5
                ∧ in_range (panel world_4x5) 25 30 ∧ in_range (panel world_4x5) 4 35) ∧
    (∀ x y, In (x, y) [(1, 1); (20, 5); (25, 30); (4, 35)] →
       in_range (panel world_4x5) x y → getPoint (panel w') x y = true) ∧
    (∀ x y, in_range (panel world_4x5) x y →
       ¬ (Z.min (Z.min 1 20) (Z.min 25 4) ≤ x ≤ Z.max (Z.max 1 20) (Z.max 25 4) ∧
          Z.min (Z.min 1 5) (Z.min 30 35) ≤ y ≤ Z.max (Z.max 1 5) (Z.max 30 35)) →
       getPoint (panel w') x y = getPoint (panel world_4x5) x y).
Proof.
  apply (drawQuadrilateral_joins_its_vertices
           (Z.to_nat 65535) 1 1 20 5 25 30 4 35 true world_4x5).
  - unfold panel_wf; simpl; lia.
  - unfold chain_fits; simpl; lia.
  - unfold columns_fit; simpl; lia.
  - repeat (apply List.Forall_cons; [lia|]). apply List.Forall_nil.
  - lia.
Defined.

Lemma drawQuadrilateral_vertex_order_witness :
  ∃ b w1 w2 w3,
    drawQuadrilateral (Z.to_nat 65535) 1 1 20 5 25 30 4 35 true world_4x5
    = Some (b, w1) ∧
    drawQuadrilateral (Z.to_nat 65535) 20 5 25 30 4 35 1 1 true world_4x5
    = Some (b, w2) ∧
    drawQuadrilateral (Z.to_nat 65535) 4 35 25 30 20 5 1 1 true world_4x5
    = Some (b, w3) ∧
    panel w2 = panel w1 ∧ panel w3 = panel w1.
Proof.
  apply (drawQuadrilateral_vertex_order
           (Z.to_nat 65535) 1 1 20 5 25 30 4 35 true world_4x5).
  - repeat (apply List.Forall_cons; [lia|]). apply List.Forall_nil.
  - lia.
Defined.

Lemma clear_switches_the_area_off_witness :
  ∃ w',
    clear 30 2 12 10 3 world_4x5 = Some (tt, w') ∧
    ∀ x y, in_range (panel world_4x5) x y →
      getPoint (panel w') x y
      = if bool_decide (2 ≤ x ≤ 10 ∧ Z.min 12 3 ≤ y ≤ Z.max 12 3)
        then false else getPoint (panel world_4x5) x y.
Proof.
  apply (clear_switches_the_area_off 30 2 12 10 3 world_4x5).
  - unfold panel_wf; simpl; lia.
  - unfold chain_fits; simpl; lia.
  - unfold columns_fit; simpl; lia.
  - lia.
  - lia.
  - lia.
  - lia.
  - lia.
Defined.

Lemma clear_does_not_swap_columns_witness :
  clear 30 10 3 2 12 world_4x5 = Some (tt, world_4x5).
Proof.
  apply (clear_does_not_swap_columns 30 10 3 2 12 world_4x5).
  - reflexivity.
  - lia.
Defined.

Lemma clear_never_returns_from_column_255_witness :
  clear 1000 0 0 255 7 world_4x5 = None.
Proof.
  apply (clear_never_returns_from_column_255 0 0 255 7 world_4x5). lia.
Defined.

Lemma drawCircle_stays_on_the_circle_witness :
  ∃ b w' cs,
    drawCircle 16 6 16 16 5 true world_4x5 = Some (b, w') ∧
    calls w' = cs ++ calls world_4x5 ∧
    ∀ c, In c cs →
      call_state c = true ∧
      ∃ dx dy, call_x c = u16 (16 + dx) ∧ call_y c = u16 (16 + dy) ∧
               Z.abs dx ≤ 5 ∧ Z.abs dy ≤ 5 ∧
               Z.abs (dx * dx + dy * dy - 5 * 5) ≤ 5.
Proof.
  apply (drawCircle_stays_on_the_circle 16 6 16 16 5 true world_4x5).
  - lia.
  - unfold is_u16; lia.
  - simpl; lia.
  - lia.
Defined.

Lemma drawHLine_changes_its_row_only_witness :
  ∃ b w',
    drawHLine 40 17 31 0 true world_4x5 = Some (b, w') ∧
    (b = true ↔ in_range (panel world_4x5) (Z.max 31 0) 17) ∧
    (∀ x y', in_range (panel world_4x5) x y' →
       getPoint (panel w') x y'
       = if bool_decide (y' = 17 ∧ Z.min 31 0 ≤ x ≤ Z.max 31 0)
         then true else getPoint (panel world_4x5) x y') ∧
    Z.of_nat (length (calls w'))
    = Z.of_nat (length (calls world_4x5)) + Z.abs (0 - 31) + 1.
Proof.
  apply (drawHLine_changes_its_row_only 40 17 31 0 true world_4x5).
  - unfold panel_wf; simpl; lia.
  - unfold chain_fits; simpl; lia.
  - unfold columns_fit; simpl; lia.
  - unfold is_u16; lia.
  - lia.
  - lia.
  - lia.
Defined.

Lemma drawVLine_changes_its_column_only_witness :
  ∃ b w',
    drawVLine 20 19 17 0 true world_4x5 = Some (b, w') ∧
    (b = true ↔ in_range (panel world_4x5) 19 (Z.max 17 0)) ∧
    (∀ x' y, in_range (panel world_4x5) x' y →
       getPoint (panel w') x' y
       = if bool_decide (x' = 19 ∧ Z.min 17 0 ≤ y ≤ Z.max 17 0)
         then true else getPoint (panel world_4x5) x' y).
Proof.
  apply (drawVLine_changes_its_column_only 20 19 17 0 true world_4x5).
  - unfold panel_wf; simpl; lia.
  - unfold chain_fits; simpl; lia.
  - unfold columns_fit; simpl; lia.
  - unfold is_u16; lia.
  - lia.
  - lia.
  - lia.
Defined.

Lemma drawLine_direction_symmetry_witness :
  ∃ b w12 w21,
    drawLine 20 0 0 7 3 true world_4x5 = Some (b, w12) ∧
    drawLine 20 7 3 0 0 true world_4x5 = Some (b, w21) ∧
    panel w12 = panel w21 ∧
    ∀ c, In c (calls w12) ↔ In c (calls w21).
Proof.
  apply (drawLine_direction_symmetry 20 0 0 7 3 true world_4x5).
  - unfold is_u16; lia.
  - unfold is_u16; lia.
  - unfold is_u16; lia.
  - unfold is_u16; lia.
  - lia.
  - lia.
  - lia.
Defined.

Lemma nextPixel_keeps_the_head_on_the_panel_witness :
  ∃ x' y' w',
    Sketch.nextPixel 16 1000 100 31 5 world_4x5 = Some ((x', y'), w') ∧
    x' = Z.max 0 (Z.min (getXMax (panel world_4x5))
           (31 + if 1000 <=? 341 then -1 else if 682 <=? 1000 then 1 else 0)) ∧
    y' = Z.max 0 (Z.min (getYMax (panel world_4x5))
           (5 + if 100 <=? 341 then -1 else if 682 <=? 100 then 1 else 0)) ∧
    in_range (panel world_4x5) x' y' ∧ Z.abs (x' - 31) ≤ 1 ∧ Z.abs (y' - 5) ≤ 1 ∧
    same_geometry (panel world_4x5) (panel w') ∧
    ∀ a b, in_range (panel world_4x5) a b →
      getPoint (panel w') a b
      = if bool_decide (a = x' ∧ b = y') then true
        else getPoint (panel world_4x5) a b.
Proof.
  apply (nextPixel_keeps_the_head_on_the_panel 16 1000 100 31 5 world_4x5).
  - unfold panel_wf; simpl; lia.
  - unfold chain_fits; simpl; lia.
  - unfold columns_fit; simpl; lia.
  - lia.
  - lia.
  - apply in_rangeb_spec; vm_compute; reflexivity.
Defined.

Lemma fieldValueAdd_stops_at_zero_witness :
  cScoreboard.fieldGetValue
    (cScoreboard.fieldValueAdd board_of_the_sketch 2 (-1)) 2
  = (if bool_decide (2 = 2 ∧ 2 ∈ field_ids board_of_the_sketch)
     then u32 (Z.max 0 (cScoreboard.fieldGetValue board_of_the_sketch 2 + -1))
     else cScoreboard.fieldGetValue board_of_the_sketch 2)
  ∧ values_u32 (cScoreboard.fieldValueAdd board_of_the_sketch 2 (-1)).
Proof.
  apply (fieldValueAdd_stops_at_zero board_of_the_sketch 2 2 (-1)).
  - unfold values_u32. simpl.
    repeat (apply List.Forall_cons; [simpl; lia|]). apply List.Forall_nil.
  - lia.
Defined.

Lemma processUI_keeps_the_scores_in_range_witness :
  (score_ok (Scoreboard.processUI 0
               [Scoreboard.KEY_PRESS; Scoreboard.KEY_PRESS; Scoreboard.KEY_NULL;
                Scoreboard.KEY_NULL; Scoreboard.KEY_LONGPRESS] board_of_the_sketch)
            Scoreboard.FLD_SCORE1 ∧
   score_ok (Scoreboard.processUI 0
               [Scoreboard.KEY_PRESS; Scoreboard.KEY_PRESS; Scoreboard.KEY_NULL;
                Scoreboard.KEY_NULL; Scoreboard.KEY_LONGPRESS] board_of_the_sketch)
            Scoreboard.FLD_SCORE2) ∧
  let pressed := Scoreboard.processUI 0
                   [Scoreboard.KEY_NULL; Scoreboard.KEY_PRESS; Scoreboard.KEY_NULL;
                    Scoreboard.KEY_NULL; Scoreboard.KEY_NULL] board_of_the_sketch in
  cScoreboard.fieldGetValue pressed Scoreboard.FLD_SCORE1
  = (if bool_decide (Scoreboard.FLD_SCORE1 ∈ field_ids board_of_the_sketch)
     then (cScoreboard.fieldGetValue board_of_the_sketch Scoreboard.FLD_SCORE1 + 1)
          mod 1000
     else 0) ∧
  cScoreboard.fieldGetValue pressed Scoreboard.FLD_SCORE2
  = cScoreboard.fieldGetValue board_of_the_sketch Scoreboard.FLD_SCORE2.
Proof.
  apply (processUI_keeps_the_scores_in_range 0
           [Scoreboard.KEY_PRESS; Scoreboard.KEY_PRESS; Scoreboard.KEY_NULL;
            Scoreboard.KEY_NULL; Scoreboard.KEY_LONGPRESS] board_of_the_sketch).
  - unfold score_ok. split; apply Z.leb_le; vm_compute; reflexivity.
  - unfold score_ok. split; apply Z.leb_le; vm_compute; reflexivity.
Defined.

Lemma processClocks_ticks_when_the_period_is_over_witness :
  let sb := board_running in
  let c := cScoreboard.mkClock (Some 0%nat) Scoreboard.MAX_TIME 0 1000 true false in
  let fd := cScoreboard.mkField 1 cScoreboard.MMMSS 1 28 0 false 6 in
  let sb' := cScoreboard.processClocks 1500 sb in
  let elapsed := u32 (1500 - cScoreboard.timeLast c) in
  let v' := u32 (cScoreboard.value fd + (if cScoreboard.countUp c then 1 else -1)) in
  (elapsed < cScoreboard.timeToGo c → sb' = sb) ∧
  (cScoreboard.timeToGo c ≤ elapsed →
   cScoreboard.load (cScoreboard._fieldList sb') 0
   = Some (cScoreboard.set_value fd v') ∧
   cScoreboard._changed sb' = true ∧
   ∃ c', cScoreboard._clock sb' !! 0%nat = Some c' ∧
         cScoreboard.f c' = Some 0%nat ∧
         cScoreboard.timeLimit c' = cScoreboard.timeLimit c ∧
         cScoreboard.countUp c' = cScoreboard.countUp c ∧
         cScoreboard.timeLast c' = 1500 ∧
         cScoreboard.stopped c'
         = (if cScoreboard.countUp c then v' =? cScoreboard.timeLimit c else v' =? 0) ∧
         cScoreboard.timeToGo c'
         = (if elapsed - cScoreboard.timeToGo c <=? 1000
            then 1000 - (elapsed - cScoreboard.timeToGo c)
            else 2 ^ 32 + 1000 - (elapsed - cScoreboard.timeToGo c))).
Proof.
  intros sb c fd.
  apply (processClocks_ticks_when_the_period_is_over 1500 sb 0 c 0 fd).
  - lia.
  - reflexivity.
  - intros k c' Hk Hc'. destruct k as [|[|[|k]]]; [done| | |].
    + vm_compute in Hc'. injection Hc' as <-. by left.
    + vm_compute in Hc'. injection Hc' as <-. by left.
    + vm_compute in Hc'. discriminate.
  - reflexivity.
  - reflexivity.
  - reflexivity.
  - lia.
  - simpl; lia.
  - simpl; lia.
Defined.

Lemma formatNum_right_aligns_the_digits_witness :
  ∃ k : nat,
    digits_shown k 7 2 ∧
    cScoreboard.formatNum 2 (replicate 12 0) 7 2 false
    = cScoreboard.Returns
        (replicate (Z.to_nat 2 - k) (if false then 48 else 32)
         ++ decimal k 7 ++ 0 :: drop (Z.to_nat 2 + 1) (replicate 12 0)) ∧
    (false = true →
     cScoreboard.formatNum 2 (replicate 12 0) 7 2 false
     = cScoreboard.Returns
         (decimal (Z.to_nat 2) 7 ++ 0 :: drop (Z.to_nat 2 + 1) (replicate 12 0))).
Proof.
  apply (formatNum_right_aligns_the_digits 2 (replicate 12 0) 7 2 false).
  - lia.
  - simpl; lia.
  - lia.
  - lia.
Defined.

Lemma formatNum_writes_before_the_buffer_witness :
  cScoreboard.formatNum 5 (replicate 12 0) 7 0 true = cScoreboard.Faults.
Proof.
  apply (formatNum_writes_before_the_buffer 5 (replicate 12 0) 7 0 true).
  - left; reflexivity.
  - lia.
Defined.

Lemma formatTime_writes_minutes_and_seconds_witness :
  ∃ k : nat,
    digits_shown k (754 / 60) 3 ∧
    cScoreboard.formatTime 3 (replicate 16 0) 754 3 false
    = cScoreboard.Returns
        (replicate (Z.to_nat 3 - k) (if false then 48 else 32)
         ++ decimal k (754 / 60)
         ++ 58 :: decimal 2 (754 mod 60)
         ++ 0 :: drop (Z.to_nat 3 + 4) (replicate 16 0)).
Proof.
  apply (formatTime_writes_minutes_and_seconds 3 (replicate 16 0) 754 3 false).
  - lia.
  - simpl; lia.
  - lia.
  - lia.
  - lia.
Defined.

Lemma clockToggle_pauses_and_resumes_witness :
  let sb := board_running in
  let c := cScoreboard.mkClock (Some 0%nat) Scoreboard.MAX_TIME 0 1000 true false in
  let sb1 := cScoreboard.clockToggle 400 sb Scoreboard.FLD_CLOCK in
  let sb2 := cScoreboard.clockToggle 5000 sb1 Scoreboard.FLD_CLOCK in
  cScoreboard.isClockStopped sb Scoreboard.FLD_CLOCK = false ∧
  cScoreboard.isClockStopped sb1 Scoreboard.FLD_CLOCK = true ∧
  cScoreboard.isClockStopped sb2 Scoreboard.FLD_CLOCK = false ∧
  cScoreboard.get_clock sb2 (cScoreboard.findClock sb Scoreboard.FLD_CLOCK)
  = Some (cScoreboard.mkClock (cScoreboard.f c) (cScoreboard.timeLimit c) 5000
            (u32 (cScoreboard.timeToGo c - u32 (400 - cScoreboard.timeLast c)))
            (cScoreboard.countUp c) false) ∧
  cScoreboard._fieldList sb2 = cScoreboard._fieldList sb ∧
  cScoreboard._changed sb2 = cScoreboard._changed sb.
Proof.
  intros sb c.
  apply (clockToggle_pauses_and_resumes 400 5000 sb Scoreboard.FLD_CLOCK c).
  - vm_compute. discriminate.
  - reflexivity.
  - reflexivity.
Defined.

Lemma timeout_bars_follow_the_counts_witness :
  (∃ w',
     Basketball.showTimeout 5 [2; 0] world_4x5 = Some (tt, w') ∧
     ∀ x y, in_range (panel world_4x5) x y →
       getPoint (panel w') x y
       = match (if y =? 15 then timeout_bar 2 0 x else None) with
         | Some lit => lit
         | None => getPoint (panel world_4x5) x y
         end) ∧
  let c0' := if decide (0%nat = 0%nat) then (2 + 1) mod 3 else 2 in
  let c1' := if decide (0%nat = 1%nat) then (0 + 1) mod 3 else 0 in
  ∃ w',
    Basketball.timeout_key 5 0 [2; 0] world_4x5 = Some ([c0'; c1'], w') ∧
    ∀ x y, in_range (panel world_4x5) x y →
      getPoint (panel w') x y
      = match (if y =? 15 then timeout_bar c0' c1' x else None) with
        | Some lit => lit
        | None => getPoint (panel world_4x5) x y
        end.
Proof.
  apply (timeout_bars_follow_the_counts 5 0 2 0 world_4x5).
  - unfold panel_wf; simpl; lia.
  - unfold chain_fits; simpl; lia.
  - unfold columns_fit; simpl; lia.
  - lia.
  - lia.
  - lia.
  - lia.
Defined.

Lemma fieldCreate_links_the_field_but_reports_false_witness :
  let r := cScoreboard.fieldCreate true board_of_the_sketch 9 0 0
             cScoreboard.NUMBER 1 true in
  r.1 = false ∧
  cScoreboard._fieldList r.2
  = cScoreboard.mkField 9 cScoreboard.NUMBER 0 0 0 true 1
    :: cScoreboard._fieldList board_of_the_sketch ∧
  cScoreboard._changed r.2 = true ∧
  cScoreboard.findField r.2 9
  = Some (length (cScoreboard._fieldList board_of_the_sketch)) ∧
  cScoreboard.fieldGetValue r.2 9 = 0.
Proof.
  destruct (fieldCreate_links_the_field_but_reports_false true board_of_the_sketch
              9 0 0 cScoreboard.NUMBER 1 true) as (Hfalse & Hnew & _).
  cbv zeta. split; [exact Hfalse|]. apply Hnew.
  - apply (bool_decide_unpack _). vm_compute. exact I.
  - reflexivity.
Defined.

Lemma fieldGetValue_after_fieldSetValue_witness :
  cScoreboard.fieldGetValue (cScoreboard.fieldSetValue board_of_the_sketch 2 41) 2
  = (if bool_decide (2 = 2 ∧ 2 ∈ field_ids board_of_the_sketch) then 41
     else cScoreboard.fieldGetValue board_of_the_sketch 2)
  ∧ cScoreboard.fieldSetValue board_of_the_sketch 9 41 = board_of_the_sketch
  ∧ cScoreboard.fieldGetValue board_of_the_sketch 9 = 0.
Proof.
  destruct (fieldGetValue_after_fieldSetValue board_of_the_sketch 2 2 41) as (Hset & _).
  destruct (fieldGetValue_after_fieldSetValue board_of_the_sketch 9 9 41)
    as (_ & _ & Habsent).
  split; [exact Hset|]. apply Habsent.
  apply (bool_decide_unpack _). vm_compute. exact I.
Defined.

Lemma clockCreate_takes_the_first_empty_slot_witness :
  let r := cScoreboard.clockCreate 0 board_of_the_sketch Scoreboard.FLD_CLOCK
             Scoreboard.MAX_TIME false in
  let e := cScoreboard.empty_slot (cScoreboard._clock board_of_the_sketch) 0 in
  (∃ c0, cScoreboard.get_clock board_of_the_sketch e = Some c0 ∧
         cScoreboard.get_clock r.2 e
         = Some (cScoreboard.mkClock
                   (cScoreboard.findField board_of_the_sketch Scoreboard.FLD_CLOCK)
                   Scoreboard.MAX_TIME (cScoreboard.timeLast c0) 1000 false true)) ∧
  cScoreboard.fieldGetValue r.2 Scoreboard.FLD_CLOCK
  = (if false then 0 else Scoreboard.MAX_TIME) ∧
  (∀ j, j ≠ Scoreboard.FLD_CLOCK →
        cScoreboard.fieldGetValue r.2 j
        = cScoreboard.fieldGetValue board_of_the_sketch j) ∧
  cScoreboard._changed r.2 = true.
Proof.
  destruct (clockCreate_takes_the_first_empty_slot 0 board_of_the_sketch
              Scoreboard.FLD_CLOCK Scoreboard.MAX_TIME false) as (_ & _ & Hnew).
  cbv zeta. apply Hnew.
  - reflexivity.
  - reflexivity.
  - reflexivity.
Defined.
